(** * Order dispatch service: a shallow embedding and its verified properties

    The development follows the Go sources of the order service:
    - [model]       services/order/internal/model/order.go
    - [pb]          proto/order/order.proto (the request messages and enums)
    - [repository]  services/order/internal/repository/order_repository.go
    - [service]     the provider matcher and the order service

    Go's [float64] is IEEE 754 binary64, which is what Rocq's primitive
    [float] is, so the numeric code is evaluated bit for bit.  Strings are
    strings, Go [int]/[int32] values are [Z], the [orders] table is a finite
    map keyed by its primary key.  Calls to the outside world (clock, UUID
    generator, database, provider directory, ledger) are the nodes of a small
    program tree [Prog], so that one definition of every handler serves the
    sequential reading, the log of directory queries and the interleaving of
    two requests. *)

From Stdlib Require Import ZArith Floats Lia Sorted Permutation.
From stdpp Require Import gmap strings list sorting.

Local Open Scope string_scope.
Local Open Scope list_scope.
Local Open Scope Z_scope.
Local Set Warnings "-inexact-float".

(* ===================================================================== *)
(** ** Floating point helpers *)
(* ===================================================================== *)

(** [float64(n)] for a Go integer [n].  The integers converted by the code
    come from [int32] protobuf fields, far inside the range where the
    conversion is exact. *)
Definition float64_of_int (n : Z) : float :=
  if n <? 0 then PrimFloat.opp (PrimFloat.of_uint63 (Uint63.of_Z (- n)))
  else PrimFloat.of_uint63 (Uint63.of_Z n).

(** Go's [math.Min], with its documented special cases:
    [Min(x, -Inf) = Min(-Inf, x) = -Inf], [Min(x, NaN) = Min(NaN, x) = NaN],
    [Min(-0, ±0) = Min(±0, -0) = -0]. *)
Definition math_Min (x y : float) : float :=
  if (PrimFloat.eqb x neg_infinity || PrimFloat.eqb y neg_infinity)%bool
  then neg_infinity
  else if (PrimFloat.is_nan x || PrimFloat.is_nan y)%bool then nan
  else if (PrimFloat.eqb x 0 && PrimFloat.eqb x y)%bool
  then (if PrimFloat.get_sign x then x else y)
  else if PrimFloat.ltb x y then x else y.

(** Rounding a finite value into the format with [pr] bits of precision and
    maximal exponent [emx], to nearest with ties to even; zeros, infinities
    and NaN are kept. *)
Definition narrow (pr emx : Z) (x : spec_float) : spec_float :=
  match x with
  | S754_finite s m e => binary_round pr emx s m e
  | _ => x
  end.

(** Go's conversion [float32(x)]: round to nearest even into binary32
    (24 bits of precision, maximal exponent 128).  A binary32 value is kept
    as its IEEE-754 description: sign, mantissa and exponent. *)
Definition float32 (x : float) : spec_float := narrow 24 128 (Prim2SF x).

(* ===================================================================== *)
(** ** package model *)
(* ===================================================================== *)

Module model.

Definition Time := Z.

Definition OrderStatus := string.
Definition StatusCreated : OrderStatus := "CREATED".
Definition StatusPaymentPending : OrderStatus := "PAYMENT_PENDING".
Definition StatusPaymentComplete : OrderStatus := "PAYMENT_COMPLETED".
Definition StatusProviderAssigned : OrderStatus := "PROVIDER_ASSIGNED".
Definition StatusProviderAccepted : OrderStatus := "PROVIDER_ACCEPTED".
Definition StatusProviderRejected : OrderStatus := "PROVIDER_REJECTED".
Definition StatusInProgress : OrderStatus := "IN_PROGRESS".
Definition StatusPickedUp : OrderStatus := "PICKED_UP".
Definition StatusInTransit : OrderStatus := "IN_TRANSIT".
Definition StatusArrived : OrderStatus := "ARRIVED".
Definition StatusDelivered : OrderStatus := "DELIVERED".
Definition StatusCompleted : OrderStatus := "COMPLETED".
Definition StatusCancelled : OrderStatus := "CANCELLED".
Definition StatusRefunded : OrderStatus := "REFUNDED".
Definition StatusDisputed : OrderStatus := "DISPUTED".

Definition OrderType := string.
Definition TypeRide : OrderType := "RIDE".
Definition TypeFoodDelivery : OrderType := "FOOD_DELIVERY".
Definition TypePackageDelivery : OrderType := "PACKAGE_DELIVERY".
Definition TypeGroceryDelivery : OrderType := "GROCERY_DELIVERY".
Definition TypeServiceBooking : OrderType := "SERVICE_BOOKING".

Definition PaymentMethod := string.
Definition PaymentCreditCard : PaymentMethod := "CREDIT_CARD".
Definition PaymentDebitCard : PaymentMethod := "DEBIT_CARD".
Definition PaymentDigitalWallet : PaymentMethod := "DIGITAL_WALLET".
Definition PaymentCash : PaymentMethod := "CASH".
Definition PaymentCrypto : PaymentMethod := "CRYPTO".

Record Location := {
  Latitude : float;
  Longitude : float;
  Address : string;
  PostalCode : string;
  City : string;
  Country : string;
  AdditionalInfo : gmap string string;
}.

Record OrderItem := {
  ItemID : string;
  Name : string;
  Quantity : Z;
  Price : float;
  Properties : gmap string string;
}.

Definition OrderItems := list OrderItem.

Record StatusHistory := {
  sh_Status : OrderStatus;
  sh_UpdatedBy : string;
  sh_Notes : string;
  sh_Timestamp : Time;
}.

Definition StatusHistories := list StatusHistory.

Record Order := {
  ID : string;
  UserID : string;
  ProviderID : string;
  OrderType_ : OrderType;
  Status : OrderStatus;
  PickupLocation : Location;
  DestinationLocation : Location;
  Items : OrderItems;
  TotalPrice : float;
  PlatformFee : float;
  ProviderFee : float;
  TransactionID : string;
  BlockchainTxHash : string;
  PaymentMethod_ : PaymentMethod;
  Notes : string;
  CreatedAt : Time;
  UpdatedAt : Time;
  StatusHistory_ : StatusHistories;
}.

(** Field assignments [o.F = v] on an order. *)
Definition set_ProviderID (v : string) (o : Order) : Order :=
  Build_Order (ID o) (UserID o) v (OrderType_ o) (Status o)
    (PickupLocation o) (DestinationLocation o) (Items o) (TotalPrice o)
    (PlatformFee o) (ProviderFee o) (TransactionID o) (BlockchainTxHash o)
    (PaymentMethod_ o) (Notes o) (CreatedAt o) (UpdatedAt o) (StatusHistory_ o).
Definition set_Status (v : OrderStatus) (o : Order) : Order :=
  Build_Order (ID o) (UserID o) (ProviderID o) (OrderType_ o) v
    (PickupLocation o) (DestinationLocation o) (Items o) (TotalPrice o)
    (PlatformFee o) (ProviderFee o) (TransactionID o) (BlockchainTxHash o)
    (PaymentMethod_ o) (Notes o) (CreatedAt o) (UpdatedAt o) (StatusHistory_ o).
Definition set_TotalPrice (v : float) (o : Order) : Order :=
  Build_Order (ID o) (UserID o) (ProviderID o) (OrderType_ o) (Status o)
    (PickupLocation o) (DestinationLocation o) (Items o) v
    (PlatformFee o) (ProviderFee o) (TransactionID o) (BlockchainTxHash o)
    (PaymentMethod_ o) (Notes o) (CreatedAt o) (UpdatedAt o) (StatusHistory_ o).
Definition set_PlatformFee (v : float) (o : Order) : Order :=
  Build_Order (ID o) (UserID o) (ProviderID o) (OrderType_ o) (Status o)
    (PickupLocation o) (DestinationLocation o) (Items o) (TotalPrice o)
    v (ProviderFee o) (TransactionID o) (BlockchainTxHash o)
    (PaymentMethod_ o) (Notes o) (CreatedAt o) (UpdatedAt o) (StatusHistory_ o).
Definition set_ProviderFee (v : float) (o : Order) : Order :=
  Build_Order (ID o) (UserID o) (ProviderID o) (OrderType_ o) (Status o)
    (PickupLocation o) (DestinationLocation o) (Items o) (TotalPrice o)
    (PlatformFee o) v (TransactionID o) (BlockchainTxHash o)
    (PaymentMethod_ o) (Notes o) (CreatedAt o) (UpdatedAt o) (StatusHistory_ o).
Definition set_BlockchainTxHash (v : string) (o : Order) : Order :=
  Build_Order (ID o) (UserID o) (ProviderID o) (OrderType_ o) (Status o)
    (PickupLocation o) (DestinationLocation o) (Items o) (TotalPrice o)
    (PlatformFee o) (ProviderFee o) (TransactionID o) v
    (PaymentMethod_ o) (Notes o) (CreatedAt o) (UpdatedAt o) (StatusHistory_ o).
Definition set_UpdatedAt (v : Time) (o : Order) : Order :=
  Build_Order (ID o) (UserID o) (ProviderID o) (OrderType_ o) (Status o)
    (PickupLocation o) (DestinationLocation o) (Items o) (TotalPrice o)
    (PlatformFee o) (ProviderFee o) (TransactionID o) (BlockchainTxHash o)
    (PaymentMethod_ o) (Notes o) (CreatedAt o) v (StatusHistory_ o).
Definition set_StatusHistory (v : StatusHistories) (o : Order) : Order :=
  Build_Order (ID o) (UserID o) (ProviderID o) (OrderType_ o) (Status o)
    (PickupLocation o) (DestinationLocation o) (Items o) (TotalPrice o)
    (PlatformFee o) (ProviderFee o) (TransactionID o) (BlockchainTxHash o)
    (PaymentMethod_ o) (Notes o) (CreatedAt o) (UpdatedAt o) v.

(** [func (o *Order) AddStatusHistory(status, updatedBy, notes)].  The two
    readings of [time.Now()] are the arguments [t_updated] and [t_entry]. *)
Definition AddStatusHistory (status : OrderStatus) (updatedBy notes : string)
    (t_updated t_entry : Time) (o : Order) : Order :=
  let o := set_Status status o in
  let o := set_UpdatedAt t_updated o in
  let historyEntry :=
    {| sh_Status := status; sh_UpdatedBy := updatedBy; sh_Notes := notes;
       sh_Timestamp := t_entry |} in
  set_StatusHistory (StatusHistory_ o ++ [historyEntry]) o.

(** [func (o *Order) CalculateFees()]. *)
Definition CalculateFees (o : Order) : Order :=
  let o := set_PlatformFee (TotalPrice o * 0.1)%float o in
  set_ProviderFee (TotalPrice o * 0.8)%float o.

Record OrderLocation := {
  ol_ID : string;
  ol_OrderID : string;
  ol_ProviderID : string;
  ol_Latitude : float;
  ol_Longitude : float;
  ol_Timestamp : Time;
}.

End model.

(* ===================================================================== *)
(** ** package pb: the request messages of proto/order/order.proto *)
(* ===================================================================== *)

Module pb.

(** Protobuf enums are open [int32] values with named constants. *)
Definition OrderType := Z.
Definition OrderType_ORDER_TYPE_UNSPECIFIED : OrderType := 0.
Definition OrderType_ORDER_TYPE_RIDE : OrderType := 1.
Definition OrderType_ORDER_TYPE_FOOD_DELIVERY : OrderType := 2.
Definition OrderType_ORDER_TYPE_PACKAGE_DELIVERY : OrderType := 3.
Definition OrderType_ORDER_TYPE_GROCERY_DELIVERY : OrderType := 4.
Definition OrderType_ORDER_TYPE_SERVICE_BOOKING : OrderType := 5.

Definition OrderStatus := Z.
Definition OrderStatus_ORDER_STATUS_UNSPECIFIED : OrderStatus := 0.
Definition OrderStatus_ORDER_STATUS_CREATED : OrderStatus := 1.
Definition OrderStatus_ORDER_STATUS_PAYMENT_PENDING : OrderStatus := 2.
Definition OrderStatus_ORDER_STATUS_PAYMENT_COMPLETED : OrderStatus := 3.
Definition OrderStatus_ORDER_STATUS_PROVIDER_ASSIGNED : OrderStatus := 4.
Definition OrderStatus_ORDER_STATUS_PROVIDER_ACCEPTED : OrderStatus := 5.
Definition OrderStatus_ORDER_STATUS_PROVIDER_REJECTED : OrderStatus := 6.
Definition OrderStatus_ORDER_STATUS_IN_PROGRESS : OrderStatus := 7.
Definition OrderStatus_ORDER_STATUS_PICKED_UP : OrderStatus := 8.
Definition OrderStatus_ORDER_STATUS_IN_TRANSIT : OrderStatus := 9.
Definition OrderStatus_ORDER_STATUS_ARRIVED : OrderStatus := 10.
Definition OrderStatus_ORDER_STATUS_DELIVERED : OrderStatus := 11.
Definition OrderStatus_ORDER_STATUS_COMPLETED : OrderStatus := 12.
Definition OrderStatus_ORDER_STATUS_CANCELLED : OrderStatus := 13.
Definition OrderStatus_ORDER_STATUS_REFUNDED : OrderStatus := 14.
Definition OrderStatus_ORDER_STATUS_DISPUTED : OrderStatus := 15.

Definition PaymentMethod := Z.
Definition PaymentMethod_PAYMENT_METHOD_UNSPECIFIED : PaymentMethod := 0.
Definition PaymentMethod_PAYMENT_METHOD_CREDIT_CARD : PaymentMethod := 1.
Definition PaymentMethod_PAYMENT_METHOD_DEBIT_CARD : PaymentMethod := 2.
Definition PaymentMethod_PAYMENT_METHOD_DIGITAL_WALLET : PaymentMethod := 3.
Definition PaymentMethod_PAYMENT_METHOD_CASH : PaymentMethod := 4.
Definition PaymentMethod_PAYMENT_METHOD_CRYPTO : PaymentMethod := 5.

Record Location := {
  Latitude : float;
  Longitude : float;
  Address : string;
  PostalCode : string;
  City : string;
  Country : string;
  AdditionalInfo : gmap string string;
}.

(** [price] is a protobuf [float]: a binary32 value. *)
Record OrderItem := {
  ItemId : string;
  Name : string;
  Quantity : Z;
  Price : float;
  Properties : gmap string string;
}.

Record CreateOrderRequest := {
  cr_UserId : string;
  cr_OrderType : OrderType;
  cr_PickupLocation : option Location;
  cr_DestinationLocation : option Location;
  cr_Items : list OrderItem;
  cr_PaymentMethod : PaymentMethod;
  cr_Notes : string;
}.

Record UpdateOrderStatusRequest := {
  us_OrderId : string;
  us_Status : OrderStatus;
  us_UpdatedBy : string;
  us_Notes : string;
}.

Record CancelOrderRequest := {
  co_OrderId : string;
  co_CancelledBy : string;
  co_Reason : string;
}.

Record ListUserOrdersRequest := {
  lu_UserId : string;
  lu_Page : Z;
  lu_Limit : Z;
  lu_Status : OrderStatus;
}.

Record ListProviderOrdersRequest := {
  lp_ProviderId : string;
  lp_Page : Z;
  lp_Limit : Z;
  lp_Status : OrderStatus;
}.

Record AssignProviderRequest := {
  ap_OrderId : string;
  ap_ProviderId : string;
}.

Record AcceptOrderRequest := {
  ao_OrderId : string;
  ao_ProviderId : string;
  ao_CurrentLocation : option Location;
}.

Record RejectOrderRequest := {
  ro_OrderId : string;
  ro_ProviderId : string;
  ro_Reason : string;
}.

Record UpdateLocationRequest := {
  ul_OrderId : string;
  ul_ProviderId : string;
  ul_Location : option Location;
}.

(** The response messages. *)

Record OrderStatusHistory := {
  osh_Status : OrderStatus;
  osh_UpdatedBy : string;
  osh_Notes : string;
  osh_Timestamp : Z;
}.

(** [message Order].  Its three [float] fields are binary32 values. *)
Record Order := {
  ord_Id : string;
  ord_UserId : string;
  ord_ProviderId : string;
  ord_OrderType : OrderType;
  ord_Status : OrderStatus;
  ord_PickupLocation : Location;
  ord_DestinationLocation : Location;
  ord_Items : list OrderItem;
  ord_TotalPrice : spec_float;
  ord_PlatformFee : spec_float;
  ord_ProviderFee : spec_float;
  ord_TransactionId : string;
  ord_BlockchainTxHash : string;
  ord_PaymentMethod : PaymentMethod;
  ord_Notes : string;
  ord_CreatedAt : Z;
  ord_UpdatedAt : Z;
  ord_StatusHistory : list OrderStatusHistory;
}.

(** [message OrderLocationUpdate], the element of the [TrackOrder] stream. *)
Record OrderLocationUpdate := {
  olu_OrderId : string;
  olu_ProviderId : string;
  olu_CurrentLocation : Location;
  olu_EstimatedArrivalMinutes : spec_float;
  olu_Timestamp : Z;
}.

End pb.

(* ===================================================================== *)
(** ** Library and infrastructure the service is written against *)
(* ===================================================================== *)

(** A comparison [less] behaves as an ordering on the elements of [l]:
    irreflexive, transitive, and with a transitive "neither is less"
    relation.  This is what Go's [sort.Slice] and SQL's [ORDER BY] ask of the
    key they sort on. *)
Definition strict_weak_on {A : Type} (less : A -> A -> bool) (l : list A) : Prop :=
  (forall a, In a l -> less a a = false) /\
  (forall a b c, In a l -> In b l -> In c l ->
     less a b = true -> less b c = true -> less a c = true) /\
  (forall a b c, In a l -> In b l -> In c l ->
     less a b = false -> less b c = false -> less a c = false).

(** [ordered_by less l]: no element of [l] is [less] than one before it. *)
Definition ordered_by {A : Type} (less : A -> A -> bool) (l : list A) : Prop :=
  StronglySorted (fun a b => less b a = false) l.

(** A sorting routine: Go's [sort.Slice], SQL's [ORDER BY]. *)
Definition Sorter : Type := forall A : Type, (A -> A -> bool) -> list A -> list A.

(** The contract such a routine is known by: the result is a rearrangement
    of the input, and it is ordered whenever the comparison is an ordering on
    the input.  Nothing is promised about elements that compare equal:
    [sort.Slice] documents that it is not stable, and SQL leaves the order of
    rows with equal keys open. *)
Record sorts (srt : Sorter) : Prop := {
  sort_perm : forall A (less : A -> A -> bool) (l : list A),
    Permutation l (srt A less l);
  sort_ordered : forall A (less : A -> A -> bool) (l : list A),
    strict_weak_on less l -> ordered_by less (srt A less l);
}.

(** Insertion sort as [sort.Slice] runs it on short slices: element [x] moves
    left while it is [less] than its left neighbour. *)
Fixpoint insert_left {A : Type} (less : A -> A -> bool) (x : A) (rev_prefix : list A)
  : list A :=
  match rev_prefix with
  | [] => [x]
  | y :: ys => if less x y then y :: insert_left less x ys else x :: y :: ys
  end.

Definition insertionSort {A : Type} (less : A -> A -> bool) (l : list A) : list A :=
  rev (fold_left (fun acc x => insert_left less x acc) l []).

(** [type Provider struct] of the provider matcher: a candidate as the
    provider directory reports it. *)
Record Provider := {
  pv_ID : string;
  pv_Name : string;
  pv_Rating : float;
  pv_ServiceTypes : list string;
  pv_Location : model.Location;
  pv_IsAvailable : bool;
  pv_Distance : float;
}.

(** One query [FindAvailableProviders(ctx, location, radius, serviceType)]. *)
Record DirQuery := {
  q_location : model.Location;
  q_radius : float;
  q_serviceType : string;
}.

(** The collaborators the service does not control.  Each is a deterministic
    oracle: the n-th clock reading, the n-th UUID, the directory's answer to a
    query given the queries made before it ([None] is a failed call), the
    ledger's answer to the n-th recording ([None] is a failed call). *)
Record Env := {
  env_clock : nat -> model.Time;
  env_uuid : nat -> string;
  env_directory : list DirQuery -> DirQuery -> option (list Provider);
  env_notify : string -> string -> bool;
  env_ledger : nat -> model.Order -> option string;
  env_sort_Slice : Sorter;
  env_order_by : Sorter;
}.

(** The state outside the handlers: the two tables, how often the clock and
    the UUID generator were read, and the calls received by the provider
    directory and the ledger. *)
Record World := {
  orders : gmap string model.Order;
  order_locations : list model.OrderLocation;
  clock_reads : nat;
  uuid_draws : nat;
  dir_queries : list DirQuery;
  dir_notified : list (string * string);
  ledger_records : list model.Order;
}.

Definition set_orders (m : gmap string model.Order) (w : World) : World :=
  Build_World m (order_locations w) (clock_reads w) (uuid_draws w)
    (dir_queries w) (dir_notified w) (ledger_records w).
Definition set_order_locations (l : list model.OrderLocation) (w : World) : World :=
  Build_World (orders w) l (clock_reads w) (uuid_draws w)
    (dir_queries w) (dir_notified w) (ledger_records w).
Definition set_clock_reads (n : nat) (w : World) : World :=
  Build_World (orders w) (order_locations w) n (uuid_draws w)
    (dir_queries w) (dir_notified w) (ledger_records w).
Definition set_uuid_draws (n : nat) (w : World) : World :=
  Build_World (orders w) (order_locations w) (clock_reads w) n
    (dir_queries w) (dir_notified w) (ledger_records w).
Definition set_dir_queries (l : list DirQuery) (w : World) : World :=
  Build_World (orders w) (order_locations w) (clock_reads w) (uuid_draws w)
    l (dir_notified w) (ledger_records w).
Definition set_dir_notified (l : list (string * string)) (w : World) : World :=
  Build_World (orders w) (order_locations w) (clock_reads w) (uuid_draws w)
    (dir_queries w) l (ledger_records w).
Definition set_ledger_records (l : list model.Order) (w : World) : World :=
  Build_World (orders w) (order_locations w) (clock_reads w) (uuid_draws w)
    (dir_queries w) (dir_notified w) l.

(** Which column a listing query selects on. *)
Inductive OwnerColumn := by_user_id | by_provider_id.

(** The calls a handler makes to the outside.  The [sql_] calls are the SQL
    statements of the repository, one call per statement. *)
Inductive Call : Type :=
| time_Now
| uuid_New
| sql_InsertOrder (o : model.Order)
| sql_SelectOrder (id : string)
| sql_UpdateOrder (o : model.Order)
| sql_SelectForUpdate (id : string)
| sql_UpdateStatus (id : string) (status : model.OrderStatus)
    (history : model.StatusHistories) (updated_at : model.Time)
| sql_CountOrders (col : OwnerColumn) (key : string) (status : model.OrderStatus)
| sql_PageOrders (col : OwnerColumn) (key : string) (status : model.OrderStatus)
    (limit offset : Z)
| sql_InsertLocation (l : model.OrderLocation)
| dir_FindAvailableProviders (q : DirQuery)
| dir_NotifyProvider (providerID orderID : string)
| ledger_RecordOrder (orderID userID providerID : string) (snapshot : model.Order).

Definition Result (c : Call) : Type :=
  match c with
  | time_Now => model.Time
  | uuid_New => string
  | sql_InsertOrder _ => bool
  | sql_SelectOrder _ => option model.Order
  | sql_UpdateOrder _ => Z
  | sql_SelectForUpdate _ => option (model.StatusHistories * model.OrderStatus)
  | sql_UpdateStatus _ _ _ _ => Z
  | sql_CountOrders _ _ _ => Z
  | sql_PageOrders _ _ _ _ _ => list model.Order
  | sql_InsertLocation _ => bool
  | dir_FindAvailableProviders _ => option (list Provider)
  | dir_NotifyProvider _ _ => bool
  | ledger_RecordOrder _ _ _ _ => option string
  end.

(** The [WHERE] clause of the listing queries:
    [user_id = $1] or [provider_id = $1], and [AND status = $2] when the
    status argument is not the empty string. *)
Definition row_matches (col : OwnerColumn) (key : string)
    (status : model.OrderStatus) (o : model.Order) : bool :=
  (match col with
   | by_user_id => String.eqb (model.UserID o) key
   | by_provider_id => String.eqb (model.ProviderID o) key
   end)
  && (if String.eqb status "" then true else String.eqb (model.Status o) status).

(** [ORDER BY created_at DESC]: a row comes first when it was created later. *)
Definition created_later (a b : model.Order) : bool :=
  model.CreatedAt b <? model.CreatedAt a.

(** The rows of the [orders] table. *)
Definition table_rows (w : World) : list model.Order :=
  (map_to_list (orders w)).*2.

(** The row left by [UPDATE orders SET user_id = $2, ..., status_history = $17
    WHERE id = $1]: every column is taken from the order passed in, except
    [id] and [created_at], which the statement does not assign. *)
Definition updated_row (old o : model.Order) : model.Order :=
  model.Build_Order (model.ID old) (model.UserID o)
    (model.ProviderID o) (model.OrderType_ o) (model.Status o)
    (model.PickupLocation o) (model.DestinationLocation o)
    (model.Items o) (model.TotalPrice o) (model.PlatformFee o)
    (model.ProviderFee o) (model.TransactionID o)
    (model.BlockchainTxHash o) (model.PaymentMethod_ o)
    (model.Notes o) (model.CreatedAt old) (model.UpdatedAt o)
    (model.StatusHistory_ o).

(** What each call does to the world and what it returns.
    - [INSERT] fails on an existing primary key;
    - [UPDATE ... WHERE id = $1] returns the number of rows affected;
    - the listing query filters, orders by [created_at DESC], skips [offset]
      rows and returns at most [limit] rows.
    The store itself is taken to be available: a statement fails only for
    the reason its text gives. *)
Definition perform (env : Env) (c : Call) (w : World) : Result c * World :=
  match c return Result c * World with
  | time_Now =>
      (env_clock env (clock_reads w), set_clock_reads (S (clock_reads w)) w)
  | uuid_New =>
      (env_uuid env (uuid_draws w), set_uuid_draws (S (uuid_draws w)) w)
  | sql_InsertOrder o =>
      match orders w !! model.ID o with
      | Some _ => (false, w)
      | None => (true, set_orders (<[model.ID o := o]> (orders w)) w)
      end
  | sql_SelectOrder id => (orders w !! id, w)
  | sql_UpdateOrder o =>
      match orders w !! model.ID o with
      | Some old =>
          (1, set_orders (<[model.ID o := updated_row old o]> (orders w)) w)
      | None => (0, w)
      end
  | sql_SelectForUpdate id =>
      (match orders w !! id with
       | Some o => Some (model.StatusHistory_ o, model.Status o)
       | None => None
       end, w)
  | sql_UpdateStatus id status history updated_at =>
      match orders w !! id with
      | Some o =>
          (1, set_orders
                (<[id := model.set_UpdatedAt updated_at
                           (model.set_StatusHistory history
                              (model.set_Status status o))]> (orders w)) w)
      | None => (0, w)
      end
  | sql_CountOrders col key status =>
      (Z.of_nat (length (filter (fun o => row_matches col key status o = true)
                           (table_rows w))), w)
  | sql_PageOrders col key status limit offset =>
      (take (Z.to_nat limit)
         (drop (Z.to_nat offset)
            (env_order_by env _ created_later
               (filter (fun o => row_matches col key status o = true)
                  (table_rows w)))), w)
  | sql_InsertLocation l =>
      if existsb (fun l' => String.eqb (model.ol_ID l') (model.ol_ID l))
           (order_locations w)
      then (false, w)
      else (true, set_order_locations (order_locations w ++ [l]) w)
  | dir_FindAvailableProviders q =>
      (env_directory env (dir_queries w) q,
       set_dir_queries (dir_queries w ++ [q]) w)
  | dir_NotifyProvider providerID orderID =>
      (env_notify env providerID orderID,
       set_dir_notified (dir_notified w ++ [(providerID, orderID)]) w)
  | ledger_RecordOrder orderID userID providerID snapshot =>
      (env_ledger env (length (ledger_records w)) snapshot,
       set_ledger_records (ledger_records w ++ [snapshot]) w)
  end.

(** A handler is a tree of calls.
    - [Do c k] makes the call [c] and continues with its result;
    - [Atomic body k] runs [body] as a database transaction that holds the
      row lock it takes ([SELECT ... FOR UPDATE]) until it commits, so no
      other writer of that row runs in between;
    - [Go child k] is the statement [go func() { child }()];
    - [Panic] is a run-time panic. *)
Inductive Prog (A : Type) : Type :=
| Ret (a : A)
| Panic
| Do (c : Call) (k : Result c -> Prog A)
| Atomic (X : Type) (body : Prog X) (k : X -> Prog A)
| Go (child : Prog unit) (k : Prog A).

Arguments Ret {A} a.
Arguments Panic {A}.
Arguments Do {A} c k.
Arguments Atomic {A X} body k.
Arguments Go {A} child k.

Fixpoint bind {A B : Type} (p : Prog A) (f : A -> Prog B) : Prog B :=
  match p with
  | Ret a => f a
  | Panic => Panic
  | Do c k => Do c (fun x => bind (k x) f)
  | Atomic body k => Atomic body (fun x => bind (k x) f)
  | Go child k => Go child (bind k f)
  end.

#[global] Instance Prog_ret : MRet Prog := fun A a => Ret a.
#[global] Instance Prog_bind : MBind Prog := fun A B f p => bind p f.

Definition call (c : Call) : Prog (Result c) := Do c Ret.

Section Semantics.
Variable env : Env.

(** Run a handler to its return.  The goroutines it started are returned,
    not run: they are detached from the request. *)
Fixpoint run {A : Type} (p : Prog A) (w : World)
  : option A * World * list (Prog unit) :=
  match p with
  | Ret a => (Some a, w, [])
  | Panic => (None, w, [])
  | Do c k => let (x, w') := perform env c w in run (k x) w'
  | Atomic body k =>
      match run body w with
      | (Some x, w', kids) =>
          let '(r, w'', kids') := run (k x) w' in (r, w'', kids ++ kids')
      | (None, w', kids) => (None, w', kids)
      end
  | Go child k => let '(r, w', kids) := run k w in (r, w', child :: kids)
  end.

(** One scheduling step of a thread: its next call, a whole transaction, or
    the start of a goroutine. *)
Definition step {A : Type} (p : Prog A) (w : World)
  : Prog A * World * list (Prog unit) :=
  match p with
  | Ret _ | Panic => (p, w, [])
  | Do c k => let (x, w') := perform env c w in (k x, w', [])
  | Atomic body k =>
      match run body w with
      | (Some x, w', kids) => (k x, w', kids)
      | (None, w', kids) => (Panic, w', kids)
      end
  | Go child k => (k, w, [child])
  end.

(** Two requests served concurrently: the schedule says which of the two
    threads takes the next step ([true] for the first). *)
Fixpoint interleave {A B : Type} (schedule : list bool) (p : Prog A) (q : Prog B)
    (w : World) : Prog A * Prog B * World :=
  match schedule with
  | [] => (p, q, w)
  | true :: rest => let '(p', w', _) := step p w in interleave rest p' q w'
  | false :: rest => let '(q', w', _) := step q w in interleave rest p q' w'
  end.

(** The detached goroutines, each run to its end, one after the other. *)
Definition run_detached (kids : list (Prog unit)) (w : World) : World :=
  fold_left (fun w kid => (run kid w).1.2) kids w.

End Semantics.

(** Go [error] values the code distinguishes; [Errorf msg] stands for an
    error built by [fmt.Errorf] or returned by a collaborator. *)
Inductive error :=
| ErrOrderNotFound
| ErrInvalidData
| Errorf (msg : string).

Inductive result (A : Type) : Type :=
| ok (a : A)
| fail (e : error).
Arguments ok {A} a.
Arguments fail {A} e.

(* ===================================================================== *)
(** ** package repository *)
(* ===================================================================== *)

Module repository.

(** [func (r *OrderRepository) CreateOrder(ctx, order) error] *)
Definition CreateOrder (order : model.Order) : Prog (option error) :=
  if (String.eqb (model.ID order) "" || String.eqb (model.UserID order) "")%bool
  then Ret (Some ErrInvalidData)
  else
    inserted ← call (sql_InsertOrder order);
    if inserted : bool then Ret None
    else Ret (Some (Errorf "failed to create order")).

(** [func (r *OrderRepository) GetOrderByID(ctx, orderID)] *)
Definition GetOrderByID (orderID : string) : Prog (result model.Order) :=
  row ← call (sql_SelectOrder orderID);
  match row : option model.Order with
  | None => Ret (fail ErrOrderNotFound)
  | Some order => Ret (ok order)
  end.

(** [func (r *OrderRepository) UpdateOrder(ctx, order) error].  The function
    assigns [order.UpdatedAt] through the pointer it is given, so the order
    as the caller sees it afterwards is returned with the error. *)
Definition UpdateOrder (order : model.Order) : Prog (model.Order * option error) :=
  if String.eqb (model.ID order) "" then Ret (order, Some ErrInvalidData)
  else
    now ← call time_Now;
    let order := model.set_UpdatedAt now order in
    rowsAffected ← call (sql_UpdateOrder order);
    if (rowsAffected : Z) =? 0 then Ret (order, Some ErrOrderNotFound)
    else Ret (order, None).

(** [func (r *OrderRepository) UpdateOrderStatus(ctx, orderID, status,
    updatedBy, notes) error]: one transaction, from [BeginTx] to [Commit],
    that reads the row [FOR UPDATE], appends the entry and writes back. *)
Definition UpdateOrderStatus (orderID : string) (status : model.OrderStatus)
    (updatedBy notes : string) : Prog (option error) :=
  Atomic
    (row ← call (sql_SelectForUpdate orderID);
     match row : option (model.StatusHistories * model.OrderStatus) with
     | None => Ret (Some ErrOrderNotFound)
     | Some (statusHistory, currentStatus) =>
         now ← call time_Now;
         let newEntry :=
           {| model.sh_Status := status; model.sh_UpdatedBy := updatedBy;
              model.sh_Notes := notes; model.sh_Timestamp := now |} in
         let statusHistory := statusHistory ++ [newEntry] in
         now' ← call time_Now;
         _ ← call (sql_UpdateStatus orderID status statusHistory now');
         Ret None
     end)
    Ret.

(** The body shared, word for word, by [ListUserOrders] and
    [ListProviderOrders]: count, normalise [page] and [limit], fetch the
    page.  [page] comes from an [int32] and [limit] is at most 100 here, so
    [(page - 1) * limit] stays far inside Go's 64-bit [int]. *)
Definition listOrders (col : OwnerColumn) (key : string) (page limit : Z)
    (status : model.OrderStatus) : Prog (list model.Order * Z) :=
  total ← call (sql_CountOrders col key status);
  let page := if page <? 1 then 1 else page in
  let limit := if (limit <? 1) || (limit >? 100) then 10 else limit in
  let offset := (page - 1) * limit in
  orders ← call (sql_PageOrders col key status limit offset);
  Ret (orders : list model.Order, total : Z).

(** [func (r *OrderRepository) ListUserOrders(ctx, userID, page, limit, status)] *)
Definition ListUserOrders (userID : string) (page limit : Z)
    (status : model.OrderStatus) : Prog (list model.Order * Z) :=
  listOrders by_user_id userID page limit status.

(** [func (r *OrderRepository) ListProviderOrders(ctx, providerID, page, limit, status)] *)
Definition ListProviderOrders (providerID : string) (page limit : Z)
    (status : model.OrderStatus) : Prog (list model.Order * Z) :=
  listOrders by_provider_id providerID page limit status.

(** [func (r *OrderLocationRepository) CreateOrderLocation(ctx, orderLocation) error] *)
Definition CreateOrderLocation (orderLocation : model.OrderLocation)
  : Prog (option error) :=
  id ← (if String.eqb (model.ol_ID orderLocation) "" then call uuid_New
        else Ret (model.ol_ID orderLocation));
  now ← call time_Now;
  inserted ← call (sql_InsertLocation
    {| model.ol_ID := id;
       model.ol_OrderID := model.ol_OrderID orderLocation;
       model.ol_ProviderID := model.ol_ProviderID orderLocation;
       model.ol_Latitude := model.ol_Latitude orderLocation;
       model.ol_Longitude := model.ol_Longitude orderLocation;
       model.ol_Timestamp := now |});
  if inserted : bool then Ret None
  else Ret (Some (Errorf "failed to create order location")).


(** *** The [order_locations] table: reads and the delete

    These statements are functions of the store: a read returns its rows and
    leaves the store as it is. *)

(** [ORDER BY timestamp DESC]: a row comes first when it was reported later. *)
Definition reported_later (a b : model.OrderLocation) : bool :=
  model.ol_Timestamp b <? model.ol_Timestamp a.

(** [SELECT ... FROM order_locations WHERE order_id = $1 ORDER BY timestamp DESC] *)
Definition select_locations (env : Env) (orderID : string) (w : World)
  : list model.OrderLocation :=
  env_order_by env _ reported_later
    (filter (fun l => String.eqb (model.ol_OrderID l) orderID = true)
       (order_locations w)).

(** [func (r *OrderLocationRepository) GetLatestOrderLocation(ctx, orderID)]:
    the query above with [LIMIT 1]; [None] is [ErrOrderLocationNotFound]. *)
Definition GetLatestOrderLocation (env : Env) (orderID : string) (w : World)
  : option model.OrderLocation :=
  head (select_locations env orderID w).

(** [func (r *OrderRepository) GetLatestOrderLocation(ctx, orderID)]: the same
    query; no row is reported as [ErrOrderNotFound]. *)
Definition OrderRepository_GetLatestOrderLocation (env : Env) (orderID : string)
    (w : World) : result model.OrderLocation :=
  match head (select_locations env orderID w) with
  | None => fail ErrOrderNotFound
  | Some location => ok location
  end.

(** [func (r *OrderRepository) GetOrderLocationsHistory(ctx, orderID, limit)]:
    the query with [LIMIT $2], after the limit is normalised. *)
Definition GetOrderLocationsHistory (env : Env) (orderID : string) (limit : Z)
    (w : World) : list model.OrderLocation :=
  let limit := if (limit <=? 0) || (limit >? 100) then 20 else limit in
  take (Z.to_nat limit) (select_locations env orderID w).

(** [func (r *OrderLocationRepository) DeleteOrderLocations(ctx, orderID) error]:
    [DELETE FROM order_locations WHERE order_id = $1]. *)
Definition DeleteOrderLocations (orderID : string) (w : World) : World :=
  set_order_locations
    (filter (fun l => String.eqb (model.ol_OrderID l) orderID = false)
       (order_locations w)) w.

End repository.

(* ===================================================================== *)
(** ** package service: conversions and numeric helpers *)
(* ===================================================================== *)

Module service.

(** gRPC status codes returned by the handlers. *)
Inductive Code :=
| InvalidArgument
| NotFound
| PermissionDenied
| FailedPrecondition
| Internal.

Inductive Reply (A : Type) : Type :=
| OK (a : A)
| Error (c : Code) (msg : string).
Arguments OK {A} a.
Arguments Error {A} c msg.

(** [pb.OrderResponse]; [resp_Order] is the order handed to
    [convertOrderToProto]. *)
Record OrderResponse := {
  resp_Order : model.Order;
  resp_Message : string;
  resp_Success : bool;
}.

Record ListOrdersResponse := {
  lr_Orders : list model.Order;
  lr_Total : Z;
  lr_Page : Z;
  lr_Limit : Z;
}.

Record UpdateLocationResponse := {
  ur_Success : bool;
  ur_Message : string;
  ur_EstimatedArrivalMinutes : spec_float;
}.

(** The conversion [int32(n)] of a Go [int]. *)
Definition int32 (n : Z) : Z := (n + 2 ^ 31) mod 2 ^ 32 - 2 ^ 31.

Definition convertOrderType (ot : pb.OrderType) : model.OrderType :=
  if ot =? pb.OrderType_ORDER_TYPE_RIDE then model.TypeRide
  else if ot =? pb.OrderType_ORDER_TYPE_FOOD_DELIVERY then model.TypeFoodDelivery
  else if ot =? pb.OrderType_ORDER_TYPE_PACKAGE_DELIVERY then model.TypePackageDelivery
  else if ot =? pb.OrderType_ORDER_TYPE_GROCERY_DELIVERY then model.TypeGroceryDelivery
  else if ot =? pb.OrderType_ORDER_TYPE_SERVICE_BOOKING then model.TypeServiceBooking
  else model.TypeRide.

Definition convertOrderStatusFromProto (os : pb.OrderStatus) : model.OrderStatus :=
  if os =? pb.OrderStatus_ORDER_STATUS_CREATED then model.StatusCreated
  else if os =? pb.OrderStatus_ORDER_STATUS_PAYMENT_PENDING then model.StatusPaymentPending
  else if os =? pb.OrderStatus_ORDER_STATUS_PAYMENT_COMPLETED then model.StatusPaymentComplete
  else if os =? pb.OrderStatus_ORDER_STATUS_PROVIDER_ASSIGNED then model.StatusProviderAssigned
  else if os =? pb.OrderStatus_ORDER_STATUS_PROVIDER_ACCEPTED then model.StatusProviderAccepted
  else if os =? pb.OrderStatus_ORDER_STATUS_PROVIDER_REJECTED then model.StatusProviderRejected
  else if os =? pb.OrderStatus_ORDER_STATUS_IN_PROGRESS then model.StatusInProgress
  else if os =? pb.OrderStatus_ORDER_STATUS_PICKED_UP then model.StatusPickedUp
  else if os =? pb.OrderStatus_ORDER_STATUS_IN_TRANSIT then model.StatusInTransit
  else if os =? pb.OrderStatus_ORDER_STATUS_ARRIVED then model.StatusArrived
  else if os =? pb.OrderStatus_ORDER_STATUS_DELIVERED then model.StatusDelivered
  else if os =? pb.OrderStatus_ORDER_STATUS_COMPLETED then model.StatusCompleted
  else if os =? pb.OrderStatus_ORDER_STATUS_CANCELLED then model.StatusCancelled
  else if os =? pb.OrderStatus_ORDER_STATUS_REFUNDED then model.StatusRefunded
  else if os =? pb.OrderStatus_ORDER_STATUS_DISPUTED then model.StatusDisputed
  else model.StatusCreated.

Definition convertPaymentMethod (pm : pb.PaymentMethod) : model.PaymentMethod :=
  if pm =? pb.PaymentMethod_PAYMENT_METHOD_CREDIT_CARD then model.PaymentCreditCard
  else if pm =? pb.PaymentMethod_PAYMENT_METHOD_DEBIT_CARD then model.PaymentDebitCard
  else if pm =? pb.PaymentMethod_PAYMENT_METHOD_DIGITAL_WALLET then model.PaymentDigitalWallet
  else if pm =? pb.PaymentMethod_PAYMENT_METHOD_CASH then model.PaymentCash
  else if pm =? pb.PaymentMethod_PAYMENT_METHOD_CRYPTO then model.PaymentCrypto
  else model.PaymentCreditCard.

(** The zero value [model.Location{}]. *)
Definition zero_Location : model.Location :=
  {| model.Latitude := 0%float; model.Longitude := 0%float; model.Address := "";
     model.PostalCode := ""; model.City := ""; model.Country := "";
     model.AdditionalInfo := ∅ |}.

Definition convertLocation (loc : option pb.Location) : model.Location :=
  match loc with
  | None => zero_Location
  | Some loc =>
      {| model.Latitude := pb.Latitude loc;
         model.Longitude := pb.Longitude loc;
         model.Address := pb.Address loc;
         model.PostalCode := pb.PostalCode loc;
         model.City := pb.City loc;
         model.Country := pb.Country loc;
         model.AdditionalInfo := pb.AdditionalInfo loc |}
  end.

Definition convertOrderItems (items : list pb.OrderItem) : model.OrderItems :=
  fold_left
    (fun orderItems item =>
       orderItems ++
         [ {| model.ItemID := pb.ItemId item;
              model.Name := pb.Name item;
              model.Quantity := pb.Quantity item;
              model.Price := pb.Price item;
              model.Properties := pb.Properties item |} ])
    items [].

(** [for _, item := range items { total += item.Price * float64(item.Quantity) }] *)
Definition calculateTotalPrice (items : model.OrderItems) : float :=
  fold_left
    (fun total item =>
       (total + model.Price item * float64_of_int (model.Quantity item))%float)
    items 0%float.

(** [func estimateArrivalMinutes(location, destination) float32] *)
Definition estimateArrivalMinutes (location : model.OrderLocation)
    (destination : model.Location) : spec_float :=
  let dLat := (model.Latitude destination - model.ol_Latitude location)%float in
  let dLon := (model.Longitude destination - model.ol_Longitude location)%float in
  let distance := ((dLat * dLat + dLon * dLon) * 111)%float in
  let averageSpeed := 30%float in
  let estimatedMinutes := ((distance / averageSpeed) * 60)%float in
  float32 estimatedMinutes.

Definition orderTypeToServiceType (orderType : model.OrderType) : string :=
  if String.eqb orderType model.TypeRide then "ride"
  else if String.eqb orderType model.TypeFoodDelivery then "food_delivery"
  else if String.eqb orderType model.TypePackageDelivery then "package_delivery"
  else if String.eqb orderType model.TypeGroceryDelivery then "grocery_delivery"
  else if String.eqb orderType model.TypeServiceBooking then "service_booking"
  else "general".

(** The score computed for each of the two providers compared inside
    [sortProvidersByScore]. *)
Definition weightedScore (p : Provider) : float :=
  let distanceScore := (1 - math_Min (pv_Distance p / 10) 1)%float in
  let ratingScore := (pv_Rating p / 5)%float in
  (0.7 * distanceScore + 0.3 * ratingScore)%float.

(** The [less] function given to [sort.Slice]: [scoreI > scoreJ]. *)
Definition higherScore (pi pj : Provider) : bool :=
  PrimFloat.ltb (weightedScore pj) (weightedScore pi).

(* ------------------------------------------------------------------- *)
(** *** The provider matcher *)
(* ------------------------------------------------------------------- *)

Section Handlers.
(** The handlers use Go's [sort.Slice], known by its contract. *)
Variable sort_Slice : Sorter.

(** [func sortProvidersByScore(providers []Provider)] *)
Definition sortProvidersByScore (providers : list Provider) : list Provider :=
  sort_Slice _ higherScore providers.

(** The last two steps of [FindBestProviders]: sort by score, then keep the
    first [maxProviders].  The slice expression [providers[:maxProviders]]
    panics for a negative bound. *)
Definition rankAndLimit (providers : list Provider) (maxProviders : Z)
  : Prog (result (list Provider)) :=
  let providers := sortProvidersByScore providers in
  if Z.of_nat (length providers) >? maxProviders then
    if maxProviders <? 0 then Panic
    else Ret (ok (take (Z.to_nat maxProviders) providers))
  else Ret (ok providers).

(** [func (m *ProviderMatcher) FindBestProviders(ctx, order, maxProviders)] *)
Definition FindBestProviders (order : model.Order) (maxProviders : Z)
  : Prog (result (list Provider)) :=
  let serviceType := orderTypeToServiceType (model.OrderType_ order) in
  let radius := 5%float in
  let location := model.PickupLocation order in
  found ← call (dir_FindAvailableProviders
                  {| q_location := location; q_radius := radius;
                     q_serviceType := serviceType |});
  match found : option (list Provider) with
  | None => Ret (fail (Errorf "failed to find providers"))
  | Some providers =>
      if Z.of_nat (length providers) <? maxProviders then
        let radius := 10%float in
        found ← call (dir_FindAvailableProviders
                        {| q_location := location; q_radius := radius;
                           q_serviceType := serviceType |});
        match found : option (list Provider) with
        | None =>
            Ret (fail (Errorf "failed to find providers with increased radius"))
        | Some providers => rankAndLimit providers maxProviders
        end
      else rankAndLimit providers maxProviders
  end.

(** [func (m *ProviderMatcher) NotifyProviders(ctx, order, providers) error]:
    a failed notification is printed and the loop goes on; the result is
    always [nil]. *)
Fixpoint NotifyProviders (order : model.Order) (providers : list Provider)
  : Prog (option error) :=
  match providers with
  | [] => Ret None
  | provider :: rest =>
      _ ← call (dir_NotifyProvider (pv_ID provider) (model.ID order));
      NotifyProviders order rest
  end.

(** [func (m *ProviderMatcher) AssignProvider(ctx, order, providerID)] *)
Definition matcher_AssignProvider (order : model.Order) (providerID : string)
  : Prog (result model.Order) :=
  let order := model.set_ProviderID providerID order in
  t1 ← call time_Now;
  t2 ← call time_Now;
  let order :=
    model.AddStatusHistory model.StatusProviderAssigned "system"
      (String.append "Provider " (String.append providerID " assigned"))
      t1 t2 order in
  t3 ← call time_Now;
  let order := model.set_UpdatedAt t3 order in
  Ret (ok order).

(* ------------------------------------------------------------------- *)
(** *** The order service *)
(* ------------------------------------------------------------------- *)

(** The goroutine every state-changing handler starts: record the order on
    the ledger and, if that succeeds, write the order back with the
    transaction hash. *)
Definition recordOnLedger (order : model.Order) : Prog unit :=
  recorded ← call (ledger_RecordOrder (model.ID order) (model.UserID order)
                     (model.ProviderID order) order);
  match recorded : option string with
  | None => Ret tt
  | Some txHash =>
      let order := model.set_BlockchainTxHash txHash order in
      _ ← repository.UpdateOrder order;
      Ret tt
  end.

(** The order [CreateOrder] builds from a request, the fresh identifier and
    the clock reading [now]: the struct literal, then the total price, the
    fees and the initial status history. *)
Definition newOrder (req : pb.CreateOrderRequest) (orderID : string)
    (now : model.Time) : model.Order :=
  let order :=
    {| model.ID := orderID;
       model.UserID := pb.cr_UserId req;
       model.ProviderID := "";
       model.OrderType_ := convertOrderType (pb.cr_OrderType req);
       model.Status := model.StatusCreated;
       model.PickupLocation := convertLocation (pb.cr_PickupLocation req);
       model.DestinationLocation := convertLocation (pb.cr_DestinationLocation req);
       model.Items := convertOrderItems (pb.cr_Items req);
       model.TotalPrice := 0%float;
       model.PlatformFee := 0%float;
       model.ProviderFee := 0%float;
       model.TransactionID := "";
       model.BlockchainTxHash := "";
       model.PaymentMethod_ := convertPaymentMethod (pb.cr_PaymentMethod req);
       model.Notes := pb.cr_Notes req;
       model.CreatedAt := now;
       model.UpdatedAt := now;
       model.StatusHistory_ := [] |} in
  let order :=
    model.set_TotalPrice (calculateTotalPrice (model.Items order)) order in
  let order := model.CalculateFees order in
  model.set_StatusHistory
    [ {| model.sh_Status := model.StatusCreated;
         model.sh_UpdatedBy := "system";
         model.sh_Notes := "Order created";
         model.sh_Timestamp := now |} ] order.

(** [func (s *OrderService) CreateOrder(ctx, req)] *)
Definition CreateOrder (req : pb.CreateOrderRequest) : Prog (Reply OrderResponse) :=
  if String.eqb (pb.cr_UserId req) "" then
    Ret (Error InvalidArgument "user ID is required")
  else
    match pb.cr_PickupLocation req, pb.cr_DestinationLocation req with
    | Some _, Some _ =>
        orderID ← call uuid_New;
        now ← call time_Now;
        let order := newOrder req orderID now in
        err ← repository.CreateOrder order;
        match err : option error with
        | Some _ => Ret (Error Internal "failed to create order")
        | None =>
            Go (recordOnLedger order)
              (Ret (OK {| resp_Order := order;
                          resp_Message := "Order created successfully";
                          resp_Success := true |}))
        end
    | _, _ =>
        Ret (Error InvalidArgument "pickup and destination locations are required")
    end.

(** The lookup every handler starts with, and how its error is mapped. *)
Definition getOrder (orderID : string) (k : model.Order -> Prog (Reply OrderResponse))
  : Prog (Reply OrderResponse) :=
  got ← repository.GetOrderByID orderID;
  match got : result model.Order with
  | fail ErrOrderNotFound => Ret (Error NotFound "order not found")
  | fail _ => Ret (Error Internal "failed to get order")
  | ok order => k order
  end.


(** [func (s *OrderService) UpdateOrderStatus(ctx, req)] *)
Definition UpdateOrderStatus (req : pb.UpdateOrderStatusRequest)
  : Prog (Reply OrderResponse) :=
  if String.eqb (pb.us_OrderId req) "" then
    Ret (Error InvalidArgument "order ID is required")
  else
    getOrder (pb.us_OrderId req) (fun order =>
      let newStatus := convertOrderStatusFromProto (pb.us_Status req) in
      err ← repository.UpdateOrderStatus (pb.us_OrderId req) newStatus
              (pb.us_UpdatedBy req) (pb.us_Notes req);
      match err : option error with
      | Some _ => Ret (Error Internal "failed to update order status")
      | None =>
          got ← repository.GetOrderByID (pb.us_OrderId req);
          match got : result model.Order with
          | fail _ => Ret (Error Internal "failed to get updated order")
          | ok updatedOrder =>
              Go (recordOnLedger updatedOrder)
                (Ret (OK {| resp_Order := updatedOrder;
                            resp_Message := "Order status updated successfully";
                            resp_Success := true |}))
          end
      end).

(** [func (s *OrderService) CancelOrder(ctx, req)] *)
Definition CancelOrder (req : pb.CancelOrderRequest) : Prog (Reply OrderResponse) :=
  if String.eqb (pb.co_OrderId req) "" then
    Ret (Error InvalidArgument "order ID is required")
  else
    getOrder (pb.co_OrderId req) (fun order =>
      if String.eqb (model.Status order) model.StatusCompleted
         || String.eqb (model.Status order) model.StatusCancelled
         || String.eqb (model.Status order) model.StatusRefunded
      then Ret (Error FailedPrecondition
                  "order cannot be cancelled in its current state")
      else
        err ← repository.UpdateOrderStatus (pb.co_OrderId req)
                model.StatusCancelled (pb.co_CancelledBy req) (pb.co_Reason req);
        match err : option error with
        | Some _ => Ret (Error Internal "failed to cancel order")
        | None =>
            got ← repository.GetOrderByID (pb.co_OrderId req);
            match got : result model.Order with
            | fail _ => Ret (Error Internal "failed to get updated order")
            | ok updatedOrder =>
                Go (recordOnLedger updatedOrder)
                  (Ret (OK {| resp_Order := updatedOrder;
                              resp_Message := "Order cancelled successfully";
                              resp_Success := true |}))
            end
        end).

(** [func (s *OrderService) AssignProvider(ctx, req)] *)
Definition AssignProvider (req : pb.AssignProviderRequest)
  : Prog (Reply OrderResponse) :=
  if String.eqb (pb.ap_OrderId req) "" then
    Ret (Error InvalidArgument "order ID is required")
  else
    getOrder (pb.ap_OrderId req) (fun order =>
      let assign (selectedProviderID : string) : Prog (Reply OrderResponse) :=
        assigned ← matcher_AssignProvider order selectedProviderID;
        match assigned : result model.Order with
        | fail _ => Ret (Error Internal "failed to assign provider")
        | ok updatedOrder =>
            '(updatedOrder, err) ← repository.UpdateOrder updatedOrder;
            match err : option error with
            | Some _ => Ret (Error Internal "failed to update order")
            | None =>
                Go (recordOnLedger updatedOrder)
                  (Ret (OK {| resp_Order := updatedOrder;
                              resp_Message := "Provider assigned successfully";
                              resp_Success := true |}))
            end
        end in
      if negb (String.eqb (pb.ap_ProviderId req) "") then
        assign (pb.ap_ProviderId req)
      else
        found ← FindBestProviders order 3;
        match found : result (list Provider) with
        | fail _ => Ret (Error Internal "failed to find providers")
        | ok [] => Ret (Error NotFound "no available providers found")
        | ok (first :: rest) =>
            _ ← NotifyProviders order (first :: rest);
            assign (pv_ID first)
        end).

(** [func (s *OrderService) AcceptOrder(ctx, req)] *)
Definition AcceptOrder (req : pb.AcceptOrderRequest) : Prog (Reply OrderResponse) :=
  if String.eqb (pb.ao_OrderId req) "" || String.eqb (pb.ao_ProviderId req) "" then
    Ret (Error InvalidArgument "order ID and provider ID are required")
  else
    getOrder (pb.ao_OrderId req) (fun order =>
      if negb (String.eqb (model.ProviderID order) (pb.ao_ProviderId req)) then
        Ret (Error PermissionDenied "provider is not assigned to this order")
      else
        t1 ← call time_Now;
        t2 ← call time_Now;
        let order :=
          model.AddStatusHistory model.StatusProviderAccepted (pb.ao_ProviderId req)
            "Provider accepted the order" t1 t2 order in
        t3 ← call time_Now;
        let order := model.set_UpdatedAt t3 order in
        '(order, err) ← repository.UpdateOrder order;
        match err : option error with
        | Some _ => Ret (Error Internal "failed to update order")
        | None =>
            _ ← match pb.ao_CurrentLocation req with
                | None => Ret None
                | Some currentLocation =>
                    t ← call time_Now;
                    repository.CreateOrderLocation
                      {| model.ol_ID := "";
                         model.ol_OrderID := model.ID order;
                         model.ol_ProviderID := pb.ao_ProviderId req;
                         model.ol_Latitude := pb.Latitude currentLocation;
                         model.ol_Longitude := pb.Longitude currentLocation;
                         model.ol_Timestamp := t |}
                end;
            Go (recordOnLedger order)
              (Ret (OK {| resp_Order := order;
                          resp_Message := "Order accepted successfully";
                          resp_Success := true |}))
        end).

(** The second goroutine of [RejectOrder]: look for another provider and,
    if one is found, assign the first candidate. *)
Definition rematch (order : model.Order) : Prog unit :=
  found ← FindBestProviders order 3;
  match found : result (list Provider) with
  | fail _ => Ret tt
  | ok [] => Ret tt
  | ok (first :: rest) =>
      _ ← NotifyProviders order (first :: rest);
      assigned ← matcher_AssignProvider order (pv_ID first);
      match assigned : result model.Order with
      | fail _ => Ret tt
      | ok updatedOrder => _ ← repository.UpdateOrder updatedOrder; Ret tt
      end
  end.

(** [func (s *OrderService) RejectOrder(ctx, req)] *)
Definition RejectOrder (req : pb.RejectOrderRequest) : Prog (Reply OrderResponse) :=
  if String.eqb (pb.ro_OrderId req) "" || String.eqb (pb.ro_ProviderId req) "" then
    Ret (Error InvalidArgument "order ID and provider ID are required")
  else
    getOrder (pb.ro_OrderId req) (fun order =>
      if negb (String.eqb (model.ProviderID order) (pb.ro_ProviderId req)) then
        Ret (Error PermissionDenied "provider is not assigned to this order")
      else
        t1 ← call time_Now;
        t2 ← call time_Now;
        let order :=
          model.AddStatusHistory model.StatusProviderRejected (pb.ro_ProviderId req)
            (pb.ro_Reason req) t1 t2 order in
        let order := model.set_ProviderID "" order in
        t3 ← call time_Now;
        let order := model.set_UpdatedAt t3 order in
        '(order, err) ← repository.UpdateOrder order;
        match err : option error with
        | Some _ => Ret (Error Internal "failed to update order")
        | None =>
            Go (recordOnLedger order)
              (Go (rematch order)
                 (Ret (OK {| resp_Order := order;
                             resp_Message := "Order rejected successfully";
                             resp_Success := true |})))
        end).

(** [func (s *OrderService) UpdateLocation(ctx, req)] *)
Definition UpdateLocation (req : pb.UpdateLocationRequest)
  : Prog (Reply UpdateLocationResponse) :=
  match pb.ul_Location req with
  | Some location =>
      if String.eqb (pb.ul_OrderId req) "" || String.eqb (pb.ul_ProviderId req) ""
      then Ret (Error InvalidArgument
                  "order ID, provider ID, and location are required")
      else
        got ← repository.GetOrderByID (pb.ul_OrderId req);
        match got : result model.Order with
        | fail ErrOrderNotFound => Ret (Error NotFound "order not found")
        | fail _ => Ret (Error Internal "failed to get order")
        | ok order =>
            if negb (String.eqb (model.ProviderID order) (pb.ul_ProviderId req))
            then Ret (Error PermissionDenied
                        "provider is not assigned to this order")
            else
              t ← call time_Now;
              let orderLocation :=
                {| model.ol_ID := "";
                   model.ol_OrderID := pb.ul_OrderId req;
                   model.ol_ProviderID := pb.ul_ProviderId req;
                   model.ol_Latitude := pb.Latitude location;
                   model.ol_Longitude := pb.Longitude location;
                   model.ol_Timestamp := t |} in
              err ← repository.CreateOrderLocation orderLocation;
              match err : option error with
              | Some _ => Ret (Error Internal "failed to update location")
              | None =>
                  let estimatedArrivalMinutes :=
                    if String.eqb (model.Status order) model.StatusInTransit
                       || String.eqb (model.Status order) model.StatusPickedUp
                    then estimateArrivalMinutes orderLocation
                           (model.DestinationLocation order)
                    else estimateArrivalMinutes orderLocation
                           (model.PickupLocation order) in
                  Ret (OK {| ur_Success := true;
                             ur_Message := "Location updated successfully";
                             ur_EstimatedArrivalMinutes :=
                               estimatedArrivalMinutes |})
              end
        end
  | None =>
      Ret (Error InvalidArgument "order ID, provider ID, and location are required")
  end.

(** [func (s *OrderService) ListUserOrders(ctx, req)] *)
Definition ListUserOrders (req : pb.ListUserOrdersRequest)
  : Prog (Reply ListOrdersResponse) :=
  if String.eqb (pb.lu_UserId req) "" then
    Ret (Error InvalidArgument "user ID is required")
  else
    let status :=
      if negb (pb.lu_Status req =? pb.OrderStatus_ORDER_STATUS_UNSPECIFIED)
      then convertOrderStatusFromProto (pb.lu_Status req) else "" in
    '(orders, total) ← repository.ListUserOrders (pb.lu_UserId req)
                          (pb.lu_Page req) (pb.lu_Limit req) status;
    Ret (OK {| lr_Orders := orders; lr_Total := int32 total;
               lr_Page := pb.lu_Page req; lr_Limit := pb.lu_Limit req |}).

(** [func (s *OrderService) ListProviderOrders(ctx, req)] *)
Definition ListProviderOrders (req : pb.ListProviderOrdersRequest)
  : Prog (Reply ListOrdersResponse) :=
  if String.eqb (pb.lp_ProviderId req) "" then
    Ret (Error InvalidArgument "provider ID is required")
  else
    let status :=
      if negb (pb.lp_Status req =? pb.OrderStatus_ORDER_STATUS_UNSPECIFIED)
      then convertOrderStatusFromProto (pb.lp_Status req) else "" in
    '(orders, total) ← repository.ListProviderOrders (pb.lp_ProviderId req)
                          (pb.lp_Page req) (pb.lp_Limit req) status;
    Ret (OK {| lr_Orders := orders; lr_Total := int32 total;
               lr_Page := pb.lp_Page req; lr_Limit := pb.lp_Limit req |}).

(** The state-changing calls of the service, and their dispatch. *)
Inductive Request :=
| ReqCreate (req : pb.CreateOrderRequest)
| ReqUpdateStatus (req : pb.UpdateOrderStatusRequest)
| ReqCancel (req : pb.CancelOrderRequest)
| ReqAssignProvider (req : pb.AssignProviderRequest)
| ReqAccept (req : pb.AcceptOrderRequest)
| ReqReject (req : pb.RejectOrderRequest).

Definition handle (rq : Request) : Prog (Reply OrderResponse) :=
  match rq with
  | ReqCreate req => CreateOrder req
  | ReqUpdateStatus req => UpdateOrderStatus req
  | ReqCancel req => CancelOrder req
  | ReqAssignProvider req => AssignProvider req
  | ReqAccept req => AcceptOrder req
  | ReqReject req => RejectOrder req
  end.

End Handlers.

(* ------------------------------------------------------------------- *)
(** *** Conversions to the protocol buffer messages *)
(* ------------------------------------------------------------------- *)

Definition convertOrderTypeToProto (ot : model.OrderType) : pb.OrderType :=
  if String.eqb ot model.TypeRide then pb.OrderType_ORDER_TYPE_RIDE
  else if String.eqb ot model.TypeFoodDelivery then pb.OrderType_ORDER_TYPE_FOOD_DELIVERY
  else if String.eqb ot model.TypePackageDelivery then pb.OrderType_ORDER_TYPE_PACKAGE_DELIVERY
  else if String.eqb ot model.TypeGroceryDelivery then pb.OrderType_ORDER_TYPE_GROCERY_DELIVERY
  else if String.eqb ot model.TypeServiceBooking then pb.OrderType_ORDER_TYPE_SERVICE_BOOKING
  else pb.OrderType_ORDER_TYPE_UNSPECIFIED.

Definition convertOrderStatusToProto (os : model.OrderStatus) : pb.OrderStatus :=
  if String.eqb os model.StatusCreated then pb.OrderStatus_ORDER_STATUS_CREATED
  else if String.eqb os model.StatusPaymentPending then pb.OrderStatus_ORDER_STATUS_PAYMENT_PENDING
  else if String.eqb os model.StatusPaymentComplete then pb.OrderStatus_ORDER_STATUS_PAYMENT_COMPLETED
  else if String.eqb os model.StatusProviderAssigned then pb.OrderStatus_ORDER_STATUS_PROVIDER_ASSIGNED
  else if String.eqb os model.StatusProviderAccepted then pb.OrderStatus_ORDER_STATUS_PROVIDER_ACCEPTED
  else if String.eqb os model.StatusProviderRejected then pb.OrderStatus_ORDER_STATUS_PROVIDER_REJECTED
  else if String.eqb os model.StatusInProgress then pb.OrderStatus_ORDER_STATUS_IN_PROGRESS
  else if String.eqb os model.StatusPickedUp then pb.OrderStatus_ORDER_STATUS_PICKED_UP
  else if String.eqb os model.StatusInTransit then pb.OrderStatus_ORDER_STATUS_IN_TRANSIT
  else if String.eqb os model.StatusArrived then pb.OrderStatus_ORDER_STATUS_ARRIVED
  else if String.eqb os model.StatusDelivered then pb.OrderStatus_ORDER_STATUS_DELIVERED
  else if String.eqb os model.StatusCompleted then pb.OrderStatus_ORDER_STATUS_COMPLETED
  else if String.eqb os model.StatusCancelled then pb.OrderStatus_ORDER_STATUS_CANCELLED
  else if String.eqb os model.StatusRefunded then pb.OrderStatus_ORDER_STATUS_REFUNDED
  else if String.eqb os model.StatusDisputed then pb.OrderStatus_ORDER_STATUS_DISPUTED
  else pb.OrderStatus_ORDER_STATUS_UNSPECIFIED.

Definition convertPaymentMethodToProto (pm : model.PaymentMethod) : pb.PaymentMethod :=
  if String.eqb pm model.PaymentCreditCard then pb.PaymentMethod_PAYMENT_METHOD_CREDIT_CARD
  else if String.eqb pm model.PaymentDebitCard then pb.PaymentMethod_PAYMENT_METHOD_DEBIT_CARD
  else if String.eqb pm model.PaymentDigitalWallet then pb.PaymentMethod_PAYMENT_METHOD_DIGITAL_WALLET
  else if String.eqb pm model.PaymentCash then pb.PaymentMethod_PAYMENT_METHOD_CASH
  else if String.eqb pm model.PaymentCrypto then pb.PaymentMethod_PAYMENT_METHOD_CRYPTO
  else pb.PaymentMethod_PAYMENT_METHOD_UNSPECIFIED.

Definition convertLocationToProto (loc : model.Location) : pb.Location :=
  {| pb.Latitude := model.Latitude loc;
     pb.Longitude := model.Longitude loc;
     pb.Address := model.Address loc;
     pb.PostalCode := model.PostalCode loc;
     pb.City := model.City loc;
     pb.Country := model.Country loc;
     pb.AdditionalInfo := model.AdditionalInfo loc |}.

(** Go's [float64(x)] of a binary32 value: the binary64 value equal to it,
    which is how the [price] of a [pb.OrderItem] is kept. *)
Definition float64_of_float32 (x : spec_float) : float := SF2Prim x.

Definition convertOrderItemsToProto (items : model.OrderItems) : list pb.OrderItem :=
  fold_left
    (fun protoItems item =>
       protoItems ++
         [ {| pb.ItemId := model.ItemID item;
              pb.Name := model.Name item;
              pb.Quantity := int32 (model.Quantity item);
              pb.Price := float64_of_float32 (float32 (model.Price item));
              pb.Properties := model.Properties item |} ])
    items [].

(** [timestamppb.New(t)] keeps the instant [t]. *)
Definition convertStatusHistoryToProto (history : model.StatusHistories)
  : list pb.OrderStatusHistory :=
  fold_left
    (fun protoHistory h =>
       protoHistory ++
         [ {| pb.osh_Status := convertOrderStatusToProto (model.sh_Status h);
              pb.osh_UpdatedBy := model.sh_UpdatedBy h;
              pb.osh_Notes := model.sh_Notes h;
              pb.osh_Timestamp := model.sh_Timestamp h |} ])
    history [].

Definition convertOrderToProto (order : model.Order) : pb.Order :=
  {| pb.ord_Id := model.ID order;
     pb.ord_UserId := model.UserID order;
     pb.ord_ProviderId := model.ProviderID order;
     pb.ord_OrderType := convertOrderTypeToProto (model.OrderType_ order);
     pb.ord_Status := convertOrderStatusToProto (model.Status order);
     pb.ord_PickupLocation := convertLocationToProto (model.PickupLocation order);
     pb.ord_DestinationLocation :=
       convertLocationToProto (model.DestinationLocation order);
     pb.ord_Items := convertOrderItemsToProto (model.Items order);
     pb.ord_TotalPrice := float32 (model.TotalPrice order);
     pb.ord_PlatformFee := float32 (model.PlatformFee order);
     pb.ord_ProviderFee := float32 (model.ProviderFee order);
     pb.ord_TransactionId := model.TransactionID order;
     pb.ord_BlockchainTxHash := model.BlockchainTxHash order;
     pb.ord_PaymentMethod := convertPaymentMethodToProto (model.PaymentMethod_ order);
     pb.ord_Notes := model.Notes order;
     pb.ord_CreatedAt := model.CreatedAt order;
     pb.ord_UpdatedAt := model.UpdatedAt order;
     pb.ord_StatusHistory := convertStatusHistoryToProto (model.StatusHistory_ order) |}.

(* ------------------------------------------------------------------- *)
(** *** The location stream *)
(* ------------------------------------------------------------------- *)

(** What the [select] of [TrackOrder] receives: a tick of the five-second
    ticker, or the end of the stream's context.  The store is read twice in
    a tick, for the latest location and for the order, and other requests
    are served in between: a tick carries the store as it is at each of the
    two reads, and whether [stream.Send] succeeds should an update be sent. *)
Inductive StreamEvent :=
| tick (at_location_read at_order_read : World) (send_ok : bool)
| ctx_Done.

(** The message built for a location and the order as just read. *)
Definition locationUpdate (orderId : string) (location : model.OrderLocation)
    (currentOrder : model.Order) : pb.OrderLocationUpdate :=
  let estimatedArrivalMinutes :=
    if String.eqb (model.Status currentOrder) model.StatusInTransit
       || String.eqb (model.Status currentOrder) model.StatusPickedUp
    then estimateArrivalMinutes location (model.DestinationLocation currentOrder)
    else estimateArrivalMinutes location (model.PickupLocation currentOrder) in
  {| pb.olu_OrderId := orderId;
     pb.olu_ProviderId := model.ol_ProviderID location;
     pb.olu_CurrentLocation :=
       {| pb.Latitude := model.ol_Latitude location;
          pb.Longitude := model.ol_Longitude location;
          pb.Address := ""; pb.PostalCode := ""; pb.City := ""; pb.Country := "";
          pb.AdditionalInfo := ∅ |};
     pb.olu_EstimatedArrivalMinutes := estimatedArrivalMinutes;
     pb.olu_Timestamp := model.ol_Timestamp location |}.

(** The [for { select { ... } }] loop of [TrackOrder], run over the events it
    receives: the updates sent, and the value returned ([None] while the
    loop is still waiting for its next event). *)
Fixpoint trackLoop (env : Env) (orderId : string) (lastLocationID : string)
    (events : list StreamEvent)
  : list pb.OrderLocationUpdate * option (Reply unit) :=
  match events with
  | [] => ([], None)
  | ctx_Done :: _ => ([], Some (OK tt))
  | tick at_location_read at_order_read send_ok :: rest =>
      match repository.GetLatestOrderLocation env orderId at_location_read with
      | None => trackLoop env orderId lastLocationID rest
      | Some location =>
          if String.eqb (model.ol_ID location) lastLocationID
          then trackLoop env orderId lastLocationID rest
          else
            let lastLocationID := model.ol_ID location in
            match (run env (repository.GetOrderByID orderId) at_order_read).1.1 with
            | Some (ok currentOrder) =>
                let update := locationUpdate orderId location currentOrder in
                if send_ok then
                  let '(sent, returned) := trackLoop env orderId lastLocationID rest in
                  (update :: sent, returned)
                else ([], Some (Error Internal "failed to send update"))
            | _ => trackLoop env orderId lastLocationID rest
            end
      end
  end.

(** [func (s *OrderService) TrackOrder(req, stream) error], started on the
    store [w]. *)
Definition TrackOrder (env : Env) (orderId : string) (w : World)
    (events : list StreamEvent)
  : list pb.OrderLocationUpdate * option (Reply unit) :=
  if String.eqb orderId "" then ([], Some (Error InvalidArgument "order ID is required"))
  else
    match (run env (repository.GetOrderByID orderId) w).1.1 with
    | Some (ok _) => trackLoop env orderId "" events
    | Some (fail ErrOrderNotFound) => ([], Some (Error NotFound "order not found"))
    | _ => ([], Some (Error Internal "failed to get order"))
    end.


End service.

(* ===================================================================== *)
(** ** The API gateway: [api-gateway/cmd/server/main.go] *)
(* ===================================================================== *)

Module gateway.
Import service.

Definition convertOrderStatusFromString (status : string) : pb.OrderStatus :=
  if String.eqb status "CREATED" then pb.OrderStatus_ORDER_STATUS_CREATED
  else if String.eqb status "PAYMENT_PENDING"
  then pb.OrderStatus_ORDER_STATUS_PAYMENT_PENDING
  else if String.eqb status "PAYMENT_COMPLETED"
  then pb.OrderStatus_ORDER_STATUS_PAYMENT_COMPLETED
  else if String.eqb status "PROVIDER_ASSIGNED"
  then pb.OrderStatus_ORDER_STATUS_PROVIDER_ASSIGNED
  else if String.eqb status "PROVIDER_ACCEPTED"
  then pb.OrderStatus_ORDER_STATUS_PROVIDER_ACCEPTED
  else if String.eqb status "PROVIDER_REJECTED"
  then pb.OrderStatus_ORDER_STATUS_PROVIDER_REJECTED
  else if String.eqb status "IN_PROGRESS" then pb.OrderStatus_ORDER_STATUS_IN_PROGRESS
  else if String.eqb status "PICKED_UP" then pb.OrderStatus_ORDER_STATUS_PICKED_UP
  else if String.eqb status "IN_TRANSIT" then pb.OrderStatus_ORDER_STATUS_IN_TRANSIT
  else if String.eqb status "ARRIVED" then pb.OrderStatus_ORDER_STATUS_ARRIVED
  else if String.eqb status "DELIVERED" then pb.OrderStatus_ORDER_STATUS_DELIVERED
  else if String.eqb status "COMPLETED" then pb.OrderStatus_ORDER_STATUS_COMPLETED
  else if String.eqb status "CANCELLED" then pb.OrderStatus_ORDER_STATUS_CANCELLED
  else if String.eqb status "REFUNDED" then pb.OrderStatus_ORDER_STATUS_REFUNDED
  else if String.eqb status "DISPUTED" then pb.OrderStatus_ORDER_STATUS_DISPUTED
  else pb.OrderStatus_ORDER_STATUS_UNSPECIFIED.

(** What a call through [pb.OrderServiceClient] gives the handler: the
    response, an error that [status.FromError] recognises (with its code,
    [None] for a code the cases of the handlers never name, and its
    message), or any other error, with its text. *)
Inductive ClientResult (A : Type) : Type :=
| returned (resp : A)
| status_error (code : option Code) (msg : string)
| other_error (text : string).
Arguments returned {A} resp.
Arguments status_error {A} code msg.
Arguments other_error {A} text.

(** [pb.OrderServiceClient], the interface behind [h.orderClient]: the
    methods the handlers below call. *)
Record OrderServiceClient := {
  client_UpdateOrderStatus :
    pb.UpdateOrderStatusRequest -> Prog (ClientResult OrderResponse);
  client_CancelOrder : pb.CancelOrderRequest -> Prog (ClientResult OrderResponse);
  client_ListUserOrders :
    pb.ListUserOrdersRequest -> Prog (ClientResult ListOrdersResponse);
  client_ListProviderOrders :
    pb.ListProviderOrdersRequest -> Prog (ClientResult ListOrdersResponse);
}.

(** What [c.JSON(code, obj)] writes: [gin.H{"error": ...}] with a text or
    with [err.Error()] of a status error, an order, or a page of orders
    with its total, page number and limit. *)
Inductive Body :=
| error_body (text : string)
| status_error_body (code : option Code) (msg : string)
| order_body (order : pb.Order)
| orders_body (orders : list pb.Order) (total page limit : Z).

Record Response := JSON {
  http_status : Z;
  http_body : Body;
}.

Definition StatusOK : Z := 200.
Definition StatusBadRequest : Z := 400.
Definition StatusNotFound : Z := 404.
Definition StatusInternalServerError : Z := 500.

(** The [request] structs the handlers bind the JSON body to. *)
Record UpdateOrderStatusBody := {
  usb_Status : string;
  usb_UpdatedBy : string;
  usb_Notes : string;
}.

Record CancelOrderBody := {
  cob_CancelledBy : string;
  cob_Reason : string;
}.

(** [func (h *OrderHandler) UpdateOrderStatus(c *gin.Context)], for the path
    parameter [id] and the outcome of [c.ShouldBindJSON]: the text of its
    error, or the struct it filled. *)
Definition UpdateOrderStatus (h : OrderServiceClient) (orderID : string)
    (bound : string + UpdateOrderStatusBody) : Prog Response :=
  if String.eqb orderID "" then
    Ret (JSON StatusBadRequest (error_body "order ID is required"))
  else
    match bound with
    | inl err => Ret (JSON StatusBadRequest (error_body err))
    | inr request =>
        let req :=
          {| pb.us_OrderId := orderID;
             pb.us_Status := convertOrderStatusFromString (usb_Status request);
             pb.us_UpdatedBy := usb_UpdatedBy request;
             pb.us_Notes := usb_Notes request |} in
        r ← client_UpdateOrderStatus h req;
        match r : ClientResult OrderResponse with
        | returned resp =>
            Ret (JSON StatusOK (order_body (convertOrderToProto (resp_Order resp))))
        | status_error (Some NotFound) _ =>
            Ret (JSON StatusNotFound (error_body "Order not found"))
        | status_error (Some InvalidArgument) msg =>
            Ret (JSON StatusBadRequest (error_body msg))
        | status_error _ _ =>
            Ret (JSON StatusInternalServerError
                   (error_body "Failed to update order status"))
        | other_error text => Ret (JSON StatusInternalServerError (error_body text))
        end
    end.

(** [func (h *OrderHandler) CancelOrder(c *gin.Context)] *)
Definition CancelOrder (h : OrderServiceClient) (orderID : string)
    (bound : string + CancelOrderBody) : Prog Response :=
  if String.eqb orderID "" then
    Ret (JSON StatusBadRequest (error_body "order ID is required"))
  else
    match bound with
    | inl err => Ret (JSON StatusBadRequest (error_body err))
    | inr request =>
        let req :=
          {| pb.co_OrderId := orderID;
             pb.co_CancelledBy := cob_CancelledBy request;
             pb.co_Reason := cob_Reason request |} in
        r ← client_CancelOrder h req;
        match r : ClientResult OrderResponse with
        | returned resp =>
            Ret (JSON StatusOK (order_body (convertOrderToProto (resp_Order resp))))
        | status_error (Some NotFound) _ =>
            Ret (JSON StatusNotFound (error_body "Order not found"))
        | status_error (Some FailedPrecondition) msg =>
            Ret (JSON StatusBadRequest (error_body msg))
        | status_error _ _ =>
            Ret (JSON StatusInternalServerError (error_body "Failed to cancel order"))
        | other_error text => Ret (JSON StatusInternalServerError (error_body text))
        end
    end.

(** What both listing handlers write for the outcome of their call. *)
Definition listResponse (r : ClientResult ListOrdersResponse) : Response :=
  match r with
  | returned resp =>
      JSON StatusOK
        (orders_body (map convertOrderToProto (lr_Orders resp))
           (lr_Total resp) (lr_Page resp) (lr_Limit resp))
  | status_error code msg => JSON StatusInternalServerError (status_error_body code msg)
  | other_error text => JSON StatusInternalServerError (error_body text)
  end.

(** [func (h *OrderHandler) ListUserOrders(c *gin.Context)], for the path
    parameter [id], the integers [strconv.Atoi] returned for the query
    parameters [page] and [limit], and the query parameter [status]
    (empty when absent). *)
Definition ListUserOrders (h : OrderServiceClient) (userID : string)
    (page limit : Z) (status : string) : Prog Response :=
  if String.eqb userID "" then
    Ret (JSON StatusBadRequest (error_body "user ID is required"))
  else
    let req :=
      {| pb.lu_UserId := userID; pb.lu_Page := int32 page; pb.lu_Limit := int32 limit;
         pb.lu_Status := convertOrderStatusFromString status |} in
    r ← client_ListUserOrders h req;
    Ret (listResponse r).

(** [func (h *OrderHandler) ListProviderOrders(c *gin.Context)] *)
Definition ListProviderOrders (h : OrderServiceClient) (providerID : string)
    (page limit : Z) (status : string) : Prog Response :=
  if String.eqb providerID "" then
    Ret (JSON StatusBadRequest (error_body "provider ID is required"))
  else
    let req :=
      {| pb.lp_ProviderId := providerID; pb.lp_Page := int32 page;
         pb.lp_Limit := int32 limit;
         pb.lp_Status := convertOrderStatusFromString status |} in
    r ← client_ListProviderOrders h req;
    Ret (listResponse r).

End gateway.

(* ===================================================================== *)
(** ** Vocabulary of the statements *)
(* ===================================================================== *)

Import service.

(** Every row of the [orders] table is stored under its own [id]. *)
Definition wf_store (w : World) : Prop :=
  forall id o, orders w !! id = Some o -> model.ID o = id.

(** The statuses in which [CancelOrder] refuses to cancel. *)
Definition terminal (s : model.OrderStatus) : Prop :=
  s = model.StatusCompleted \/ s = model.StatusCancelled \/ s = model.StatusRefunded.

(** The order written by the transaction of [UpdateOrderStatus] when the
    clock has been read [n] times before. *)
Definition status_updated_order (env : Env) (n : nat) (status : model.OrderStatus)
    (by_ notes : string) (o : model.Order) : model.Order :=
  model.set_UpdatedAt (env_clock env (S n))
    (model.set_StatusHistory
       (model.StatusHistory_ o ++
          [ {| model.sh_Status := status; model.sh_UpdatedBy := by_;
               model.sh_Notes := notes; model.sh_Timestamp := env_clock env n |} ])
       (model.set_Status status o)).

(** The order saved by [AssignProvider] for the provider [pid]. *)
Definition assigned_order (env : Env) (n : nat) (pid : string) (o : model.Order)
  : model.Order :=
  model.set_UpdatedAt (env_clock env (S (S (S n))))
    (model.set_UpdatedAt (env_clock env (S (S n)))
       (model.AddStatusHistory model.StatusProviderAssigned "system"
          (String.append "Provider " (String.append pid " assigned"))
          (env_clock env n) (env_clock env (S n))
          (model.set_ProviderID pid o))).

(** The order saved by [AcceptOrder]. *)
Definition accepted_order (env : Env) (n : nat) (pid : string) (o : model.Order)
  : model.Order :=
  model.set_UpdatedAt (env_clock env (S (S (S n))))
    (model.set_UpdatedAt (env_clock env (S (S n)))
       (model.AddStatusHistory model.StatusProviderAccepted pid
          "Provider accepted the order" (env_clock env n) (env_clock env (S n)) o)).

(** The order saved by [RejectOrder]. *)
Definition rejected_order (env : Env) (n : nat) (pid reason : string)
    (o : model.Order) : model.Order :=
  model.set_UpdatedAt (env_clock env (S (S (S n))))
    (model.set_UpdatedAt (env_clock env (S (S n)))
       (model.set_ProviderID ""
          (model.AddStatusHistory model.StatusProviderRejected pid reason
             (env_clock env n) (env_clock env (S n)) o))).

(** *** A concrete environment and store, used to run the handlers *)

Definition demo_location (lat lon : float) : model.Location :=
  {| model.Latitude := lat; model.Longitude := lon; model.Address := "1 Main St";
     model.PostalCode := ""; model.City := ""; model.Country := "";
     model.AdditionalInfo := ∅ |}.

Definition demo_provider (id : string) (distance rating : float) : Provider :=
  {| pv_ID := id; pv_Name := id; pv_Rating := rating; pv_ServiceTypes := ["ride"];
     pv_Location := demo_location 0 0; pv_IsAvailable := true;
     pv_Distance := distance |}.

(** A directory that knows one provider within radius 5 and three within
    radius 10; a clock that advances by one at each reading; a ledger that
    always answers. *)
Definition demo_env : Env :=
  {| env_clock := fun n => 1000 + Z.of_nat n;
     env_uuid := fun n => match n with O => "order-1" | _ => "order-2" end;
     env_directory := fun _ q =>
       if PrimFloat.leb (q_radius q) 5
       then Some [demo_provider "p1" 3 4.5]
       else Some [demo_provider "p1" 3 4.5; demo_provider "p2" 8 5;
                  demo_provider "p3" 1 3];
     env_notify := fun _ _ => true;
     env_ledger := fun _ _ => Some "0xabc";
     env_sort_Slice := (@insertionSort);
     env_order_by := (@insertionSort) |}.

Definition empty_world : World :=
  {| orders := ∅; order_locations := []; clock_reads := O; uuid_draws := O;
     dir_queries := []; dir_notified := []; ledger_records := [] |}.

Definition demo_item (price : float) (quantity : Z) : pb.OrderItem :=
  {| pb.ItemId := "sku"; pb.Name := "item"; pb.Quantity := quantity;
     pb.Price := price; pb.Properties := ∅ |}.

Definition demo_pb_location : pb.Location :=
  {| pb.Latitude := 0%float; pb.Longitude := 0%float; pb.Address := "1 Main St";
     pb.PostalCode := ""; pb.City := ""; pb.Country := "";
     pb.AdditionalInfo := ∅ |}.

(** The request of the concrete scenario: items [(10, 2)] and [(5, 1)]. *)
Definition demo_create : pb.CreateOrderRequest :=
  {| pb.cr_UserId := "u1";
     pb.cr_OrderType := pb.OrderType_ORDER_TYPE_RIDE;
     pb.cr_PickupLocation := Some demo_pb_location;
     pb.cr_DestinationLocation := Some demo_pb_location;
     pb.cr_Items := [demo_item 10 2; demo_item 5 1];
     pb.cr_PaymentMethod := pb.PaymentMethod_PAYMENT_METHOD_CASH;
     pb.cr_Notes := "" |}.

(** An order with provider [p1] assigned, and the store that holds it. *)
Definition demo_order : model.Order :=
  model.set_ProviderID "p1"
    (model.AddStatusHistory model.StatusProviderAssigned "system" "" 1001 1001
       (newOrder demo_create "order-1" 1000)).

Definition demo_world : World :=
  set_orders (<["order-1" := demo_order]> ∅) empty_world.

Definition demo_cancel : pb.CancelOrderRequest :=
  {| pb.co_OrderId := "order-1"; pb.co_CancelledBy := "u1";
     pb.co_Reason := "changed my mind" |}.

Definition demo_reject : pb.RejectOrderRequest :=
  {| pb.ro_OrderId := "order-1"; pb.ro_ProviderId := "p1";
     pb.ro_Reason := "too far" |}.

Definition demo_accept : pb.AcceptOrderRequest :=
  {| pb.ao_OrderId := "order-1"; pb.ao_ProviderId := "p1";
     pb.ao_CurrentLocation := None |}.

Definition demo_update : pb.UpdateOrderStatusRequest :=
  {| pb.us_OrderId := "order-1";
     pb.us_Status := pb.OrderStatus_ORDER_STATUS_IN_PROGRESS;
     pb.us_UpdatedBy := "ops"; pb.us_Notes := "started" |}.

(** The last entry of an order's history carries the order's status. *)
Definition history_matches_status (o : model.Order) : Prop :=
  exists e, last (model.StatusHistory_ o) = Some e /\
            model.sh_Status e = model.Status o.

Definition store_consistent (w : World) : Prop :=
  forall id o, orders w !! id = Some o -> history_matches_status o.

(** What an accepted operation did to the store: it wrote the replied order
    under its own ID, either as a new row with a one-entry history, or over
    the row [o] with [o]'s history extended by one entry. *)
Definition wrote_one_entry (w w' : World) (o' : model.Order) (fresh : bool) : Prop :=
  orders w' = <[model.ID o' := o']> (orders w) /\
  exists e,
    model.sh_Status e = model.Status o' /\
    if fresh then
      orders w !! model.ID o' = None /\ model.StatusHistory_ o' = [e]
    else
      exists o, orders w !! model.ID o' = Some o /\
                model.StatusHistory_ o' = model.StatusHistory_ o ++ [e].

Definition is_create (rq : Request) : bool :=
  match rq with ReqCreate _ => true | _ => false end.

(** [item.Price * float64(item.Quantity)] *)
Definition line_total (item : model.OrderItem) : float :=
  (model.Price item * float64_of_int (model.Quantity item))%float.

(** The sum of the first [n] terms, added in order starting from [0]:
    binary64 addition is not associative, so the order is part of the sum. *)
Fixpoint sum_first (terms : list float) (n : nat) : float :=
  match n with
  | O => 0%float
  | S k => (sum_first terms k + nth k terms 0%float)%float
  end.

Definition float_sum (terms : list float) : float :=
  sum_first terms (length terms).

(** One converted line item, as built in the loop of [convertOrderItems]. *)
Definition converted_item (item : pb.OrderItem) : model.OrderItem :=
  {| model.ItemID := pb.ItemId item; model.Name := pb.Name item;
     model.Quantity := pb.Quantity item; model.Price := pb.Price item;
     model.Properties := pb.Properties item |}.

(** The five named values of the protobuf enums [OrderType] and
    [PaymentMethod], other than [UNSPECIFIED]. *)
Definition recognized (v : Z) : Prop := 1 <= v <= 5.

(** A request whose order type is [UNSPECIFIED] and whose payment method is
    the unknown value 42. *)
Definition demo_create_unknown : pb.CreateOrderRequest :=
  {| pb.cr_UserId := "u1";
     pb.cr_OrderType := pb.OrderType_ORDER_TYPE_UNSPECIFIED;
     pb.cr_PickupLocation := Some demo_pb_location;
     pb.cr_DestinationLocation := Some demo_pb_location;
     pb.cr_Items := [demo_item 10 2];
     pb.cr_PaymentMethod := 42;
     pb.cr_Notes := "" |}.

(** The query [FindBestProviders] makes for [order] at a given radius. *)
Definition matcher_query (order : model.Order) (radius : float) : DirQuery :=
  {| q_location := model.PickupLocation order; q_radius := radius;
     q_serviceType := orderTypeToServiceType (model.OrderType_ order) |}.

(** The column a listing selects on. *)
Definition owner (col : OwnerColumn) (o : model.Order) : string :=
  match col with
  | by_user_id => model.UserID o
  | by_provider_id => model.ProviderID o
  end.

(** The two repository functions, selected by the column they filter on. *)
Definition repository_list (col : OwnerColumn) :=
  match col with
  | by_user_id => repository.ListUserOrders
  | by_provider_id => repository.ListProviderOrders
  end.

(** Clamping in the usual sense: values below the range go to its lower
    bound, values above it to its upper bound. *)
Definition clamp (lo hi x : Z) : Z := Z.max lo (Z.min hi x).

(** Eleven orders of user [u1], created at times 0 to 10. *)
Definition eleven_ids : list string :=
  ["o00"; "o01"; "o02"; "o03"; "o04"; "o05"; "o06"; "o07"; "o08"; "o09"; "o10"].

Definition listed_order (i : nat) (id : string) : model.Order :=
  newOrder demo_create id (Z.of_nat i).

Definition eleven_orders_world : World :=
  set_orders
    (list_to_map (imap (fun i id => (id, listed_order i id)) eleven_ids))
    empty_world.

(** The statuses recorded in an order's history, oldest first. *)
Definition history_statuses (o : model.Order) : list model.OrderStatus :=
  map model.sh_Status (model.StatusHistory_ o).

(** [AcceptOrder] reads the order; [UpdateOrderStatus] then runs from start
    to end (lookup, transaction, lookup, goroutine); [AcceptOrder] then
    reads the clock four times, writes the order back and starts its
    goroutine. *)
Definition lost_update_schedule : list bool :=
  [true] ++ [false; false; false; false] ++ [true; true; true; true; true; true].

(** The reply a finished thread is about to return. *)
Definition finished {A : Type} (p : Prog A) : option A :=
  match p with Ret a => Some a | _ => None end.

(** Every schedule of the given length. *)
Fixpoint schedules (n : nat) : list (list bool) :=
  match n with
  | O => [[]]
  | S k => map (cons true) (schedules k) ++ map (cons false) (schedules k)
  end.

(** Two [UpdateOrderStatus] calls, to [IN_PROGRESS] and to [PICKED_UP]. *)
Definition demo_update' : pb.UpdateOrderStatusRequest :=
  {| pb.us_OrderId := "order-1";
     pb.us_Status := pb.OrderStatus_ORDER_STATUS_PICKED_UP;
     pb.us_UpdatedBy := "ops"; pb.us_Notes := "picked up" |}.

(** Under the given schedule both calls have replied with success and the
    stored history is the old one followed by both new entries, in one of
    the two orders. *)
Definition both_entries_kept (schedule : list bool) : bool :=
  let '(p, q, w') :=
    interleave demo_env schedule
      (UpdateOrderStatus demo_update) (UpdateOrderStatus demo_update') demo_world in
  match finished p, finished q, orders w' !! "order-1" with
  | Some (OK _), Some (OK _), Some stored =>
      bool_decide (history_statuses stored
                   = ["CREATED"; "PROVIDER_ASSIGNED"; "IN_PROGRESS"; "PICKED_UP"])
      || bool_decide (history_statuses stored
                      = ["CREATED"; "PROVIDER_ASSIGNED"; "PICKED_UP"; "IN_PROGRESS"])
  | _, _, _ => false
  end.

(** Whether both threads have replied at the end of a schedule. *)
Definition both_finished (schedule : list bool) : bool :=
  let '(p, q, _) :=
    interleave demo_env schedule
      (UpdateOrderStatus demo_update) (UpdateOrderStatus demo_update') demo_world in
  match finished p, finished q with
  | Some _, Some _ => true
  | _, _ => false
  end.

(** A key whose lexicographic order is the order of the non-NaN floats. *)
Definition float_key (x : spec_float) : Z * Z * Z :=
  match x with
  | S754_nan => (0, 0, 0)
  | S754_zero _ => (0, 0, 0)
  | S754_infinity true => (-2, 0, 0)
  | S754_infinity false => (2, 0, 0)
  | S754_finite true m e => (-1, - e, - Z.pos m)
  | S754_finite false m e => (1, e, Z.pos m)
  end.

Definition key_lt (a b : Z * Z * Z) : Prop :=
  let '(a1, a2, a3) := a in
  let '(b1, b2, b3) := b in
  a1 < b1 \/ (a1 = b1 /\ (a2 < b2 \/ (a2 = b2 /\ a3 < b3))).

(** The score as the claim words it, with both factors clamped into [0, 1]. *)
Definition clamp01 (x : float) : float :=
  if PrimFloat.ltb x 0 then 0%float else if PrimFloat.ltb 1 x then 1%float else x.

Definition claimedScore (p : Provider) : float :=
  (0.7 * clamp01 (1 - math_Min (pv_Distance p / 10) 1)
   + 0.3 * clamp01 (pv_Rating p / 5))%float.

(** Two candidates: [near] at distance 3 with rating 5, and [starred] at
    distance 4 with an out-of-scale rating of 10. *)
Definition near : Provider := demo_provider "near" 3 5.
Definition starred : Provider := demo_provider "starred" 4 10.

(** [dLat*dLat + dLon*dLon] as [estimateArrivalMinutes] computes it: the
    squared angular distance between the reported position and the target. *)
Definition squaredAngle (location : model.OrderLocation)
    (destination : model.Location) : float :=
  let dLat := (model.Latitude destination - model.ol_Latitude location)%float in
  let dLon := (model.Longitude destination - model.ol_Longitude location)%float in
  (dLat * dLat + dLon * dLon)%float.

(** A positive normal number: its mantissa has all [prec] bits. *)
Definition positive_normal (c : float) : bool :=
  match Prim2SF c with
  | S754_finite false m _ => Z.pos (digits2_pos m) =? prec
  | _ => false
  end.

(** What the rounding of [SpecFloat] computes, read on the quotient [N / D]
    it is given: where the remainder stands with respect to half of [D]. *)
Definition loc_of (N D : Z) : location :=
  if N mod D =? 0 then loc_Exact else loc_Inexact (2 * (N mod D) ?= D).

(** [N / D] rounded to the nearest integer, ties to even. *)
Definition RNE (N D : Z) : Z :=
  match 2 * (N mod D) ?= D with
  | Lt => N / D
  | Eq => if Z.even (N / D) then N / D else N / D + 1
  | Gt => N / D + 1
  end.

(** A shift record holds the quotient [N / D] with its round and sticky
    bits. *)
Record rep (mrs : shr_record) (N D : Z) : Prop := {
  rep_N : 0 <= N;
  rep_D : 0 < D;
  rep_m : shr_m mrs = N / D;
  rep_r : shr_r mrs = (D <=? 2 * (N mod D));
  rep_s : shr_s mrs = negb ((N mod D =? 0) || (2 * (N mod D) =? D));
}.

(** Rounding [N / D * 2^e] in the format [(prec, emax)]: the exponent the
    result is first given, its mantissa, and the pair after the carry of a
    mantissa that reached [2^prec]. *)
Definition round_exp (prec emax N D e : Z) : Z :=
  SpecFloat.fexp prec emax (Zdigits2 (N / D) + e).

Definition round_man (prec emax N D e : Z) : Z :=
  RNE N (2 ^ (round_exp prec emax N D e - e) * D).

Definition rounded (prec emax N D e : Z) : Z * Z :=
  if round_man prec emax N D e =? 2 ^ prec
  then (2 ^ (prec - 1), round_exp prec emax N D e + 1)
  else (round_man prec emax N D e, round_exp prec emax N D e).

(** The number with sign [sx] a rounded pair stands for. *)
Definition pack (prec emax : Z) (sx : bool) (ME : Z * Z) : spec_float :=
  match fst ME with
  | Z0 => S754_zero sx
  | Zpos m =>
      if snd ME <=? emax - prec then S754_finite sx m (snd ME) else S754_infinity sx
  | Zneg _ => S754_nan
  end.

(** The value [N1/D1 * 2^e1] is at most [N2/D2 * 2^e2]. *)
Definition val_le (N1 D1 e1 N2 D2 e2 : Z) : Prop :=
  N1 * D2 * 2 ^ (e1 - Z.min e1 e2) <= N2 * D1 * 2 ^ (e2 - Z.min e1 e2).

(** Order of two rounded pairs (mantissa, exponent) in canonical form. *)
Definition lex_le (a b : Z * Z) : Prop :=
  fst a = 0 \/
  (0 < fst a /\ 0 < fst b /\ (snd a < snd b \/ (snd a = snd b /\ fst a <= fst b))).

(** A mantissa and exponent in canonical form, and the order of two such
    pairs as [SFcompare] decides it. *)
Definition canonical (prec emax : Z) (m : positive) (e : Z) : Prop :=
  SpecFloat.fexp prec emax (Z.pos (digits2_pos m) + e) = e.

Definition lex (m1 : positive) (e1 : Z) (m2 : positive) (e2 : Z) : Prop :=
  e1 < e2 \/ (e1 = e2 /\ Z.pos m1 <= Z.pos m2).

(** The exponent [SFdiv_core_binary] gives the quotient of [m * 2^e] by
    [mc * 2^ec]. *)
Definition div_exp (prec emax : Z) (mc : positive) (ec : Z) (m : positive) (e : Z) : Z :=
  Z.min (SpecFloat.fexp prec emax
           (Zdigits2 (Z.pos m) + e - (Zdigits2 (Z.pos mc) + ec)))
        (e - ec).

(** By how many bits [binary_round] shifts a mantissa to the left. *)
Definition align (pr emx : Z) (m : positive) (e : Z) : Z :=
  Z.max 0 (e - SpecFloat.fexp pr emx (Z.pos (digits2_pos m) + e)).

(** A status update to [PAYMENT_PENDING] on the first order created. *)
Definition demo_pay : pb.UpdateOrderStatusRequest :=
  {| pb.us_OrderId := "order-1";
     pb.us_Status := pb.OrderStatus_ORDER_STATUS_PAYMENT_PENDING;
     pb.us_UpdatedBy := "payments"; pb.us_Notes := "awaiting payment" |}.

(** The invariant of insertion sort on the reversed prefix it builds: no
    element is [less] than one after it. *)
Definition rev_ordered {A : Type} (less : A -> A -> bool) (acc : list A) : Prop :=
  StronglySorted (fun a b => less a b = false) acc.

(** *** Vocabulary of the further properties *)

(** The named values of the protobuf enum [OrderStatus], other than
    [UNSPECIFIED]. *)
Definition named_status (v : Z) : Prop := 1 <= v <= 15.

(** The strings the model names: order types, statuses, payment methods. *)
Definition known_types : list model.OrderType :=
  [model.TypeRide; model.TypeFoodDelivery; model.TypePackageDelivery;
   model.TypeGroceryDelivery; model.TypeServiceBooking].

Definition known_statuses : list model.OrderStatus :=
  [model.StatusCreated; model.StatusPaymentPending; model.StatusPaymentComplete;
   model.StatusProviderAssigned; model.StatusProviderAccepted;
   model.StatusProviderRejected; model.StatusInProgress; model.StatusPickedUp;
   model.StatusInTransit; model.StatusArrived; model.StatusDelivered;
   model.StatusCompleted; model.StatusCancelled; model.StatusRefunded;
   model.StatusDisputed].

Definition known_payments : list model.PaymentMethod :=
  [model.PaymentCreditCard; model.PaymentDebitCard; model.PaymentDigitalWallet;
   model.PaymentCash; model.PaymentCrypto].

(** One line item and one history entry as the response carries them. *)
Definition proto_item (item : model.OrderItem) : pb.OrderItem :=
  {| pb.ItemId := model.ItemID item;
     pb.Name := model.Name item;
     pb.Quantity := int32 (model.Quantity item);
     pb.Price := float64_of_float32 (float32 (model.Price item));
     pb.Properties := model.Properties item |}.

Definition proto_entry (h : model.StatusHistory) : pb.OrderStatusHistory :=
  {| pb.osh_Status := convertOrderStatusToProto (model.sh_Status h);
     pb.osh_UpdatedBy := model.sh_UpdatedBy h;
     pb.osh_Notes := model.sh_Notes h;
     pb.osh_Timestamp := model.sh_Timestamp h |}.

(** What identifies a line item of a message, its price apart. *)
Definition item_key (item : pb.OrderItem) : string * string * Z * gmap string string :=
  (pb.ItemId item, pb.Name item, pb.Quantity item, pb.Properties item).

(** A value of a protobuf [int32] field. *)
Definition is_int32 (n : Z) : Prop := - 2 ^ 31 <= n < 2 ^ 31.


(** A completed order, and a request to move it back to [IN_PROGRESS]. *)
Definition completed_world : World :=
  set_orders (<["order-1" := model.set_Status model.StatusCompleted demo_order]> ∅)
    empty_world.

(** The location row [CreateOrderLocation] inserts for a report of provider
    [pid] on order [oid] at [(lat, lon)], when the clock has been read [n]
    times and [k] identifiers have been drawn. *)
Definition reported_location (env : Env) (k n : nat) (oid pid : string)
    (lat lon : float) : model.OrderLocation :=
  {| model.ol_ID := env_uuid env k;
     model.ol_OrderID := oid;
     model.ol_ProviderID := pid;
     model.ol_Latitude := lat;
     model.ol_Longitude := lon;
     model.ol_Timestamp := env_clock env n |}.

(** No stored location row has the identifier [id]. *)
Definition fresh_location_id (id : string) (w : World) : Prop :=
  existsb (fun l => String.eqb (model.ol_ID l) id) (order_locations w) = false.

(** The target [UpdateLocation] and [TrackOrder] estimate the arrival at. *)
Definition eta_target (o : model.Order) : model.Location :=
  if String.eqb (model.Status o) model.StatusInTransit
     || String.eqb (model.Status o) model.StatusPickedUp
  then model.DestinationLocation o else model.PickupLocation o.

Definition demo_report : pb.UpdateLocationRequest :=
  {| pb.ul_OrderId := "order-1"; pb.ul_ProviderId := "p1";
     pb.ul_Location := Some demo_pb_location |}.

(** A request by a provider the order is not assigned to. *)
Definition demo_accept_other : pb.AcceptOrderRequest :=
  {| pb.ao_OrderId := "order-1"; pb.ao_ProviderId := "p2";
     pb.ao_CurrentLocation := None |}.

(** [AcceptOrder] by the assigned provider, reporting where it is. *)
Definition demo_accept_at : pb.AcceptOrderRequest :=
  {| pb.ao_OrderId := "order-1"; pb.ao_ProviderId := "p1";
     pb.ao_CurrentLocation := Some demo_pb_location |}.

(** A request to assign a provider chosen by the matcher, and one naming the
    provider. *)
Definition demo_assign_auto : pb.AssignProviderRequest :=
  {| pb.ap_OrderId := "order-1"; pb.ap_ProviderId := "" |}.

Definition demo_assign_manual : pb.AssignProviderRequest :=
  {| pb.ap_OrderId := "order-1"; pb.ap_ProviderId := "p9" |}.

(** The reply of an accepted [AssignProvider]. *)
Definition assigned_reply (o : model.Order) : Reply OrderResponse :=
  OK {| resp_Order := o; resp_Message := "Provider assigned successfully";
        resp_Success := true |}.

(** The same environment with another outcome of the notifications. *)
Definition with_notify (f : string -> string -> bool) (env : Env) : Env :=
  {| env_clock := env_clock env; env_uuid := env_uuid env;
     env_directory := env_directory env; env_notify := f;
     env_ledger := env_ledger env; env_sort_Slice := env_sort_Slice env;
     env_order_by := env_order_by env |}.

(** The order the ledger goroutine writes back: the snapshot it was started
    with, carrying the transaction hash. *)
Definition ledger_stamped (env : Env) (n : nat) (txHash : string) (o : model.Order)
  : model.Order :=
  model.set_UpdatedAt (env_clock env n) (model.set_BlockchainTxHash txHash o).

(** All rows a listing selects, and these rows in the order of the query. *)
Definition matching_rows (col : OwnerColumn) (key : string)
    (status : model.OrderStatus) (w : World) : list model.Order :=
  filter (fun o => row_matches col key status o = true) (table_rows w).

Definition listing (env : Env) (col : OwnerColumn) (key : string)
    (status : model.OrderStatus) (w : World) : list model.Order :=
  env_order_by env _ created_later (matching_rows col key status w).

(** The rows of one page, as the repository returns them. *)
Definition page_rows (env : Env) (col : OwnerColumn) (key : string)
    (page limit : Z) (status : model.OrderStatus) (w : World) : list model.Order :=
  match run env (repository_list col key page limit status) w with
  | (Some (rows, _), _, _) => rows
  | _ => []
  end.

(** The status a listing filters on for the value of the request: none for
    [UNSPECIFIED], the converted status otherwise. *)
Definition listed_status (v : pb.OrderStatus) : model.OrderStatus :=
  if v =? pb.OrderStatus_ORDER_STATUS_UNSPECIFIED then ""
  else convertOrderStatusFromProto v.

(** The reply of a listing of [key] for the page, limit and status value of
    a request. *)
Definition listing_reply (env : Env) (col : OwnerColumn) (key : string)
    (page limit : Z) (v : pb.OrderStatus) (w : World) : Reply ListOrdersResponse :=
  OK {| lr_Orders := page_rows env col key page limit (listed_status v) w;
        lr_Total := int32 (Z.of_nat (length (matching_rows col key (listed_status v) w)));
        lr_Page := page; lr_Limit := limit |}.

(** The orders of a reply, none for an error. *)
Definition lr_Orders_of (r : Reply ListOrdersResponse) : list model.Order :=
  match r with OK resp => lr_Orders resp | Error _ _ => [] end.

(** The location rows of an order. *)
Definition locations_of (orderID : string) (w : World) : list model.OrderLocation :=
  filter (fun l => String.eqb (model.ol_OrderID l) orderID = true) (order_locations w).

(** A store with three reports on [order-1], at times 5, 9 and 7, and one on
    another order. *)
Definition demo_row (id oid : string) (t : Z) : model.OrderLocation :=
  {| model.ol_ID := id; model.ol_OrderID := oid; model.ol_ProviderID := "p1";
     model.ol_Latitude := 0%float; model.ol_Longitude := 0%float;
     model.ol_Timestamp := t |}.

Definition tracked_world : World :=
  set_order_locations
    [demo_row "l1" "order-1" 5; demo_row "l2" "order-1" 9;
     demo_row "l3" "order-1" 7; demo_row "l4" "order-2" 12]
    demo_world.


(** [n] ticks of a tracker during which the store stays [w] and every send
    succeeds. *)
Definition quiet_ticks (w : World) (n : nat) : list StreamEvent :=
  repeat (tick w w true) n.

(** An update was built from a report and an order that the store held at a
    tick of [events]. *)
Definition update_from_store (orderId : string) (events : list StreamEvent)
    (u : pb.OrderLocationUpdate) : Prop :=
  exists at_location_read at_order_read send_ok location currentOrder,
    In (tick at_location_read at_order_read send_ok) events /\
    In location (order_locations at_location_read) /\
    model.ol_OrderID location = orderId /\
    orders at_order_read !! orderId = Some currentOrder /\
    u = locationUpdate orderId location currentOrder.

(** A send failed at some tick of [events]. *)
Definition some_send_failed (events : list StreamEvent) : Prop :=
  exists at_location_read at_order_read,
    In (tick at_location_read at_order_read false) events.

(** An order with a total price, and its fees computed. *)
Definition priced (total : float) (o : model.Order) : model.Order :=
  model.CalculateFees (model.set_TotalPrice total o).

(** A call that reaches the order service: what the handler replies comes
    back as the response or as the status error of its code. *)
Definition delivered {A : Type} (p : Prog (Reply A)) : Prog (gateway.ClientResult A) :=
  r ← p;
  Ret (match r with
       | OK resp => gateway.returned resp
       | Error c msg => gateway.status_error (Some c) msg
       end).

(** The client every call of which reaches the order service. *)
Definition connected : gateway.OrderServiceClient :=
  {| gateway.client_UpdateOrderStatus := fun req => delivered (UpdateOrderStatus req);
     gateway.client_CancelOrder := fun req => delivered (CancelOrder req);
     gateway.client_ListUserOrders := fun req => delivered (ListUserOrders req);
     gateway.client_ListProviderOrders := fun req => delivered (ListProviderOrders req) |}.

(** Whether a string is one of the fifteen status names. *)
Definition is_status_name (s : string) : bool :=
  existsb (String.eqb s) known_statuses.

(** The page the gateway writes for a listing of [key]. *)
Definition listing_page (env : Env) (col : OwnerColumn) (key : string)
    (page limit : Z) (status : model.OrderStatus) (w : World) : gateway.Response :=
  gateway.JSON 200
    (gateway.orders_body
       (map convertOrderToProto
          (page_rows env col key (int32 page) (int32 limit) status w))
       (int32 (Z.of_nat (length (matching_rows col key status w))))
       (int32 page) (int32 limit)).

(** The bodies of two requests to the gateway. *)
Definition demo_status_body : gateway.UpdateOrderStatusBody :=
  {| gateway.usb_Status := "SHIPPED"; gateway.usb_UpdatedBy := "ops";
     gateway.usb_Notes := "" |}.

Definition demo_cancel_body : gateway.CancelOrderBody :=
  {| gateway.cob_CancelledBy := "u1"; gateway.cob_Reason := "changed my mind" |}.
(* ===================================================================== *)
(** ** Running handlers: general lemmas *)
(* ===================================================================== *)


Lemma eqb_empty_false s : s <> "" -> String.eqb s "" = false.
Proof. intros H. by apply String.eqb_neq. Qed.

Lemma updated_row_same old o :
  model.ID old = model.ID o -> model.CreatedAt old = model.CreatedAt o ->
  updated_row old o = o.
Proof. intros H1 H2. destruct o. unfold updated_row. simpl in *. by rewrite H1, H2. Qed.

Lemma run_bind env {A B} (p : Prog A) (f : A -> Prog B) w :
  run env (bind p f) w =
  match run env p w with
  | (Some a, w1, k1) => let '(r, w2, k2) := run env (f a) w1 in (r, w2, k1 ++ k2)
  | (None, w1, k1) => (None, w1, k1)
  end.
Proof.
  revert B f w. induction p as [A a| A | A c k IH | A X body IHbody k IH | A child IHchild k IH];
    intros B f w; simpl.
  - destruct (run env (f a) w) as [[r w2] k2]. reflexivity.
  - reflexivity.
  - destruct (perform env c w) as [x w']. apply IH.
  - destruct (run env body w) as [[[x|] w'] kids]; [|reflexivity].
    rewrite IH. destruct (run env (k x) w') as [[[a|] w1] k1].
    + destruct (run env (f a) w1) as [[r w2] k2]. by rewrite app_assoc.
    + reflexivity.
  - rewrite IH. destruct (run env k w) as [[[a|] w1] k1].
    + destruct (run env (f a) w1) as [[r w2] k2]. reflexivity.
    + reflexivity.
Qed.

Lemma run_Prog_bind env {A B} (p : Prog A) (f : A -> Prog B) w :
  run env (Prog_bind A B f p) w =
  match run env p w with
  | (Some a, w1, k1) => let '(r, w2, k2) := run env (f a) w1 in (r, w2, k1 ++ k2)
  | (None, w1, k1) => (None, w1, k1)
  end.
Proof. apply run_bind. Qed.

Lemma run_NotifyProviders env order ps w :
  run env (NotifyProviders order ps) w =
  (Some None,
   set_dir_notified (dir_notified w ++ map (fun p => (pv_ID p, model.ID order)) ps) w,
   []).
Proof.
  revert w. induction ps as [|p ps IH]; intros w; simpl.
  - rewrite app_nil_r. by destruct w.
  - rewrite IH. simpl. by rewrite <- app_assoc.
Qed.
Lemma run_rankAndLimit env srt ps N w :
  exists r, run env (rankAndLimit srt ps N) w = (r, w, []).
Proof.
  unfold rankAndLimit. destruct (_ >? _); [destruct (_ <? _)|]; simpl; eauto.
Qed.

Lemma FindBestProviders_frame env srt order N w r w1 kids :
  run env (FindBestProviders srt order N) w = (r, w1, kids) ->
  orders w1 = orders w /\ clock_reads w1 = clock_reads w /\ kids = [].
Proof.
  unfold FindBestProviders. simpl.
  destruct (env_directory env (dir_queries w) _) as [ps|]; simpl.
  - destruct (_ <? _); simpl.
    + destruct (env_directory env _ _) as [ps2|]; simpl.
      * destruct (run_rankAndLimit env srt ps2 N
                    (set_dir_queries
                       ((dir_queries w ++
                         [{| q_location := model.PickupLocation order;
                             q_radius := 5;
                             q_serviceType := orderTypeToServiceType (model.OrderType_ order) |}]) ++
                        [{| q_location := model.PickupLocation order;
                            q_radius := 10;
                            q_serviceType := orderTypeToServiceType (model.OrderType_ order) |}])
                       (set_dir_queries
                          (dir_queries w ++
                           [{| q_location := model.PickupLocation order;
                               q_radius := 5;
                               q_serviceType := orderTypeToServiceType (model.OrderType_ order) |}])
                          w))) as [r' Hr].
        simpl in Hr. rewrite Hr. intros H; inversion H; subst; done.
      * intros H; inversion H; subst; done.
    + match goal with |- run env (rankAndLimit srt ps N) ?w0 = _ -> _ =>
        destruct (run_rankAndLimit env srt ps N w0) as [r' Hr] end.
      rewrite Hr. intros H; inversion H; subst; done.
  - intros H; inversion H; subst; done.
Qed.

Lemma AcceptOrder_ok env w req resp w' kids :
  wf_store w ->
  run env (AcceptOrder req) w = (Some (OK resp), w', kids) ->
  exists o,
    orders w !! pb.ao_OrderId req = Some o /\
    model.ProviderID o = pb.ao_ProviderId req /\
    let o' := accepted_order env (clock_reads w) (pb.ao_ProviderId req) o in
    resp_Order resp = o' /\
    orders w' = <[pb.ao_OrderId req := o']> (orders w).
Proof.
  intros Hwf H. unfold AcceptOrder in H.
  destruct (String.eqb (pb.ao_OrderId req) "") eqn:E1; [discriminate|].
  destruct (String.eqb (pb.ao_ProviderId req) "") eqn:E2; [discriminate|].
  simpl in H. unfold getOrder, repository.GetOrderByID in H. simpl in H.
  destruct (orders w !! pb.ao_OrderId req) as [o|] eqn:Ho; [|discriminate].
  simpl in H.
  destruct (String.eqb (model.ProviderID o) (pb.ao_ProviderId req)) eqn:E3; [|discriminate].
  simpl in H. apply String.eqb_eq in E3.
  pose proof (Hwf _ _ Ho) as Hid.
  unfold repository.UpdateOrder in H. simpl in H. rewrite Hid, E1 in H. simpl in H.
  rewrite Hid, Ho in H. simpl in H.
  exists o. split; [done|]. split; [done|].
  rewrite updated_row_same in H by done.
  destruct (pb.ao_CurrentLocation req); simpl in H.
  - unfold repository.CreateOrderLocation in H. simpl in H.
    match type of H with context [if ?b then _ else _] => destruct b end; simpl in H.
    all: by inversion H.
  - by inversion H.
Qed.

Opaque FindBestProviders NotifyProviders.

Lemma AssignProvider_ok env srt w req resp w' kids :
  wf_store w ->
  run env (AssignProvider srt req) w = (Some (OK resp), w', kids) ->
  exists o pid,
    orders w !! pb.ap_OrderId req = Some o /\
    resp_Order resp = assigned_order env (clock_reads w) pid o /\
    orders w' = <[pb.ap_OrderId req := assigned_order env (clock_reads w) pid o]> (orders w).
Proof.
  intros Hwf H. unfold AssignProvider in H.
  destruct (String.eqb (pb.ap_OrderId req) "") eqn:E1; [discriminate|].
  unfold getOrder, repository.GetOrderByID in H. simpl in H.
  destruct (orders w !! pb.ap_OrderId req) as [o|] eqn:Ho; [|discriminate].
  simpl in H. pose proof (Hwf _ _ Ho) as Hid.
  destruct (String.eqb (pb.ap_ProviderId req) "") eqn:E2; simpl in H.
  - rewrite run_Prog_bind in H.
    destruct (run env (FindBestProviders srt o 3) w) as [[r w1] k1] eqn:HF.
    apply FindBestProviders_frame in HF as (Hord & Hclk & ->).
    destruct r as [[[|first rest]|e]|]; try discriminate.
    simpl in H. rewrite run_Prog_bind, run_NotifyProviders in H. simpl in H.
    unfold repository.UpdateOrder in H. simpl in H. rewrite Hid, E1 in H. simpl in H.
    rewrite Hid, Hord, Ho in H. simpl in H. rewrite updated_row_same in H by done.
    rewrite Hclk in H.
    exists o, (pv_ID first). split; [done|]. by inversion H.
  - unfold repository.UpdateOrder in H. simpl in H. rewrite Hid, E1 in H. simpl in H.
    rewrite Hid, Ho in H. simpl in H. rewrite updated_row_same in H by done.
    exists o, (pb.ap_ProviderId req). split; [done|]. by inversion H.
Qed.

Transparent FindBestProviders NotifyProviders.

Lemma RejectOrder_ok env srt w req resp w' kids :
  wf_store w ->
  run env (RejectOrder srt req) w = (Some (OK resp), w', kids) ->
  exists o,
    orders w !! pb.ro_OrderId req = Some o /\
    model.ProviderID o = pb.ro_ProviderId req /\
    let o' := rejected_order env (clock_reads w) (pb.ro_ProviderId req) (pb.ro_Reason req) o in
    resp_Order resp = o' /\
    w' = set_orders (<[pb.ro_OrderId req := o']> (orders w))
           (set_clock_reads (S (S (S (S (clock_reads w))))) w) /\
    kids = [recordOnLedger o'; rematch srt o'].
Proof.
  intros Hwf H. unfold RejectOrder in H.
  destruct (String.eqb (pb.ro_OrderId req) "") eqn:E1; [discriminate|].
  destruct (String.eqb (pb.ro_ProviderId req) "") eqn:E2; [discriminate|].
  simpl in H. unfold getOrder, repository.GetOrderByID in H. simpl in H.
  destruct (orders w !! pb.ro_OrderId req) as [o|] eqn:Ho; [|discriminate].
  simpl in H.
  destruct (String.eqb (model.ProviderID o) (pb.ro_ProviderId req)) eqn:E3; [|discriminate].
  simpl in H. apply String.eqb_eq in E3.
  pose proof (Hwf _ _ Ho) as Hid.
  unfold repository.UpdateOrder in H. simpl in H. rewrite Hid, E1 in H. simpl in H.
  rewrite Hid, Ho in H. simpl in H. rewrite updated_row_same in H by done.
  exists o. split; [done|]. split; [done|]. inversion H; subst; simpl.
  split; [done|]. split; [|done]. by destruct w.
Qed.

Lemma UpdateOrderStatus_ok env w req resp w' kids :
  run env (UpdateOrderStatus req) w = (Some (OK resp), w', kids) ->
  exists o,
    orders w !! pb.us_OrderId req = Some o /\
    let o' := status_updated_order env (clock_reads w)
                (convertOrderStatusFromProto (pb.us_Status req))
                (pb.us_UpdatedBy req) (pb.us_Notes req) o in
    resp_Order resp = o' /\
    w' = set_orders (<[pb.us_OrderId req := o']> (orders w))
           (set_clock_reads (S (S (clock_reads w))) w) /\
    kids = [recordOnLedger o'].
Proof.
  intros H. unfold UpdateOrderStatus in H.
  destruct (String.eqb (pb.us_OrderId req) "") eqn:E1; [discriminate|].
  unfold getOrder, repository.GetOrderByID in H. simpl in H.
  destruct (orders w !! pb.us_OrderId req) as [o|] eqn:Ho; [|discriminate].
  simpl in H. rewrite Ho in H. simpl in H. rewrite Ho in H. simpl in H.
  rewrite lookup_insert_eq in H. simpl in H.
  exists o. split; [done|]. inversion H; subst; simpl.
  split; [done|]. split; [|done]. by destruct w.
Qed.

Lemma terminal_test s :
  String.eqb s model.StatusCompleted || String.eqb s model.StatusCancelled
    || String.eqb s model.StatusRefunded = true <-> terminal s.
Proof.
  unfold terminal. rewrite !orb_true_iff, !String.eqb_eq. tauto.
Qed.

Lemma run_CancelOrder env w req o :
  pb.co_OrderId req <> "" ->
  orders w !! pb.co_OrderId req = Some o ->
  run env (CancelOrder req) w =
  if String.eqb (model.Status o) model.StatusCompleted
     || String.eqb (model.Status o) model.StatusCancelled
     || String.eqb (model.Status o) model.StatusRefunded
  then (Some (Error FailedPrecondition "order cannot be cancelled in its current state"), w, [])
  else
    let o' := status_updated_order env (clock_reads w) model.StatusCancelled
                (pb.co_CancelledBy req) (pb.co_Reason req) o in
    (Some (OK {| resp_Order := o'; resp_Message := "Order cancelled successfully";
                 resp_Success := true |}),
     set_orders (<[pb.co_OrderId req := o']> (orders w))
       (set_clock_reads (S (S (clock_reads w))) w),
     [recordOnLedger o']).
Proof.
  intros Hid Ho. unfold CancelOrder. rewrite (eqb_empty_false _ Hid).
  unfold getOrder, repository.GetOrderByID. simpl. rewrite Ho. simpl.
  destruct (_ || _ || _)%bool; [reflexivity|].
  simpl. rewrite Ho. simpl. rewrite Ho. simpl.
  rewrite lookup_insert_eq. simpl. reflexivity.
Qed.

Lemma CancelOrder_ok env w req resp w' kids :
  run env (CancelOrder req) w = (Some (OK resp), w', kids) ->
  exists o,
    orders w !! pb.co_OrderId req = Some o /\
    let o' := status_updated_order env (clock_reads w) model.StatusCancelled
                (pb.co_CancelledBy req) (pb.co_Reason req) o in
    resp_Order resp = o' /\
    w' = set_orders (<[pb.co_OrderId req := o']> (orders w))
           (set_clock_reads (S (S (clock_reads w))) w) /\
    kids = [recordOnLedger o'].
Proof.
  intros H.
  destruct (String.eqb (pb.co_OrderId req) "") eqn:E1.
  { unfold CancelOrder in H. rewrite E1 in H. discriminate. }
  apply String.eqb_neq in E1.
  destruct (orders w !! pb.co_OrderId req) as [o|] eqn:Ho.
  - rewrite (run_CancelOrder env w req o E1 Ho) in H.
    destruct (_ || _ || _)%bool; [discriminate|].
    exists o. split; [done|]. by inversion H.
  - unfold CancelOrder in H. rewrite (eqb_empty_false _ E1) in H.
    unfold getOrder, repository.GetOrderByID in H. simpl in H. rewrite Ho in H.
    discriminate.
Qed.

Lemma CreateOrder_ok env w req resp w' kids :
  run env (CreateOrder req) w = (Some (OK resp), w', kids) ->
  let o := newOrder req (env_uuid env (uuid_draws w)) (env_clock env (clock_reads w)) in
  pb.cr_UserId req <> "" /\
  is_Some (pb.cr_PickupLocation req) /\ is_Some (pb.cr_DestinationLocation req) /\
  model.ID o <> "" /\
  orders w !! model.ID o = None /\
  resp_Order resp = o /\
  w' = set_orders (<[model.ID o := o]> (orders w))
         (set_clock_reads (S (clock_reads w)) (set_uuid_draws (S (uuid_draws w)) w)) /\
  kids = [recordOnLedger o].
Proof.
  intros H. unfold CreateOrder in H.
  destruct (String.eqb (pb.cr_UserId req) "") eqn:E1; [discriminate|].
  destruct (pb.cr_PickupLocation req) as [p|] eqn:Hp; [|discriminate].
  destruct (pb.cr_DestinationLocation req) as [d|] eqn:Hd; [|discriminate].
  simpl in H. unfold repository.CreateOrder in H. simpl in H. rewrite E1 in H.
  rewrite orb_false_r in H.
  destruct (String.eqb (env_uuid env (uuid_draws w)) "") eqn:E2; [discriminate|].
  simpl in H.
  destruct (orders w !! env_uuid env (uuid_draws w)) eqn:Hfresh; [discriminate|].
  simpl in H. apply String.eqb_neq in E1, E2.
  repeat split; try done; try by eexists.
  all: by inversion H.
Qed.

(* ===================================================================== *)
(** ** Insertion sort meets the contract of a sorting routine *)
(* ===================================================================== *)

Section InsertionSort.
Context {A : Type} (less : A -> A -> bool).

Lemma insert_left_perm x acc : Permutation (x :: acc) (insert_left less x acc).
Proof.
  induction acc as [|y ys IH]; simpl; [done|].
  destruct (less x y); [|done].
  rewrite perm_swap. by constructor.
Qed.

Lemma insertion_fold_perm l acc :
  Permutation (rev l ++ acc) (fold_left (fun acc x => insert_left less x acc) l acc).
Proof.
  revert acc. induction l as [|x l IH]; intros acc; simpl; [done|].
  rewrite <- IH, <- insert_left_perm, <- app_assoc. done.
Qed.

Lemma insertionSort_perm l : Permutation l (insertionSort less l).
Proof.
  unfold insertionSort. rewrite <- Permutation_rev, <- insertion_fold_perm.
  by rewrite app_nil_r, <- Permutation_rev.
Qed.

(** Elements of [l] among which [less] is an ordering. *)
Variable l : list A.
Hypothesis Hless : strict_weak_on less l.

Lemma less_asym a b : In a l -> In b l -> less a b = true -> less b a = false.
Proof.
  destruct Hless as (Hirr & Htr & _). intros Ha Hb Hab.
  destruct (less b a) eqn:Hba; [|done].
  rewrite <- (Hirr a Ha). symmetry. by apply (Htr a b a).
Qed.

Lemma insert_left_ordered x acc :
  In x l -> (forall z, In z acc -> In z l) ->
  rev_ordered less acc -> rev_ordered less (insert_left less x acc).
Proof.
  intros Hx. induction acc as [|y ys IH]; intros Hin Hs; simpl.
  - repeat constructor.
  - apply StronglySorted_inv in Hs as [Hys Hy].
    assert (Hyl : In y l) by (apply Hin; by left).
    destruct (less x y) eqn:Hxy.
    + constructor.
      * apply IH; [|done]. intros z Hz. apply Hin. by right.
      * apply Forall_forall. intros z Hz. apply list_elem_of_In in Hz.
        apply (Permutation_in _ (Permutation_sym (insert_left_perm x ys))) in Hz.
        destruct Hz as [<-|Hz]; [by apply less_asym|].
        rewrite Forall_forall in Hy. apply Hy. by apply list_elem_of_In.
    + constructor; [by constructor|].
      constructor; [done|].
      apply Forall_forall. intros z Hz. rewrite Forall_forall in Hy.
      destruct Hless as (_ & _ & Hneg).
      apply (Hneg x y z); auto.
      apply Hin. right. by apply list_elem_of_In.
Qed.

Lemma insertion_fold_ordered l' acc :
  (forall z, In z l' -> In z l) -> (forall z, In z acc -> In z l) ->
  rev_ordered less acc ->
  rev_ordered less (fold_left (fun acc x => insert_left less x acc) l' acc).
Proof.
  revert acc. induction l' as [|x l' IH]; intros acc Hl' Hacc Hs; simpl; [done|].
  apply IH.
  - intros z Hz. apply Hl'. by right.
  - intros z Hz.
    apply (Permutation_in _ (Permutation_sym (insert_left_perm x acc))) in Hz.
    destruct Hz as [<-|Hz]; [apply Hl'; by left | by apply Hacc].
  - apply insert_left_ordered; [apply Hl'; by left | done | done].
Qed.

Lemma rev_ordered_rev acc : rev_ordered less acc -> ordered_by less (rev acc).
Proof.
  unfold rev_ordered, ordered_by. induction acc as [|x acc IH]; intros Hs; simpl.
  - constructor.
  - apply StronglySorted_inv in Hs as [Hacc Hx].
    apply StronglySorted_app. split; [|split].
    + intros a b Ha Hb. apply list_elem_of_singleton in Hb as ->.
      rewrite Forall_forall in Hx. apply Hx.
      apply list_elem_of_In. apply in_rev. by apply list_elem_of_In.
    + by apply IH.
    + repeat constructor.
Qed.

Lemma insertionSort_ordered : ordered_by less (insertionSort less l).
Proof.
  apply rev_ordered_rev, insertion_fold_ordered; try done. constructor.
Qed.

End InsertionSort.

Lemma insertionSort_sorts : sorts (@insertionSort).
Proof.
  split.
  - intros A less l. apply insertionSort_perm.
  - intros A less l H. by apply insertionSort_ordered.
Qed.

(* ===================================================================== *)
(** ** CancelOrder *)
(* ===================================================================== *)

Lemma wf_demo_world : wf_store demo_world.
Proof.
  intros id o H. unfold demo_world in H. simpl in H.
  apply lookup_insert_Some in H as [[<- <-]|[_ H]]; [reflexivity|].
  by rewrite lookup_empty in H.
Qed.

(** C6.  For an order present in the store, [CancelOrder] answers
    [FailedPrecondition] exactly when the current status is [COMPLETED],
    [CANCELLED] or [REFUNDED], and then leaves the world as it was.  For every
    other status it answers with success: the stored order has status
    [CANCELLED] and its history is the old history followed by one entry that
    carries [CANCELLED], the supplied actor and the supplied reason. *)
Theorem CancelOrder_precondition (env : Env) (w : World)
    (req : pb.CancelOrderRequest) (o : model.Order) :
  pb.co_OrderId req <> "" ->
  orders w !! pb.co_OrderId req = Some o ->
  let '(r, w', _) := run env (CancelOrder req) w in
  ((exists msg, r = Some (Error FailedPrecondition msg)) <->
     terminal (model.Status o)) /\
  (terminal (model.Status o) -> w' = w) /\
  (~ terminal (model.Status o) ->
     exists resp t,
       r = Some (OK resp) /\
       orders w' !! pb.co_OrderId req = Some (resp_Order resp) /\
       model.Status (resp_Order resp) = model.StatusCancelled /\
       model.StatusHistory_ (resp_Order resp) =
         model.StatusHistory_ o ++
           [ {| model.sh_Status := model.StatusCancelled;
                model.sh_UpdatedBy := pb.co_CancelledBy req;
                model.sh_Notes := pb.co_Reason req;
                model.sh_Timestamp := t |} ]).
Proof.
  intros Hid Ho. rewrite (run_CancelOrder env w req o Hid Ho).
  pose proof (terminal_test (model.Status o)) as Ht.
  destruct (_ || _ || _)%bool.
  - assert (terminal (model.Status o)) as Hterm by (by apply Ht).
    split; [|split]; [split; eauto | done | tauto].
  - assert (~ terminal (model.Status o)) as Hterm.
    { intros H. apply Ht in H. discriminate. }
    split; [|split].
    + split; [intros [msg H]; discriminate | tauto].
    + tauto.
    + intros _. eexists _, _. split; [reflexivity|]. simpl.
      rewrite lookup_insert_eq. done.
Qed.

Lemma CancelOrder_precondition_witness :
  pb.co_OrderId demo_cancel <> "" /\
  orders demo_world !! pb.co_OrderId demo_cancel = Some demo_order /\
  let '(r, w', _) := run demo_env (CancelOrder demo_cancel) demo_world in
  exists resp, r = Some (OK resp) /\
    model.Status (resp_Order resp) = model.StatusCancelled.
Proof.
  split; [discriminate|]. split; [reflexivity|].
  pose proof (CancelOrder_precondition demo_env demo_world demo_cancel demo_order
    ltac:(discriminate) ltac:(reflexivity)) as H.
  destruct (run demo_env _ demo_world) as [[r w'] kids].
  destruct H as (_ & _ & H).
  destruct H as (resp & t & Hr & _ & Hs & _).
  - unfold terminal. simpl. intros [H|[H|H]]; discriminate.
  - eauto.
Defined.

(* ===================================================================== *)
(** ** RejectOrder *)
(* ===================================================================== *)

Lemma run_RejectOrder env srt w req o :
  wf_store w ->
  pb.ro_OrderId req <> "" -> pb.ro_ProviderId req <> "" ->
  orders w !! pb.ro_OrderId req = Some o ->
  model.ProviderID o = pb.ro_ProviderId req ->
  let o' := rejected_order env (clock_reads w) (pb.ro_ProviderId req)
              (pb.ro_Reason req) o in
  run env (RejectOrder srt req) w =
  (Some (OK {| resp_Order := o'; resp_Message := "Order rejected successfully";
               resp_Success := true |}),
   set_orders (<[pb.ro_OrderId req := o']> (orders w))
     (set_clock_reads (S (S (S (S (clock_reads w))))) w),
   [recordOnLedger o'; rematch srt o']).
Proof.
  intros Hwf E1 E2 Ho Hp. unfold RejectOrder.
  rewrite (eqb_empty_false _ E1), (eqb_empty_false _ E2). simpl.
  unfold getOrder, repository.GetOrderByID. simpl. rewrite Ho. simpl.
  rewrite Hp, String.eqb_refl. simpl.
  pose proof (Hwf _ _ Ho) as Hid.
  unfold repository.UpdateOrder. simpl. rewrite Hid, (eqb_empty_false _ E1). simpl.
  rewrite Hid, Ho. simpl. rewrite updated_row_same by done.
  by destruct w.
Qed.

(** C7.  When [RejectOrder] returns successfully, the store already holds the
    order with an empty provider ID, status [PROVIDER_REJECTED] and the old
    history followed by one [PROVIDER_REJECTED] entry carrying the rejecting
    provider and the reason.  The rematch has not run by then: it is one of
    the two goroutines the call leaves behind, the provider directory has
    received no query, and the result is the same whatever the directory,
    the notifier and the ledger would answer. *)
Theorem RejectOrder_clears_provider (env : Env) (srt : Sorter) (w : World)
    (req : pb.RejectOrderRequest) (resp : OrderResponse) (w' : World)
    (kids : list (Prog unit)) :
  wf_store w ->
  run env (RejectOrder srt req) w = (Some (OK resp), w', kids) ->
  exists o t,
    orders w !! pb.ro_OrderId req = Some o /\
    orders w' !! pb.ro_OrderId req = Some (resp_Order resp) /\
    model.ProviderID (resp_Order resp) = "" /\
    model.Status (resp_Order resp) = model.StatusProviderRejected /\
    model.StatusHistory_ (resp_Order resp) =
      model.StatusHistory_ o ++
        [ {| model.sh_Status := model.StatusProviderRejected;
             model.sh_UpdatedBy := pb.ro_ProviderId req;
             model.sh_Notes := pb.ro_Reason req;
             model.sh_Timestamp := t |} ] /\
    kids = [recordOnLedger (resp_Order resp); rematch srt (resp_Order resp)] /\
    dir_queries w' = dir_queries w /\
    dir_notified w' = dir_notified w /\
    (forall env' : Env, env_clock env' = env_clock env ->
       run env' (RejectOrder srt req) w = (Some (OK resp), w', kids)).
Proof.
  intros Hwf H.
  destruct (RejectOrder_ok env srt w req resp w' kids Hwf H)
    as (o & Ho & Hp & Hresp & Hw' & Hkids).
  assert (E1 : pb.ro_OrderId req <> "").
  { intros E. unfold RejectOrder in H. rewrite E in H. discriminate. }
  assert (E2 : pb.ro_ProviderId req <> "").
  { intros E. unfold RejectOrder in H. rewrite E, orb_true_r in H. discriminate. }
  clear Hresp Hw' Hkids.
  pose proof (run_RejectOrder env srt w req o Hwf E1 E2 Ho Hp) as Hrun.
  cbv zeta in Hrun. rewrite Hrun in H. inversion H; subst resp w' kids; clear H.
  exists o, (env_clock env (S (clock_reads w))). simpl.
  rewrite lookup_insert_eq. repeat split; try done.
  intros env' Hclock.
  rewrite (run_RejectOrder env' srt w req o Hwf E1 E2 Ho Hp).
  unfold rejected_order. by rewrite Hclock.
Qed.

Lemma RejectOrder_clears_provider_witness :
  wf_store demo_world /\
  exists resp w' kids,
    run demo_env (RejectOrder (@insertionSort) demo_reject) demo_world
      = (Some (OK resp), w', kids) /\
    orders w' !! "order-1" = Some (resp_Order resp) /\
    model.ProviderID (resp_Order resp) = "".
Proof.
  split; [exact wf_demo_world|].
  destruct (run demo_env (RejectOrder (@insertionSort) demo_reject) demo_world)
    as [[r w'] kids] eqn:Hrun.
  assert (exists resp, r = Some (OK resp)) as [resp ->].
  { rewrite (run_RejectOrder demo_env (@insertionSort) demo_world demo_reject
               demo_order wf_demo_world ltac:(discriminate) ltac:(discriminate)
               ltac:(reflexivity) ltac:(reflexivity)) in Hrun.
    inversion Hrun. eauto. }
  destruct (RejectOrder_clears_provider demo_env (@insertionSort) demo_world
              demo_reject resp w' kids wf_demo_world Hrun)
    as (o & t & _ & Hstore & Hprov & _).
  exists resp, w', kids. auto.
Defined.

(* ===================================================================== *)
(** ** The status history grows by one entry per accepted operation *)
(* ===================================================================== *)

Lemma handle_ok env srt w rq resp w' kids :
  wf_store w ->
  run env (handle srt rq) w = (Some (OK resp), w', kids) ->
  wrote_one_entry w w' (resp_Order resp) (is_create rq).
Proof.
  intros Hwf H. destruct rq as [req|req|req|req|req|req]; simpl in H.
  - apply CreateOrder_ok in H as (_ & _ & _ & _ & Hfresh & -> & -> & _).
    split; [done|]. eexists. split; [|split; [exact Hfresh|reflexivity]]. done.
  - apply UpdateOrderStatus_ok in H as (o & Ho & -> & -> & _).
    pose proof (Hwf _ _ Ho) as Hid. unfold wrote_one_entry. simpl. rewrite Hid.
    split; [done|]. eexists. split; [|exists o; split; [done|reflexivity]]. done.
  - apply CancelOrder_ok in H as (o & Ho & -> & -> & _).
    pose proof (Hwf _ _ Ho) as Hid. unfold wrote_one_entry. simpl. rewrite Hid.
    split; [done|]. eexists. split; [|exists o; split; [done|reflexivity]]. done.
  - apply AssignProvider_ok in H as (o & pid & Ho & -> & Hw'); [|done].
    pose proof (Hwf _ _ Ho) as Hid. unfold wrote_one_entry. simpl. rewrite Hid, Hw'.
    split; [done|]. eexists. split; [|exists o; split; [done|reflexivity]]. done.
  - apply AcceptOrder_ok in H as (o & Ho & _ & -> & Hw'); [|done].
    pose proof (Hwf _ _ Ho) as Hid. unfold wrote_one_entry. simpl. rewrite Hid, Hw'.
    split; [done|]. eexists. split; [|exists o; split; [done|reflexivity]]. done.
  - apply RejectOrder_ok in H as (o & Ho & _ & -> & -> & _); [|done].
    pose proof (Hwf _ _ Ho) as Hid. unfold wrote_one_entry. simpl. rewrite Hid.
    split; [done|]. eexists. split; [|exists o; split; [done|reflexivity]]. done.
Qed.

(** C2.  After every accepted [Create], [UpdateStatus], [Cancel],
    [AssignProvider], [AcceptOrder] or [RejectOrder], run from a store whose
    rows sit under their own IDs: the stored order is the replied one and the
    last entry of its history carries its status; [Create] stores a new row
    whose history has exactly one entry; every other operation leaves the old
    history in place as a prefix and adds exactly one entry, so the length
    grows by one; no other row changes; and a store in which every history
    ends in the order's status stays such a store. *)
Theorem history_append_only (env : Env) (srt : Sorter) (w : World) (rq : Request)
    (resp : OrderResponse) (w' : World) (kids : list (Prog unit)) :
  wf_store w ->
  run env (handle srt rq) w = (Some (OK resp), w', kids) ->
  let o' := resp_Order resp in
  orders w' !! model.ID o' = Some o' /\
  history_matches_status o' /\
  (if is_create rq then
     orders w !! model.ID o' = None /\ length (model.StatusHistory_ o') = 1%nat
   else
     exists o e,
       orders w !! model.ID o' = Some o /\
       model.StatusHistory_ o' = model.StatusHistory_ o ++ [e] /\
       length (model.StatusHistory_ o') = S (length (model.StatusHistory_ o))) /\
  (forall id, id <> model.ID o' -> orders w' !! id = orders w !! id) /\
  wf_store w' /\
  (store_consistent w -> store_consistent w').
Proof.
  intros Hwf H o'.
  destruct (handle_ok env srt w rq resp w' kids Hwf H) as (Hw' & e & He & Hhist).
  fold o' in Hw', He, Hhist.
  assert (Hmatch : history_matches_status o').
  { exists e. split; [|done].
    destruct (is_create rq).
    - destruct Hhist as (_ & ->). done.
    - destruct Hhist as (o & _ & ->). apply last_snoc. }
  split; [by rewrite Hw', lookup_insert_eq|]. split; [done|].
  split; [|split; [|split]].
  - destruct (is_create rq).
    + destruct Hhist as (Hnone & ->). done.
    + destruct Hhist as (o & Ho & Hh). exists o, e. split; [done|]. split; [done|].
      rewrite Hh, length_app. simpl. lia.
  - intros id Hne. rewrite Hw'. by rewrite lookup_insert_ne.
  - intros id o Ho. rewrite Hw' in Ho.
    apply lookup_insert_Some in Ho as [[<- <-]|[_ Ho]]; [done|by apply Hwf].
  - intros Hc id o Ho. rewrite Hw' in Ho.
    apply lookup_insert_Some in Ho as [[_ <-]|[_ Ho]]; [done|by apply (Hc id)].
Qed.

Lemma history_append_only_witness :
  wf_store demo_world /\
  exists resp w' kids,
    run demo_env (handle (@insertionSort) (ReqAccept demo_accept)) demo_world
      = (Some (OK resp), w', kids) /\
    orders w' !! "order-1" = Some (resp_Order resp) /\
    length (model.StatusHistory_ (resp_Order resp)) = 3%nat.
Proof.
  split; [exact wf_demo_world|].
  destruct (run demo_env (handle (@insertionSort) (ReqAccept demo_accept)) demo_world)
    as [[r w'] kids] eqn:Hrun.
  assert (exists resp, r = Some (OK resp) /\ model.ID (resp_Order resp) = "order-1"
            /\ length (model.StatusHistory_ (resp_Order resp)) = 3%nat)
    as (resp & -> & Hid & Hlen).
  { vm_compute in Hrun. inversion Hrun. eexists. split; [reflexivity|]. split; reflexivity. }
  destruct (history_append_only demo_env (@insertionSort) demo_world
              (ReqAccept demo_accept) resp w' kids wf_demo_world Hrun)
    as (Hstore & _).
  exists resp, w', kids. rewrite Hid in Hstore. auto.
Defined.

(* ===================================================================== *)
(** ** CreateOrder: total price and fees *)
(* ===================================================================== *)

Lemma fold_left_sum_first (terms : list float) (n : nat) :
  (n <= length terms)%nat ->
  fold_left (fun total x => (total + x)%float) (firstn n terms) 0%float
  = sum_first terms n.
Proof.
  induction n as [|k IH]; intros Hn; [reflexivity|].
  assert (Hk : (k < length terms)%nat) by lia.
  destruct (lookup_lt_is_Some_2 terms k Hk) as [x Hx].
  rewrite (take_S_r terms k x Hx), fold_left_app. simpl.
  rewrite IH by lia. by rewrite nth_lookup, Hx.
Qed.

Lemma calculateTotalPrice_sum (items : model.OrderItems) :
  calculateTotalPrice items = float_sum (map line_total items).
Proof.
  unfold float_sum. rewrite <- fold_left_sum_first by done.
  rewrite firstn_all. unfold calculateTotalPrice.
  generalize 0%float. induction items as [|item items IH]; intros acc; simpl; [done|].
  apply IH.
Qed.

Lemma convertOrderItems_map (items : list pb.OrderItem) :
  convertOrderItems items = map converted_item items.
Proof.
  unfold convertOrderItems.
  assert (forall acc, fold_left
            (fun orderItems item => orderItems ++ [converted_item item]) items acc
          = acc ++ map converted_item items) as H.
  { induction items as [|item items IH]; intros acc; simpl.
    - by rewrite app_nil_r.
    - rewrite IH, <- app_assoc. reflexivity. }
  apply (H []).
Qed.

(** C1.  The order replied by a successful [CreateOrder] has the items of
    the request; its total price is the sum, in item order, of price times
    quantity; its platform fee is the total times 0.1 and its provider fee
    the total times 0.8 (binary64 products, as the code computes them); its
    status is [CREATED], its history has one entry, and it is the row stored
    under its ID.  For items priced 10 with quantity 2 and 5 with quantity 1
    the three amounts are exactly 25, 2.5 and 20. *)
Theorem CreateOrder_totals (env : Env) (w : World) (req : pb.CreateOrderRequest)
    (resp : OrderResponse) (w' : World) (kids : list (Prog unit)) :
  run env (CreateOrder req) w = (Some (OK resp), w', kids) ->
  let o := resp_Order resp in
  model.Items o = map converted_item (pb.cr_Items req) /\
  model.TotalPrice o = float_sum (map line_total (model.Items o)) /\
  model.PlatformFee o = (model.TotalPrice o * 0.1)%float /\
  model.ProviderFee o = (model.TotalPrice o * 0.8)%float /\
  model.Status o = model.StatusCreated /\
  length (model.StatusHistory_ o) = 1%nat /\
  orders w' !! model.ID o = Some o /\
  (map (fun item => (pb.Price item, pb.Quantity item)) (pb.cr_Items req)
     = [(10%float, 2); (5%float, 1)] ->
   model.TotalPrice o = 25%float /\
   model.PlatformFee o = 2.5%float /\
   model.ProviderFee o = 20%float).
Proof.
  intros H o. subst o.
  apply CreateOrder_ok in H as (_ & _ & _ & _ & _ & -> & -> & _).
  simpl. rewrite lookup_insert_eq, <- calculateTotalPrice_sum, convertOrderItems_map.
  repeat split; try reflexivity.
  all: destruct (pb.cr_Items req) as [|i1 [|i2 [|i3 rest]]]; try discriminate.
  all: destruct i1, i2; simpl in H; inversion H; subst; reflexivity.
Qed.

Lemma CreateOrder_totals_witness :
  exists resp w' kids,
    run demo_env (CreateOrder demo_create) empty_world = (Some (OK resp), w', kids) /\
    model.TotalPrice (resp_Order resp) = 25%float /\
    model.PlatformFee (resp_Order resp) = 2.5%float /\
    model.ProviderFee (resp_Order resp) = 20%float /\
    model.Status (resp_Order resp) = "CREATED" /\
    length (model.StatusHistory_ (resp_Order resp)) = 1%nat.
Proof.
  destruct (run demo_env (CreateOrder demo_create) empty_world)
    as [[r w'] kids] eqn:Hrun.
  assert (exists resp, r = Some (OK resp)) as [resp ->].
  { vm_compute in Hrun. inversion Hrun. eauto. }
  destruct (CreateOrder_totals demo_env empty_world demo_create resp w' kids Hrun)
    as (_ & _ & _ & _ & Hst & Hlen & _ & Hnum).
  destruct (Hnum eq_refl) as (Ht & Hp & Hf).
  exists resp, w', kids. auto 10.
Defined.

(* ===================================================================== *)
(** ** CreateOrder: unknown order types and payment methods *)
(* ===================================================================== *)

Lemma convertOrderType_default (ot : pb.OrderType) :
  ~ recognized ot -> convertOrderType ot = model.TypeRide.
Proof.
  unfold recognized, convertOrderType, pb.OrderType_ORDER_TYPE_RIDE,
    pb.OrderType_ORDER_TYPE_FOOD_DELIVERY, pb.OrderType_ORDER_TYPE_PACKAGE_DELIVERY,
    pb.OrderType_ORDER_TYPE_GROCERY_DELIVERY, pb.OrderType_ORDER_TYPE_SERVICE_BOOKING.
  intros H.
  repeat match goal with |- context [ot =? ?b] =>
           destruct (Z.eqb_spec ot b); [lia|] end.
  reflexivity.
Qed.

Lemma convertPaymentMethod_default (pm : pb.PaymentMethod) :
  ~ recognized pm -> convertPaymentMethod pm = model.PaymentCreditCard.
Proof.
  unfold recognized, convertPaymentMethod, pb.PaymentMethod_PAYMENT_METHOD_CREDIT_CARD,
    pb.PaymentMethod_PAYMENT_METHOD_DEBIT_CARD,
    pb.PaymentMethod_PAYMENT_METHOD_DIGITAL_WALLET,
    pb.PaymentMethod_PAYMENT_METHOD_CASH, pb.PaymentMethod_PAYMENT_METHOD_CRYPTO.
  intros H.
  repeat match goal with |- context [pm =? ?b] =>
           destruct (Z.eqb_spec pm b); [lia|] end.
  reflexivity.
Qed.

Lemma run_CreateOrder env w req :
  pb.cr_UserId req <> "" ->
  is_Some (pb.cr_PickupLocation req) ->
  is_Some (pb.cr_DestinationLocation req) ->
  env_uuid env (uuid_draws w) <> "" ->
  orders w !! env_uuid env (uuid_draws w) = None ->
  let o := newOrder req (env_uuid env (uuid_draws w))
             (env_clock env (clock_reads w)) in
  run env (CreateOrder req) w =
  (Some (OK {| resp_Order := o; resp_Message := "Order created successfully";
               resp_Success := true |}),
   set_orders (<[model.ID o := o]> (orders w))
     (set_clock_reads (S (clock_reads w)) (set_uuid_draws (S (uuid_draws w)) w)),
   [recordOnLedger o]).
Proof.
  intros Hu [p Hp] [d Hd] Hid Hfresh. unfold CreateOrder.
  rewrite (eqb_empty_false _ Hu), Hp, Hd. simpl.
  unfold repository.CreateOrder. simpl.
  rewrite (eqb_empty_false _ Hu), (eqb_empty_false _ Hid). simpl.
  rewrite Hfresh. reflexivity.
Qed.

(** C10.  [convertOrderType] maps every value other than the five named
    order types, [UNSPECIFIED] included, to [RIDE], and
    [convertPaymentMethod] maps every value other than the five named
    payment methods to [CREDIT_CARD].  [CreateOrder] does not look at either
    field when it validates: a request with a user ID and both locations,
    given a fresh identifier, is accepted whatever the two values are, and
    the created order carries the converted values. *)
Theorem unknown_enums_default (env : Env) (w : World) (req : pb.CreateOrderRequest) :
  pb.cr_UserId req <> "" ->
  is_Some (pb.cr_PickupLocation req) ->
  is_Some (pb.cr_DestinationLocation req) ->
  env_uuid env (uuid_draws w) <> "" ->
  orders w !! env_uuid env (uuid_draws w) = None ->
  exists resp w' kids,
    run env (CreateOrder req) w = (Some (OK resp), w', kids) /\
    model.OrderType_ (resp_Order resp) = convertOrderType (pb.cr_OrderType req) /\
    model.PaymentMethod_ (resp_Order resp)
      = convertPaymentMethod (pb.cr_PaymentMethod req) /\
    (~ recognized (pb.cr_OrderType req) ->
       model.OrderType_ (resp_Order resp) = model.TypeRide) /\
    (~ recognized (pb.cr_PaymentMethod req) ->
       model.PaymentMethod_ (resp_Order resp) = model.PaymentCreditCard).
Proof.
  intros Hu Hp Hd Hid Hfresh.
  eexists _, _, _. split; [apply (run_CreateOrder env w req Hu Hp Hd Hid Hfresh)|].
  simpl. split; [reflexivity|]. split; [reflexivity|].
  split; [apply convertOrderType_default | apply convertPaymentMethod_default].
Qed.

Lemma unknown_enums_default_witness :
  exists resp w' kids,
    run demo_env (CreateOrder demo_create_unknown) empty_world
      = (Some (OK resp), w', kids) /\
    model.OrderType_ (resp_Order resp) = "RIDE" /\
    model.PaymentMethod_ (resp_Order resp) = "CREDIT_CARD".
Proof.
  destruct (unknown_enums_default demo_env empty_world demo_create_unknown)
    as (resp & w' & kids & Hrun & _ & _ & Hot & Hpm).
  - discriminate.
  - by eexists.
  - by eexists.
  - discriminate.
  - reflexivity.
  - exists resp, w', kids. split; [exact Hrun|]. split.
    + apply Hot. unfold recognized. simpl.
      unfold pb.OrderType_ORDER_TYPE_UNSPECIFIED. lia.
    + apply Hpm. unfold recognized. simpl. lia.
Defined.

(* ===================================================================== *)
(** ** FindBestProviders: the two directory queries *)
(* ===================================================================== *)

Lemma rankAndLimit_no_call env srt ps N w :
  run env (rankAndLimit srt ps N) w = ((run env (rankAndLimit srt ps N) w).1.1, w, []).
Proof.
  destruct (run_rankAndLimit env srt ps N w) as [r ->]. reflexivity.
Qed.

(** C5.  [FindBestProviders] first asks the directory at radius 5 around the
    pickup location.  It asks again, at radius 10, exactly when the first
    call succeeded with fewer than [maxProviders] candidates; it makes no
    other query.  When it asks again, the first answer is dropped: the
    outcome is an error if the second call fails, and otherwise the ranking
    of the second answer alone. *)
Theorem FindBestProviders_widening (env : Env) (srt : Sorter) (order : model.Order)
    (maxProviders : Z) (w : World) :
  let q5 := matcher_query order 5 in
  let q10 := matcher_query order 10 in
  let first := env_directory env (dir_queries w) q5 in
  let second := env_directory env (dir_queries w ++ [q5]) q10 in
  let '(r, w', _) := run env (FindBestProviders srt order maxProviders) w in
  match first with
  | None =>
      dir_queries w' = dir_queries w ++ [q5] /\
      r = Some (fail (Errorf "failed to find providers"))
  | Some providers =>
      if Z.of_nat (length providers) <? maxProviders then
        dir_queries w' = dir_queries w ++ [q5; q10] /\
        match second with
        | None =>
            r = Some (fail (Errorf "failed to find providers with increased radius"))
        | Some providers' =>
            run env (rankAndLimit srt providers' maxProviders) w' = (r, w', [])
        end
      else
        dir_queries w' = dir_queries w ++ [q5] /\
        run env (rankAndLimit srt providers maxProviders) w' = (r, w', [])
  end.
Proof.
  intros q5 q10 first second. subst q5 q10 first second.
  unfold FindBestProviders, matcher_query. simpl.
  destruct (env_directory env (dir_queries w) _) as [ps|]; simpl; [|done].
  destruct (_ <? _); simpl.
  - destruct (env_directory env _ _) as [ps'|]; simpl.
    + rewrite rankAndLimit_no_call. simpl. rewrite <- app_assoc. split; [done|].
      rewrite rankAndLimit_no_call at 1. simpl.
      by rewrite (rankAndLimit_no_call env srt ps' maxProviders).
    + rewrite <- app_assoc. done.
  - rewrite rankAndLimit_no_call. simpl. split; [done|].
    rewrite rankAndLimit_no_call at 1. simpl.
    by rewrite (rankAndLimit_no_call env srt ps maxProviders).
Qed.

(* ===================================================================== *)
(** ** Listing orders: pagination, filter and order *)
(* ===================================================================== *)

Lemma StronglySorted_sublist {A} (R : A -> A -> Prop) (l1 l2 : list A) :
  sublist l1 l2 -> StronglySorted R l2 -> StronglySorted R l1.
Proof.
  induction 1 as [|x l1 l2 Hsub IH|x l1 l2 Hsub IH]; intros Hs.
  - constructor.
  - apply StronglySorted_inv in Hs as [Hs Hx]. constructor; [by apply IH|].
    apply Forall_forall. intros y Hy. rewrite Forall_forall in Hx. apply Hx.
    by apply (sublist_subseteq _ _ Hsub).
  - apply StronglySorted_inv in Hs as [Hs _]. by apply IH.
Qed.

Lemma StronglySorted_weaken {A} (R R' : A -> A -> Prop) (l : list A) :
  (forall a b, R a b -> R' a b) -> StronglySorted R l -> StronglySorted R' l.
Proof.
  intros HR. induction 1 as [|x l Hs IH Hx]; constructor; [done|].
  eapply Forall_impl; [exact Hx|]. intros y. apply HR.
Qed.

Lemma created_later_strict_weak (l : list model.Order) :
  strict_weak_on created_later l.
Proof.
  unfold strict_weak_on, created_later. repeat split.
  - intros a _. apply Z.ltb_irrefl.
  - intros a b c _ _ _. rewrite !Z.ltb_lt. lia.
  - intros a b c _ _ _. rewrite !Z.ltb_ge. lia.
Qed.

Lemma row_matches_spec col key status o :
  row_matches col key status o = true <->
  owner col o = key /\ (status <> "" -> model.Status o = status).
Proof.
  unfold row_matches, owner. rewrite andb_true_iff.
  destruct (String.eqb_spec status "") as [->|Hs].
  - destruct col; rewrite String.eqb_eq; tauto.
  - destruct col; rewrite !String.eqb_eq; tauto.
Qed.

(** C8.  [ListUserOrders] and [ListProviderOrders] change nothing and return
    a page and a total where
    - the page number used is 1 when the requested one is below 1, and the
      requested one otherwise;
    - the limit used is the requested one when it lies in [1, 100] and 10
      otherwise, so it always lies in [1, 100];
    - the total is the number of rows of the owner, restricted to the given
      status when one is given;
    - the page is the segment of [limit] rows after the first
      [(page - 1) * limit] of those rows arranged by creation time, latest
      first; every row on it belongs to the owner and has the given status,
      and it holds at most [limit] rows. *)
Theorem list_orders_page (env : Env) (col : OwnerColumn) (key : string)
    (page limit : Z) (status : model.OrderStatus) (w : World) :
  sorts (env_order_by env) ->
  let page' := if page <? 1 then 1 else page in
  let limit' := if (1 <=? limit) && (limit <=? 100) then limit else 10 in
  let matching :=
    filter (fun o => row_matches col key status o = true) (table_rows w) in
  exists rows sorted,
    run env (repository_list col key page limit status) w
      = (Some (rows, Z.of_nat (length matching)), w, []) /\
    (page < 1 -> page' = 1) /\ (1 <= page -> page' = page) /\
    1 <= limit' <= 100 /\
    Permutation matching sorted /\
    StronglySorted (fun a b => model.CreatedAt b <= model.CreatedAt a) sorted /\
    rows = take (Z.to_nat limit') (drop (Z.to_nat ((page' - 1) * limit')) sorted) /\
    StronglySorted (fun a b => model.CreatedAt b <= model.CreatedAt a) rows /\
    Forall (fun o => owner col o = key /\
                     (status <> "" -> model.Status o = status)) rows /\
    (length rows <= Z.to_nat limit')%nat.
Proof.
  intros Hsorts page' limit' matching.
  exists (take (Z.to_nat limit') (drop (Z.to_nat ((page' - 1) * limit'))
            (env_order_by env _ created_later matching))),
         (env_order_by env _ created_later matching).
  assert (Hsorted : StronglySorted
            (fun a b => model.CreatedAt b <= model.CreatedAt a)
            (env_order_by env _ created_later matching)).
  { pose proof (sort_ordered _ Hsorts _ created_later matching
                  (created_later_strict_weak matching)) as Ho.
    unfold ordered_by, created_later in Ho.
    eapply StronglySorted_weaken; [|exact Ho].
    intros a b. simpl. rewrite Z.ltb_ge. done. }
  assert (Hlimit : limit' = if (limit <? 1) || (limit >? 100) then 10 else limit).
  { subst limit'. rewrite Z.gtb_ltb.
    destruct (Z.leb_spec 1 limit), (Z.leb_spec limit 100),
      (Z.ltb_spec limit 1), (Z.ltb_spec 100 limit); simpl; lia. }
  split; [|split; [|split; [|split; [|split; [|split; [|split; [|split; [|split]]]]]]]].
  - destruct col; unfold repository_list, repository.ListUserOrders,
      repository.ListProviderOrders, repository.listOrders; simpl;
      fold matching; fold page'; rewrite <- Hlimit; reflexivity.
  - subst page'. destruct (Z.ltb_spec page 1); lia.
  - subst page'. destruct (Z.ltb_spec page 1); lia.
  - subst limit'. destruct (Z.leb_spec 1 limit), (Z.leb_spec limit 100); simpl; lia.
  - apply (sort_perm _ Hsorts).
  - exact Hsorted.
  - reflexivity.
  - eapply StronglySorted_sublist; [apply sublist_take|].
    eapply StronglySorted_sublist; [apply sublist_drop|]. exact Hsorted.
  - apply Forall_take, Forall_drop, Forall_forall. intros o Ho.
    apply list_elem_of_In in Ho.
    apply (Permutation_in _ (Permutation_sym
             (sort_perm _ Hsorts _ created_later matching))) in Ho.
    apply list_elem_of_In in Ho. subst matching.
    apply list_elem_of_filter in Ho as [Ho _]. by apply row_matches_spec.
  - rewrite length_take. lia.
Qed.

(** Eleven rows match and the requested limit is 500.  Clamping 500 into
    [1, 100] would give 100 and return all eleven rows; the code uses 10 and
    returns ten. *)
Lemma list_limit_not_clamped :
  exists rows,
    run demo_env (repository.ListUserOrders "u1" 1 500 "") eleven_orders_world
      = (Some (rows, 11), eleven_orders_world, []) /\
    length rows = 10%nat /\
    clamp 1 100 500 = 100 /\
    (length rows < Z.to_nat (Z.min 11 (clamp 1 100 500)))%nat.
Proof.
  eexists. split; [vm_compute; reflexivity|]. vm_compute. repeat split; lia.
Qed.

Lemma list_orders_page_witness :
  sorts (env_order_by demo_env) /\
  exists rows total,
    run demo_env (repository.ListUserOrders "u1" 1 500 "") eleven_orders_world
      = (Some (rows, total), eleven_orders_world, []) /\
    (length rows <= 10)%nat.
Proof.
  split; [exact insertionSort_sorts|].
  destruct (list_orders_page demo_env by_user_id "u1" 1 500 "" eleven_orders_world
              insertionSort_sorts)
    as (rows & sorted & Hrun & _ & _ & _ & _ & _ & _ & _ & _ & Hlen).
  exists rows. eexists. split; [exact Hrun|exact Hlen].
Defined.

(* ===================================================================== *)
(** ** Two requests on one order, served concurrently *)
(* ===================================================================== *)

(** C3 (what the code does).  Order [order-1] has provider [p1] assigned.
    [AcceptOrder] by [p1] and [UpdateOrderStatus] to [IN_PROGRESS] are served
    concurrently under [lost_update_schedule].  Both calls reply with
    success, and the reply of [UpdateOrderStatus] shows its [IN_PROGRESS]
    entry; but the stored history ends up without it: [AcceptOrder] wrote
    back the history it had read before, plus its own entry. *)
Theorem concurrent_accept_loses_entry :
  let '(p, q, w') :=
    interleave demo_env lost_update_schedule
      (AcceptOrder demo_accept) (UpdateOrderStatus demo_update) demo_world in
  exists r1 r2 stored,
    finished p = Some (OK r1) /\
    finished q = Some (OK r2) /\
    history_statuses (resp_Order r2)
      = ["CREATED"; "PROVIDER_ASSIGNED"; "IN_PROGRESS"] /\
    orders w' !! "order-1" = Some stored /\
    history_statuses stored = ["CREATED"; "PROVIDER_ASSIGNED"; "PROVIDER_ACCEPTED"] /\
    model.Status stored = "PROVIDER_ACCEPTED".
Proof.
  vm_compute. eexists _, _, _. repeat split; reflexivity.
Qed.

(** The sibling path: two [UpdateOrderStatus] calls on the same order keep
    both entries under every one of the 4096 schedules of twelve steps that
    lets both calls finish, and some schedule does. *)
Lemma concurrent_status_updates_serialize :
  forallb (fun s => implb (both_finished s) (both_entries_kept s)) (schedules 12) = true
  /\ existsb both_finished (schedules 12) = true.
Proof. split; vm_compute; reflexivity. Qed.

(** The ledger goroutine writes a whole row back as well.  An order is
    created; its status is updated to [PAYMENT_PENDING]; then the goroutine
    that [CreateOrder] started finishes recording and saves its copy of the
    order: the row is back at status [CREATED] with a one-entry history. *)
Lemma ledger_write_back_drops_entry :
  let '(_, w1, kids) := run demo_env (CreateOrder demo_create) empty_world in
  let '(r2, w2, _) := run demo_env (UpdateOrderStatus demo_pay) w1 in
  let w3 := run_detached demo_env kids w2 in
  exists resp stored2 stored3,
    r2 = Some (OK resp) /\
    orders w2 !! "order-1" = Some stored2 /\
    history_statuses stored2 = ["CREATED"; "PAYMENT_PENDING"] /\
    orders w3 !! "order-1" = Some stored3 /\
    history_statuses stored3 = ["CREATED"] /\
    model.Status stored3 = "CREATED".
Proof.
  vm_compute. eexists _, _, _. repeat split; reflexivity.
Qed.

(* ===================================================================== *)
(** ** Ranking providers by score *)
(* ===================================================================== *)

Lemma SFltb_key (a b : spec_float) :
  a <> S754_nan -> b <> S754_nan ->
  (SFltb a b = true <-> key_lt (float_key a) (float_key b)).
Proof.
  intros Ha Hb. unfold SFltb.
  destruct a as [sa|sa| |sa ma ea], b as [sb|sb| |sb mb eb]; try congruence;
    try destruct sa; try destruct sb; simpl; try (split; [discriminate|lia]);
    try (split; [lia|reflexivity]); try (split; [intros _; lia | reflexivity]).
  - destruct (Z.compare_spec ea eb); simpl.
    + change (Pos.compare_cont Eq ma mb) with (Pos.compare ma mb).
      destruct (Pos.compare_spec ma mb); simpl; split; try discriminate; try lia; reflexivity.
    + split; [discriminate|lia].
    + split; [intros _; lia|reflexivity].
  - destruct (Z.compare_spec ea eb); simpl.
    + change (Pos.compare_cont Eq ma mb) with (Pos.compare ma mb).
      destruct (Pos.compare_spec ma mb); simpl; split; try discriminate; try lia; reflexivity.
    + split; [intros _; lia|reflexivity].
    + split; [discriminate|lia].
Qed.

Lemma is_nan_spec (x : float) : PrimFloat.is_nan x = false -> Prim2SF x <> S754_nan.
Proof.
  unfold PrimFloat.is_nan. rewrite FloatAxioms.eqb_spec. intros H E. rewrite E in H. discriminate.
Qed.

Lemma ltb_key (x y : float) :
  PrimFloat.is_nan x = false -> PrimFloat.is_nan y = false ->
  (PrimFloat.ltb x y = true <-> key_lt (float_key (Prim2SF x)) (float_key (Prim2SF y))).
Proof.
  intros Hx Hy. rewrite FloatAxioms.ltb_spec. apply SFltb_key; by apply is_nan_spec.
Qed.

Lemma higherScore_strict_weak (l : list Provider) :
  Forall (fun p => PrimFloat.is_nan (weightedScore p) = false) l ->
  strict_weak_on higherScore l.
Proof.
  intros Hl. rewrite Forall_forall in Hl.
  assert (Hin : forall a, In a l -> PrimFloat.is_nan (weightedScore a) = false).
  { intros a Ha. apply Hl. by apply list_elem_of_In. }
  unfold strict_weak_on, higherScore. split; [|split].
  - intros a Ha. apply not_true_is_false. rewrite ltb_key by auto.
    unfold key_lt. destruct (float_key _) as [[? ?] ?]. lia.
  - intros a b c Ha Hb Hc. rewrite !ltb_key by auto.
    unfold key_lt. destruct (float_key (Prim2SF (weightedScore a))) as [[? ?] ?],
      (float_key (Prim2SF (weightedScore b))) as [[? ?] ?],
      (float_key (Prim2SF (weightedScore c))) as [[? ?] ?]. lia.
  - intros a b c Ha Hb Hc H1 H2. apply not_true_is_false.
    apply not_true_iff_false in H1, H2. revert H1 H2.
    rewrite !ltb_key by auto.
    unfold key_lt. destruct (float_key (Prim2SF (weightedScore a))) as [[? ?] ?],
      (float_key (Prim2SF (weightedScore b))) as [[? ?] ?],
      (float_key (Prim2SF (weightedScore c))) as [[? ?] ?]. lia.
Qed.

Lemma SFleb_key (a b : spec_float) :
  a <> S754_nan -> b <> S754_nan ->
  (SFleb a b = true <-> ~ key_lt (float_key b) (float_key a)).
Proof.
  intros Ha Hb. unfold SFleb.
  destruct a as [sa|sa| |sa ma ea], b as [sb|sb| |sb mb eb]; try congruence;
    try destruct sa; try destruct sb; simpl; try (split; [intros _; lia|reflexivity]);
    try (split; [discriminate|lia]).
  - destruct (Z.compare_spec ea eb); simpl.
    + change (Pos.compare_cont Eq ma mb) with (Pos.compare ma mb).
      destruct (Pos.compare_spec ma mb); simpl; split; try discriminate; try lia; reflexivity.
    + split; [discriminate|lia].
    + split; [intros _; lia|reflexivity].
  - destruct (Z.compare_spec ea eb); simpl.
    + change (Pos.compare_cont Eq ma mb) with (Pos.compare ma mb).
      destruct (Pos.compare_spec ma mb); simpl; split; try discriminate; try lia; reflexivity.
    + split; [intros _; lia|reflexivity].
    + split; [discriminate|lia].
Qed.

Lemma not_ltb_leb (x y : float) :
  PrimFloat.is_nan x = false -> PrimFloat.is_nan y = false ->
  PrimFloat.ltb x y = false -> PrimFloat.leb y x = true.
Proof.
  intros Hx Hy H. rewrite FloatAxioms.leb_spec.
  apply SFleb_key; [by apply is_nan_spec | by apply is_nan_spec|].
  intros Hk. apply ltb_key in Hk; [congruence|done|done].
Qed.

(** The code ranks [starred] first, with a score above 1 that is not the
    clamped score; by the clamped score [near] would come first. *)
Lemma ranking_does_not_clamp_rating :
  run demo_env (rankAndLimit (@insertionSort) [near; starred] 2) empty_world
    = (Some (ok [starred; near]), empty_world, []) /\
  PrimFloat.ltb 1 (weightedScore starred) = true /\
  PrimFloat.eqb (weightedScore starred) (claimedScore starred) = false /\
  PrimFloat.ltb (claimedScore starred) (claimedScore near) = true.
Proof. repeat split; vm_compute; reflexivity. Qed.

(** C4, as amended.  The score of a candidate is
    [0.7 * (1 - min(distance/10, 1)) + 0.3 * (rating/5)], where only the ratio
    [distance/10] is capped (at 1) and nothing else is clamped.  For candidates
    whose scores are numbers and a count [maxProviders >= 0], ranking returns
    the first [maxProviders] elements of a rearrangement of the candidates in
    which no element has a higher score than one before it.  Which of two
    candidates with equal scores comes first is left to [sort.Slice]. *)
Theorem rankAndLimit_sorted (env : Env) (srt : Sorter) (providers : list Provider)
    (maxProviders : Z) (w : World) :
  sorts srt ->
  Forall (fun p => PrimFloat.is_nan (weightedScore p) = false) providers ->
  0 <= maxProviders ->
  exists ranked best,
    run env (rankAndLimit srt providers maxProviders) w = (Some (ok best), w, []) /\
    (forall p, weightedScore p =
       (0.7 * (1 - math_Min (pv_Distance p / 10) 1) + 0.3 * (pv_Rating p / 5))%float) /\
    Permutation providers ranked /\
    StronglySorted
      (fun a b => PrimFloat.leb (weightedScore b) (weightedScore a) = true) ranked /\
    best = take (Z.to_nat maxProviders) ranked /\
    StronglySorted
      (fun a b => PrimFloat.leb (weightedScore b) (weightedScore a) = true) best /\
    (Z.of_nat (length best) <= maxProviders).
Proof.
  intros Hsorts Hnan HN.
  pose proof (sort_perm _ Hsorts _ higherScore providers) as Hperm.
  pose proof (sort_ordered _ Hsorts _ higherScore providers
                (higherScore_strict_weak providers Hnan)) as Hord.
  set (ranked := srt _ higherScore providers) in *.
  assert (Hnan' : Forall (fun p => PrimFloat.is_nan (weightedScore p) = false) ranked).
  { apply Forall_forall. intros p Hp. rewrite Forall_forall in Hnan. apply Hnan.
    apply list_elem_of_In. apply list_elem_of_In in Hp.
    by apply (Permutation_in _ (Permutation_sym Hperm)). }
  assert (Hsorted : StronglySorted
            (fun a b => PrimFloat.leb (weightedScore b) (weightedScore a) = true) ranked).
  { unfold ordered_by, higherScore in Hord. clear Hperm.
    induction Hord as [|a l Hl IH Ha]; [constructor|].
    apply Forall_cons in Hnan' as [Hna Hnl].
    constructor; [by apply IH|].
    apply Forall_forall. intros b Hb. rewrite Forall_forall in Ha, Hnl.
    apply not_ltb_leb; auto. }
  exists ranked, (take (Z.to_nat maxProviders) ranked).
  assert (Hbest : StronglySorted
            (fun a b => PrimFloat.leb (weightedScore b) (weightedScore a) = true)
            (take (Z.to_nat maxProviders) ranked)).
  { eapply StronglySorted_sublist; [apply sublist_take|exact Hsorted]. }
  assert (Hlen : Z.of_nat (length (take (Z.to_nat maxProviders) ranked)) <= maxProviders).
  { rewrite length_take. lia. }
  repeat split; try done.
  unfold rankAndLimit, sortProvidersByScore. fold ranked.
  destruct (Z.gtb_spec (Z.of_nat (length ranked)) maxProviders) as [Hgt|Hle].
  - destruct (Z.ltb_spec maxProviders 0); [lia|]. reflexivity.
  - simpl. rewrite take_ge by lia. reflexivity.
Qed.

Lemma rankAndLimit_sorted_witness :
  sorts (@insertionSort) /\
  Forall (fun p => PrimFloat.is_nan (weightedScore p) = false) [near; starred] /\
  0 <= 1 /\
  exists best,
    run demo_env (rankAndLimit (@insertionSort) [near; starred] 1) empty_world
      = (Some (ok best), empty_world, []) /\
    Z.of_nat (length best) <= 1.
Proof.
  assert (H1 : Forall (fun p => PrimFloat.is_nan (weightedScore p) = false)
                 [near; starred]).
  { repeat constructor. }
  split; [exact insertionSort_sorts|]. split; [exact H1|]. split; [lia|].
  destruct (rankAndLimit_sorted demo_env (@insertionSort) [near; starred] 1
              empty_world insertionSort_sorts H1 ltac:(lia))
    as (ranked & best & Hrun & _ & _ & _ & _ & _ & Hlen).
  exists best. auto.
Defined.

(* ===================================================================== *)
(** ** The arrival estimate *)
(* ===================================================================== *)

(** *** Binary digits and rounding to nearest *)

Lemma digits2_pos_bounds (m : positive) :
  2 ^ (Z.pos (digits2_pos m) - 1) <= Z.pos m < 2 ^ Z.pos (digits2_pos m).
Proof.
  induction m as [m IH|m IH|]; simpl digits2_pos.
  - rewrite Pos2Z.inj_succ, Z.pow_succ_r by lia.
    replace (Z.succ (Z.pos (digits2_pos m)) - 1)
      with (Z.succ (Z.pos (digits2_pos m) - 1)) by lia.
    rewrite Z.pow_succ_r by lia. lia.
  - rewrite Pos2Z.inj_succ, Z.pow_succ_r by lia.
    replace (Z.succ (Z.pos (digits2_pos m)) - 1)
      with (Z.succ (Z.pos (digits2_pos m) - 1)) by lia.
    rewrite Z.pow_succ_r by lia. lia.
  - simpl. lia.
Qed.

Lemma Zdigits2_nonneg (m : Z) : 0 <= m -> 0 <= Zdigits2 m.
Proof. destruct m; simpl; lia. Qed.

Lemma Zdigits2_upper (m : Z) : 0 <= m -> m < 2 ^ Zdigits2 m.
Proof.
  destruct m as [|m|m]; simpl; intros; try lia.
  apply digits2_pos_bounds.
Qed.

Lemma Zdigits2_lower (m : Z) : 0 < m -> 2 ^ (Zdigits2 m - 1) <= m.
Proof.
  destruct m as [|m|m]; simpl; intros; try lia.
  apply digits2_pos_bounds.
Qed.

Lemma Zdigits2_pos (m : Z) : 0 < m -> 0 < Zdigits2 m.
Proof. destruct m; simpl; lia. Qed.

Lemma Zdigits2_le_of_lt_pow (m k : Z) : 0 <= m -> 0 <= k -> m < 2 ^ k -> Zdigits2 m <= k.
Proof.
  intros Hm Hk Hlt.
  destruct (Z.eq_dec m 0) as [->|Hne]; [simpl; lia|].
  assert (H := Zdigits2_lower m ltac:(lia)).
  assert (Hp : 2 ^ (Zdigits2 m - 1) < 2 ^ k) by lia.
  apply Z.pow_lt_mono_r_iff in Hp; lia.
Qed.

Lemma Zdigits2_ge_of_pow_le (m k : Z) : 0 <= k -> 2 ^ k <= m -> k + 1 <= Zdigits2 m.
Proof.
  intros Hk Hle.
  assert (H0 : 0 < 2 ^ k) by (apply Z.pow_pos_nonneg; lia).
  assert (H1 := Zdigits2_upper m ltac:(lia)).
  assert (H2 := Zdigits2_nonneg m ltac:(lia)).
  assert (Hp : 2 ^ k < 2 ^ Zdigits2 m) by lia.
  apply Z.pow_lt_mono_r_iff in Hp; lia.
Qed.

Lemma div_mod_double (N D : Z) : 0 <= N -> 0 < D ->
  (N / (2 * D) = N / D / 2) /\
  (N mod (2 * D) = N mod D + D * ((N / D) mod 2)).
Proof.
  intros HN HD.
  assert (H1 := Z.div_mod N D ltac:(lia)).
  assert (H2 := Z.mod_pos_bound N D HD).
  assert (H3 := Z.div_mod (N / D) 2 ltac:(lia)).
  assert (H4 := Z.mod_pos_bound (N / D) 2 ltac:(lia)).
  assert (E : N = (2 * D) * (N / D / 2) + (N mod D + D * ((N / D) mod 2))) by nia.
  assert (B : 0 <= N mod D + D * ((N / D) mod 2) < 2 * D) by nia.
  split.
  - symmetry. exact (Z.div_unique_pos N (2 * D) (N / D / 2) _ B E).
  - symmetry. exact (Z.mod_unique_pos N (2 * D) (N / D / 2) _ B E).
Qed.

Lemma shr_1_spec (m : Z) (r s : bool) : 0 <= m ->
  shr_1 {| shr_m := m; shr_r := r; shr_s := s |} =
  {| shr_m := m / 2; shr_r := negb (Z.even m); shr_s := r || s |}.
Proof.
  intros Hm. destruct m as [|[p|p|]|]; try lia; unfold shr_1; cbn [shr_m shr_r shr_s].
  - reflexivity.
  - f_equal. apply Z.div_unique with 1; lia.
  - f_equal. apply Z.div_unique with 0; lia.
  - reflexivity.
Qed.

(** One more bit shifted out: the record now holds [N / (2 * D)]. *)
Lemma rep_shr_1 mrs N D : rep mrs N D -> rep (shr_1 mrs) N (2 * D).
Proof.
  intros [HN HD Hm Hr Hs].
  destruct (div_mod_double N D HN HD) as [Eq Em].
  assert (H2 := Z.mod_pos_bound N D HD).
  assert (H4 := Z.mod_pos_bound (N / D) 2 ltac:(lia)).
  assert (H3 := Z.div_mod (N / D) 2 ltac:(lia)).
  assert (Hq : 0 <= N / D) by (apply Z.div_pos; lia).
  destruct mrs as [m r s]. cbn [shr_m shr_r shr_s] in Hm, Hr, Hs. subst m.
  rewrite shr_1_spec by exact Hq.
  assert (Hodd : negb (Z.even (N / D)) = ((N / D) mod 2 =? 1)).
  { rewrite Zeven_mod. destruct (Z.eqb_spec ((N / D) mod 2) 0), (Z.eqb_spec ((N / D) mod 2) 1); simpl; lia. }
  constructor; cbn [shr_m shr_r shr_s]; try lia.
  - rewrite Em, Hodd.
    destruct (Z.eqb_spec ((N / D) mod 2) 1) as [E1|E1].
    + rewrite E1. symmetry. apply Z.leb_le. lia.
    + assert ((N / D) mod 2 = 0) by lia. rewrite H.
      symmetry. apply Z.leb_gt. lia.
  - rewrite Em, Hr, Hs.
    assert (((N / D) mod 2 = 0) \/ ((N / D) mod 2 = 1)) as [E|E] by lia; rewrite E.
    + destruct (Z.leb_spec D (2 * (N mod D))), (Z.eqb_spec (N mod D) 0),
        (Z.eqb_spec (2 * (N mod D)) D), (Z.eqb_spec (N mod D + D * 0) 0),
        (Z.eqb_spec (2 * (N mod D + D * 0)) (2 * D)); simpl; try reflexivity; lia.
    + destruct (Z.leb_spec D (2 * (N mod D))), (Z.eqb_spec (N mod D) 0),
        (Z.eqb_spec (2 * (N mod D)) D), (Z.eqb_spec (N mod D + D * 1) 0),
        (Z.eqb_spec (2 * (N mod D + D * 1)) (2 * D)); simpl; try reflexivity; lia.
Qed.

(** Shifting [n] bits out divides by [2 ^ n]. *)
Lemma rep_iter_pos (n : positive) : forall mrs N D,
  rep mrs N D -> rep (SpecFloat.iter_pos shr_1 n mrs) N (2 ^ Z.pos n * D).
Proof.
  induction n as [n IH|n IH|]; intros mrs N D H; simpl SpecFloat.iter_pos.
  - apply rep_shr_1 in H. apply IH in H. apply IH in H.
    replace (2 ^ Z.pos n~1 * D) with (2 ^ Z.pos n * (2 ^ Z.pos n * (2 * D))); [exact H|].
    replace (Z.pos n~1) with (Z.pos n + Z.pos n + 1) by lia.
    rewrite !Z.pow_add_r by lia. ring.
  - apply IH in H. apply IH in H.
    replace (2 ^ Z.pos n~0 * D) with (2 ^ Z.pos n * (2 ^ Z.pos n * D)); [exact H|].
    replace (Z.pos n~0) with (Z.pos n + Z.pos n) by lia.
    rewrite !Z.pow_add_r by lia. ring.
  - apply rep_shr_1 in H. exact H.
Qed.

Ltac flags :=
  repeat match goal with
  | |- context [Z.leb ?a ?b] => destruct (Z.leb_spec a b)
  | |- context [Z.eqb ?a ?b] => destruct (Z.eqb_spec a b)
  | |- context [Z.compare ?a ?b] => destruct (Z.compare_spec a b)
  end; cbn; try reflexivity; try lia.

Lemma rep_shr_record_of_loc (N D : Z) : 0 <= N -> 0 < D ->
  rep (shr_record_of_loc (N / D) (loc_of N D)) N D.
Proof.
  intros HN HD. assert (H2 := Z.mod_pos_bound N D HD).
  unfold loc_of, shr_record_of_loc.
  destruct (Z.eqb_spec (N mod D) 0) as [E|E].
  - constructor; cbn [shr_m shr_r shr_s]; try lia; rewrite E; flags.
  - destruct (Z.compare_spec (2 * (N mod D)) D) as [C|C|C];
      constructor; cbn [shr_m shr_r shr_s]; try lia; flags.
Qed.

(** Rounding the record is rounding the quotient to nearest, ties to even. *)
Lemma rep_round mrs N D : rep mrs N D ->
  round_nearest_even (shr_m mrs) (loc_of_shr_record mrs) = RNE N D.
Proof.
  intros [HN HD Hm Hr Hs]. assert (H2 := Z.mod_pos_bound N D HD).
  destruct mrs as [m r s]. cbn [shr_m shr_r shr_s] in *. subst m.
  unfold RNE, round_nearest_even, loc_of_shr_record. cbn [shr_m shr_r shr_s].
  rewrite Hr, Hs.
  destruct (Z.leb_spec D (2 * (N mod D))), (Z.eqb_spec (N mod D) 0),
    (Z.eqb_spec (2 * (N mod D)) D), (Z.compare_spec (2 * (N mod D)) D);
    simpl; try reflexivity; try lia.
Qed.

Lemma RNE_exact (N : Z) : RNE N 1 = N.
Proof.
  unfold RNE. rewrite Z.mod_1_r, Z.div_1_r. reflexivity.
Qed.

Lemma RNE_bounds (N D : Z) : 0 < D -> N / D <= RNE N D <= N / D + 1.
Proof.
  intros. unfold RNE.
  destruct (2 * (N mod D) ?= D); [destruct (Z.even (N / D))| |]; lia.
Qed.

(** Rounding to nearest is monotone in the quotient. *)
Lemma RNE_mono (N1 D1 N2 D2 : Z) :
  0 <= N1 -> 0 < D1 -> 0 <= N2 -> 0 < D2 ->
  N1 * D2 <= N2 * D1 -> RNE N1 D1 <= RNE N2 D2.
Proof.
  intros HN1 HD1 HN2 HD2 Hle.
  assert (A1 := Z.div_mod N1 D1 ltac:(lia)).
  assert (B1 := Z.mod_pos_bound N1 D1 HD1).
  assert (A2 := Z.div_mod N2 D2 ltac:(lia)).
  assert (B2 := Z.mod_pos_bound N2 D2 HD2).
  set (q1 := N1 / D1) in *. set (r1 := N1 mod D1) in *.
  set (q2 := N2 / D2) in *. set (r2 := N2 mod D2) in *.
  assert (Hq : q1 <= q2).
  { destruct (Z_lt_le_dec q2 q1); [|assumption]. exfalso.
    assert (q2 + 1 <= q1) by lia.
    assert (N2 * D1 < (q2 + 1) * D2 * D1) by nia.
    assert ((q2 + 1) * D2 * D1 <= q1 * D1 * D2) by nia.
    nia. }
  unfold RNE. fold q1 q2 r1 r2.
  destruct (Z.eq_dec q1 q2) as [E|E].
  - (* same floor: compare remainders *)
    assert (Hr : r1 * D2 <= r2 * D1) by nia.
    destruct (Z.compare_spec (2 * r1) D1) as [C1|C1|C1],
             (Z.compare_spec (2 * r2) D2) as [C2|C2|C2];
      rewrite ?E; try (destruct (Z.even q2)); try lia; exfalso; nia.
  - assert (q1 + 1 <= q2) by lia.
    destruct (2 * r1 ?= D1), (2 * r2 ?= D2);
      try destruct (Z.even q1) eqn:Ev1; try destruct (Z.even q2) eqn:Ev2; try lia.
Qed.

(** *** One rounding step *)

Section Rounding.
Variables prec emax : Z.
Hypothesis Hprec : 0 < prec.

Local Notation "'emin'" := (SpecFloat.emin prec emax).
Local Notation "'fexp'" := (SpecFloat.fexp prec emax).

Lemma fexp_spec (e : Z) : fexp e = Z.max (e - prec) emin.
Proof. reflexivity. Qed.

Lemma round_exp_emin (N D e : Z) : emin <= round_exp prec emax N D e.
Proof. unfold round_exp. rewrite fexp_spec. lia. Qed.

Lemma shr_fexp_spec (N D e : Z) : 0 <= N -> 0 < D -> e <= round_exp prec emax N D e ->
  exists mrs,
    shr_fexp prec emax (N / D) e (loc_of N D) = (mrs, round_exp prec emax N D e) /\
    rep mrs N (2 ^ (round_exp prec emax N D e - e) * D).
Proof.
  intros HN HD Hn. unfold shr_fexp, shr. fold (round_exp prec emax N D e).
  assert (R := rep_shr_record_of_loc N D HN HD).
  destruct (round_exp prec emax N D e - e) as [|n|n] eqn:En; try lia.
  - eexists; split.
    + f_equal. lia.
    + rewrite Z.pow_0_r, Z.mul_1_l. exact R.
  - eexists; split.
    + f_equal. lia.
    + apply rep_iter_pos. exact R.
Qed.

Lemma pow2_pos (k : Z) : 0 <= k -> 0 < 2 ^ k.
Proof. intros. apply Z.pow_pos_nonneg; lia. Qed.

Lemma pow2_split (a b : Z) : 0 <= a -> 0 <= b -> 2 ^ (a + b) = 2 ^ a * 2 ^ b.
Proof. intros. apply Z.pow_add_r; lia. Qed.

(** The shifted quotient has at most [prec] digits, and exactly [prec] above
    the smallest exponent. *)
Lemma round_man_bounds (N D e : Z) : 0 <= N -> 0 < D -> e <= round_exp prec emax N D e ->
  0 <= round_man prec emax N D e <= 2 ^ prec /\
  (emin < round_exp prec emax N D e -> 2 ^ (prec - 1) <= round_man prec emax N D e).
Proof.
  intros HN HD Hn. unfold round_man.
  set (E := round_exp prec emax N D e) in *.
  set (n := E - e). assert (Hn0 : 0 <= n) by (unfold n; lia).
  assert (P := pow2_pos n Hn0).
  assert (HD' : 0 < 2 ^ n * D) by nia.
  assert (B := RNE_bounds N (2 ^ n * D) HD').
  assert (Hq : 0 <= N / D) by (apply Z.div_pos; lia).
  assert (Eq : N / (2 ^ n * D) = N / D / 2 ^ n).
  { rewrite (Z.mul_comm (2 ^ n) D). symmetry. apply Z.div_div; lia. }
  rewrite Eq in B.
  assert (Hq' : 0 <= N / D / 2 ^ n) by (apply Z.div_pos; lia).
  assert (U := Zdigits2_upper (N / D) Hq).
  assert (Dn := Zdigits2_nonneg (N / D) Hq).
  assert (HE : E = Z.max (Zdigits2 (N / D) + e - prec) emin) by reflexivity.
  split; [split; [lia|]|].
  - assert (Hd : Zdigits2 (N / D) <= n + prec) by (unfold n; lia).
    assert (N / D < 2 ^ n * 2 ^ prec).
    { rewrite <- pow2_split by lia.
      eapply Z.lt_le_trans; [exact U|].
      apply Z.pow_le_mono_r; lia. }
    assert (N / D / 2 ^ n < 2 ^ prec) by (apply Z.div_lt_upper_bound; lia).
    lia.
  - intros Hgt.
    assert (Hd : Zdigits2 (N / D) = n + prec) by (unfold n; lia).
    assert (Hqpos : 0 < N / D).
    { destruct (Z.eq_dec (N / D) 0) as [E0|E0]; [|lia].
      rewrite E0 in Hd. simpl in Hd. lia. }
    assert (L := Zdigits2_lower (N / D) Hqpos).
    rewrite Hd in L.
    replace (n + prec - 1) with (n + (prec - 1)) in L by lia.
    rewrite pow2_split in L by lia.
    assert (2 ^ (prec - 1) <= N / D / 2 ^ n) by (apply Z.div_le_lower_bound; lia).
    lia.
Qed.

Lemma Zdigits2_eq (m k : Z) : 0 < k -> 2 ^ (k - 1) <= m < 2 ^ k -> Zdigits2 m = k.
Proof.
  intros Hk [Hl Hu].
  assert (0 < 2 ^ (k - 1)) by (apply pow2_pos; lia).
  assert (Zdigits2 m <= k) by (apply Zdigits2_le_of_lt_pow; lia).
  assert (k - 1 + 1 <= Zdigits2 m) by (apply Zdigits2_ge_of_pow_le; lia).
  lia.
Qed.

Lemma pow2_succ (k : Z) : 0 <= k -> 2 ^ (k + 1) = 2 * 2 ^ k.
Proof. intros. rewrite pow2_split by lia. change (2 ^ 1) with 2. ring. Qed.

Lemma pow2_pred (k : Z) : 0 < k -> 2 ^ k = 2 * 2 ^ (k - 1).
Proof. intros. rewrite <- pow2_succ by lia. f_equal. lia. Qed.

(** The rounded prec emax pair is in canonical form. *)
Lemma rounded_canonical (N D e : Z) : 0 <= N -> 0 < D -> e <= round_exp prec emax N D e ->
  let '(M, E) := rounded prec emax N D e in
  0 <= M < 2 ^ prec /\ fexp (Zdigits2 M + E) = E /\
  (emin < E -> 2 ^ (prec - 1) <= M).
Proof.
  intros HN HD Hn.
  destruct (round_man_bounds N D e HN HD Hn) as [[B0 B1] B2].
  assert (Em := round_exp_emin N D e).
  assert (P := pow2_pos (prec - 1) ltac:(lia)).
  assert (PP := pow2_pred prec Hprec).
  unfold rounded.
  destruct (Z.eqb_spec (round_man prec emax N D e) (2 ^ prec)) as [E|E].
  - split; [lia|]. split; [|lia].
    rewrite (Zdigits2_eq (2 ^ (prec - 1)) prec) by lia.
    rewrite fexp_spec. lia.
  - split; [lia|]. split; [|exact B2].
    rewrite fexp_spec.
    assert (Zdigits2 (round_man prec emax N D e) <= prec)
      by (apply Zdigits2_le_of_lt_pow; lia).
    destruct (Z_lt_le_dec emin (round_exp prec emax N D e)) as [Hgt|Hle].
    + rewrite (Zdigits2_eq (round_man prec emax N D e) prec) by (specialize (B2 Hgt); lia). lia.
    + lia.
Qed.

(** What [binary_round_aux] returns on the quotient [N / D] with exponent [e],
    when [e] is not above the exponent the result is given. *)
Lemma binary_round_aux_spec (sx : bool) (N D e : Z) :
  0 <= N -> 0 < D -> e <= round_exp prec emax N D e ->
  binary_round_aux prec emax sx (N / D) e (loc_of N D) = pack prec emax sx (rounded prec emax N D e).
Proof.
  intros HN HD Hn.
  destruct (shr_fexp_spec N D e HN HD Hn) as (mrs & E1 & R).
  destruct (round_man_bounds N D e HN HD Hn) as [[B0 B1] B2].
  assert (Em := round_exp_emin N D e).
  assert (P := pow2_pos (prec - 1) ltac:(lia)).
  assert (PP := pow2_pred prec Hprec).
  unfold binary_round_aux. rewrite E1.
  rewrite (rep_round _ _ _ R). fold (round_man prec emax N D e).
  unfold rounded, shr_fexp, shr.
  destruct (Z.eqb_spec (round_man prec emax N D e) (2 ^ prec)) as [E|E].
  - rewrite E.
    assert (Hd : Zdigits2 (2 ^ prec) = prec + 1).
    { apply Zdigits2_eq; [lia|].
      rewrite pow2_succ by lia. replace (prec + 1 - 1) with prec by lia. lia. }
    rewrite Hd.
    rewrite fexp_spec.
    replace (Z.max (prec + 1 + round_exp prec emax N D e - prec) emin - round_exp prec emax N D e) with 1 by lia.
    cbn [SpecFloat.iter_pos shr_record_of_loc].
    rewrite shr_1_spec by lia. cbn [shr_m].
    replace (2 ^ prec / 2) with (2 ^ (prec - 1))
      by (rewrite PP, Z.mul_comm, Z.div_mul by lia; reflexivity).
    reflexivity.
  - assert (Hfix : fexp (Zdigits2 (round_man prec emax N D e) + round_exp prec emax N D e) = round_exp prec emax N D e).
    { rewrite fexp_spec.
      assert (Zdigits2 (round_man prec emax N D e) <= prec)
        by (apply Zdigits2_le_of_lt_pow; lia).
      destruct (Z_lt_le_dec emin (round_exp prec emax N D e)) as [Hgt|Hle].
      + rewrite (Zdigits2_eq (round_man prec emax N D e) prec) by (specialize (B2 Hgt); lia). lia.
      + lia. }
    rewrite Hfix, Z.sub_diag. cbn [shr_record_of_loc shr_m]. reflexivity.
Qed.

(** A larger value is given a larger or equal exponent. *)
Lemma round_exp_mono (N1 D1 e1 N2 D2 e2 : Z) :
  0 <= N1 -> 0 < D1 -> e1 <= round_exp prec emax N1 D1 e1 ->
  0 <= N2 -> 0 < D2 ->
  val_le N1 D1 e1 N2 D2 e2 ->
  round_exp prec emax N1 D1 e1 <= round_exp prec emax N2 D2 e2.
Proof.
  intros HN1 HD1 Hn1 HN2 HD2 Hv.
  assert (Em := round_exp_emin N2 D2 e2).
  unfold round_exp in *. rewrite !fexp_spec in *.
  assert (Hq1 : 0 <= N1 / D1) by (apply Z.div_pos; lia).
  assert (Hq2 : 0 <= N2 / D2) by (apply Z.div_pos; lia).
  destruct (Z.eq_dec (N1 / D1) 0) as [E0|E0].
  { rewrite E0 in *. simpl Zdigits2 in *. lia. }
  assert (Hd : Zdigits2 (N1 / D1) + e1 <= Zdigits2 (N2 / D2) + e2); [|lia].
  assert (L1 := Zdigits2_lower (N1 / D1) ltac:(lia)).
  assert (U2 := Zdigits2_upper (N2 / D2) Hq2).
  assert (P1 := Zdigits2_pos (N1 / D1) ltac:(lia)).
  assert (P2 := Zdigits2_nonneg (N2 / D2) Hq2).
  set (d1 := Zdigits2 (N1 / D1)) in *. set (d2 := Zdigits2 (N2 / D2)) in *.
  unfold val_le in Hv. set (e0 := Z.min e1 e2) in *.
  assert (A1 := Z.div_mod N1 D1 ltac:(lia)).
  assert (B1 := Z.mod_pos_bound N1 D1 HD1).
  assert (A2 := Z.div_mod N2 D2 ltac:(lia)).
  assert (B2 := Z.mod_pos_bound N2 D2 HD2).
  assert (Pa := pow2_pos (e1 - e0) ltac:(lia)).
  assert (Pb := pow2_pos (e2 - e0) ltac:(lia)).
  assert (PA := pow2_pos (d1 - 1) ltac:(lia)).
  assert (PB := pow2_pos d2 ltac:(lia)).
  assert (K1 : 2 ^ (d1 - 1) * D1 <= N1) by nia.
  assert (K2 : N2 < 2 ^ d2 * D2) by nia.
  assert (K : 2 ^ (d1 - 1) * 2 ^ (e1 - e0) < 2 ^ d2 * 2 ^ (e2 - e0)).
  { assert (X1 : 2 ^ (d1 - 1) * D1 * (D2 * 2 ^ (e1 - e0)) <= N1 * (D2 * 2 ^ (e1 - e0)))
      by (apply Z.mul_le_mono_nonneg_r; nia).
    assert (X2 : N2 * (D1 * 2 ^ (e2 - e0)) < 2 ^ d2 * D2 * (D1 * 2 ^ (e2 - e0)))
      by (apply Z.mul_lt_mono_pos_r; nia).
    assert (X : (2 ^ (d1 - 1) * 2 ^ (e1 - e0)) * (D1 * D2) < (2 ^ d2 * 2 ^ (e2 - e0)) * (D1 * D2))
      by lia.
    apply Z.mul_lt_mono_pos_r in X; nia. }
  rewrite <- !pow2_split in K by lia.
  apply Z.pow_lt_mono_r_iff in K; lia.
Qed.

Lemma round_man_mono (N1 D1 e1 N2 D2 e2 : Z) :
  0 <= N1 -> 0 < D1 -> e1 <= round_exp prec emax N1 D1 e1 ->
  0 <= N2 -> 0 < D2 -> e2 <= round_exp prec emax N2 D2 e2 ->
  val_le N1 D1 e1 N2 D2 e2 ->
  round_exp prec emax N1 D1 e1 = round_exp prec emax N2 D2 e2 ->
  round_man prec emax N1 D1 e1 <= round_man prec emax N2 D2 e2.
Proof.
  intros HN1 HD1 Hn1 HN2 HD2 Hn2 Hv HE.
  unfold round_man. rewrite <- HE.
  set (E := round_exp prec emax N1 D1 e1) in *.
  unfold val_le in Hv. set (e0 := Z.min e1 e2) in *.
  assert (Pa := pow2_pos (e1 - e0) ltac:(lia)).
  assert (Pb := pow2_pos (e2 - e0) ltac:(lia)).
  assert (Pc := pow2_pos (E - e1 - e2 + e0) ltac:(lia)).
  assert (P1 := pow2_pos (E - e1) ltac:(lia)).
  assert (P2 := pow2_pos (E - e2) ltac:(lia)).
  apply RNE_mono; try lia; try nia.
  assert (S2 : 2 ^ (E - e2) = 2 ^ (e1 - e0) * 2 ^ (E - e1 - e2 + e0))
    by (rewrite <- pow2_split by lia; f_equal; lia).
  assert (S1 : 2 ^ (E - e1) = 2 ^ (e2 - e0) * 2 ^ (E - e1 - e2 + e0))
    by (rewrite <- pow2_split by lia; f_equal; lia).
  rewrite S1, S2.
  assert (X : N1 * D2 * 2 ^ (e1 - e0) * 2 ^ (E - e1 - e2 + e0)
              <= N2 * D1 * 2 ^ (e2 - e0) * 2 ^ (E - e1 - e2 + e0))
    by (apply Z.mul_le_mono_nonneg_r; lia).
  lia.
Qed.

(** Rounding is monotone: a larger or equal value rounds to a larger or equal
    pair. *)
Lemma rounded_mono (N1 D1 e1 N2 D2 e2 : Z) :
  0 <= N1 -> 0 < D1 -> e1 <= round_exp prec emax N1 D1 e1 ->
  0 <= N2 -> 0 < D2 -> e2 <= round_exp prec emax N2 D2 e2 ->
  val_le N1 D1 e1 N2 D2 e2 ->
  lex_le (rounded prec emax N1 D1 e1) (rounded prec emax N2 D2 e2).
Proof.
  intros HN1 HD1 Hn1 HN2 HD2 Hn2 Hv.
  assert (HE := round_exp_mono _ _ _ _ _ _ HN1 HD1 Hn1 HN2 HD2 Hv).
  destruct (round_man_bounds N1 D1 e1 HN1 HD1 Hn1) as [[L1 U1] G1].
  destruct (round_man_bounds N2 D2 e2 HN2 HD2 Hn2) as [[L2 U2] G2].
  assert (Em := round_exp_emin N1 D1 e1).
  assert (P := pow2_pos (prec - 1) ltac:(lia)).
  assert (PP := pow2_pred prec Hprec).
  unfold lex_le, rounded.
  destruct (Z.eq_dec (round_exp prec emax N1 D1 e1) (round_exp prec emax N2 D2 e2)) as [Eeq|Ene].
  - assert (HM := round_man_mono _ _ _ _ _ _ HN1 HD1 Hn1 HN2 HD2 Hn2 Hv Eeq).
    destruct (Z.eqb_spec (round_man prec emax N1 D1 e1) (2 ^ prec)),
             (Z.eqb_spec (round_man prec emax N2 D2 e2) (2 ^ prec)); cbn [fst snd]; lia.
  - specialize (G2 ltac:(lia)).
    destruct (Z.eqb_spec (round_man prec emax N1 D1 e1) (2 ^ prec)),
             (Z.eqb_spec (round_man prec emax N2 D2 e2) (2 ^ prec)); cbn [fst snd]; lia.
Qed.

Lemma rounded_nonneg (N D e : Z) : 0 <= N -> 0 < D -> e <= round_exp prec emax N D e ->
  0 <= fst (rounded prec emax N D e).
Proof.
  intros HN HD Hn.
  assert (H := rounded_canonical N D e HN HD Hn).
  destruct (rounded prec emax N D e). cbn [fst]. lia.
Qed.

(** The order of rounded pairs is the order of the numbers they stand for:
    as it is for the sign [+], reversed for the sign [-]. *)
Lemma pack_mono (a b : Z * Z) : 0 <= fst a -> 0 <= fst b -> lex_le a b ->
  SFleb (pack prec emax false a) (pack prec emax false b) = true /\
  SFleb (pack prec emax true b) (pack prec emax true a) = true.
Proof.
  destruct a as [M1 E1], b as [M2 E2]. unfold lex_le, pack. cbn [fst snd].
  intros H1 H2 H.
  destruct M1 as [|m1|m1], M2 as [|m2|m2]; try lia;
    try destruct (Z.leb_spec E1 (emax - prec));
    try destruct (Z.leb_spec E2 (emax - prec));
    try (split; reflexivity); try lia.
  assert (Hlex : E1 < E2 \/ (E1 = E2 /\ (m1 <= m2)%positive)) by lia.
  unfold SFleb, SFcompare.
  change (PosDef.Pos.compare_cont Eq) with Pos.compare.
  destruct Hlex as [C|[C Hm]].
  - rewrite (proj2 (Z.compare_lt_iff E1 E2) C).
    rewrite (proj2 (Z.compare_gt_iff E2 E1)) by lia. split; reflexivity.
  - subst E2. rewrite Z.compare_refl.
    rewrite (Pos.compare_antisym m1 m2).
    destruct (Pos.compare_spec m1 m2); cbn; split; try reflexivity; lia.
Qed.

End Rounding.

(** *** Order-preserving operations on sign and magnitude *)

Section Ops.
Variables prec emax : Z.
Hypothesis Hprec : 0 < prec.

Lemma valid_canonical (s : bool) (m : positive) (e : Z) :
  SpecFloat.valid_binary prec emax (S754_finite s m e) = true -> canonical prec emax m e.
Proof.
  unfold SpecFloat.valid_binary, bounded, canonical_mantissa, canonical.
  intros H. apply andb_prop in H as [H _]. apply Z.eqb_eq in H. exact H.
Qed.

Lemma SFleb_pos (m1 : positive) (e1 : Z) (m2 : positive) (e2 : Z) :
  SFleb (S754_finite false m1 e1) (S754_finite false m2 e2) = true ->
  lex m1 e1 m2 e2.
Proof.
  unfold SFleb, SFcompare, lex.
  change (PosDef.Pos.compare_cont Eq) with Pos.compare.
  destruct (Z.compare_spec e1 e2); try discriminate; try lia.
  destruct (Pos.compare_spec m1 m2); try discriminate; lia.
Qed.

Lemma SFleb_neg (m1 : positive) (e1 : Z) (m2 : positive) (e2 : Z) :
  SFleb (S754_finite true m1 e1) (S754_finite true m2 e2) = true ->
  lex m2 e2 m1 e1.
Proof.
  unfold SFleb, SFcompare, lex.
  change (PosDef.Pos.compare_cont Eq) with Pos.compare.
  destruct (Z.compare_spec e1 e2); try discriminate; try lia.
  destruct (Pos.compare_spec m1 m2); try discriminate; lia.
Qed.

(** On canonical pairs the order [SFcompare] decides is the order of the
    values. *)
Lemma canonical_val_le (m1 : positive) (e1 : Z) (m2 : positive) (e2 : Z) :
  canonical prec emax m1 e1 -> canonical prec emax m2 e2 -> lex m1 e1 m2 e2 ->
  Z.pos m1 * 2 ^ (e1 - Z.min e1 e2) <= Z.pos m2 * 2 ^ (e2 - Z.min e1 e2).
Proof.
  unfold canonical, lex. rewrite !fexp_spec. intros C1 C2 [Hlt|[-> Hle]].
  - replace (Z.min e1 e2) with e1 by lia. rewrite Z.sub_diag, Z.pow_0_r.
    assert (B1 := digits2_pos_bounds m1). assert (B2 := digits2_pos_bounds m2).
    assert (Hd2 : Z.pos (digits2_pos m2) = prec) by lia.
    assert (Hd1 : Z.pos (digits2_pos m1) <= prec) by lia.
    rewrite Hd2 in B2.
    assert (Z.pos m1 < 2 ^ prec).
    { eapply Z.lt_le_trans; [apply B1|]. apply Z.pow_le_mono_r; lia. }
    assert (PP := pow2_pred prec Hprec).
    assert (2 ^ 1 <= 2 ^ (e2 - e1)) by (apply Z.pow_le_mono_r; lia).
    change (2 ^ 1) with 2 in *. nia.
  - rewrite Z.min_id, Z.sub_diag, Z.pow_0_r. lia.
Qed.

Lemma pack_cases (pr emx : Z) (s : bool) (r : Z * Z) : 0 <= fst r ->
  pack pr emx s r = S754_zero s \/
  (exists m e, pack pr emx s r = S754_finite s m e) \/
  pack pr emx s r = S754_infinity s.
Proof.
  unfold pack. destruct (fst r) as [|m|m]; intros H; try lia; auto.
  destruct (snd r <=? emx - pr); eauto.
Qed.

(** An operation that keeps zeros, infinities and the sign, and rounds the
    magnitude monotonically, preserves the order [SFleb]. *)
Lemma sign_magnitude_mono (pr emx : Z)
    (f : spec_float -> spec_float) (g : positive -> Z -> Z * Z) :
  (forall s, f (S754_zero s) = S754_zero s) ->
  (forall s, f (S754_infinity s) = S754_infinity s) ->
  (forall s m e, canonical prec emax m e ->
     f (S754_finite s m e) = pack pr emx s (g m e) /\ 0 <= fst (g m e)) ->
  (forall m1 e1 m2 e2, canonical prec emax m1 e1 -> canonical prec emax m2 e2 -> lex m1 e1 m2 e2 ->
     lex_le (g m1 e1) (g m2 e2)) ->
  forall x y, SpecFloat.valid_binary prec emax x = true ->
    SpecFloat.valid_binary prec emax y = true ->
    SFleb x y = true -> SFleb (f x) (f y) = true.
Proof.
  intros Hz Hi Hf Hg x y Vx Vy Hle.
  destruct x as [sx|sx| |sx mx ex], y as [sy|sy| |sy my ey];
    try discriminate Hle;
    rewrite ?Hz, ?Hi;
    try (apply valid_canonical in Vx; destruct (Hf sx _ _ Vx) as [-> Nx]);
    try (apply valid_canonical in Vy; destruct (Hf sy _ _ Vy) as [-> Ny]);
    try exact Hle.
  all: try (destruct sx, sy; try discriminate Hle;
            match goal with
            | |- context [pack ?a ?b ?s ?r] =>
                let H := fresh in
                destruct (pack_cases a b s r ltac:(assumption)) as [H|[(? & ? & H)|H]];
                rewrite H; reflexivity
            end).
  destruct sx, sy; try discriminate Hle.
  - apply SFleb_neg in Hle. apply (pack_mono pr emx); auto.
  - destruct (pack_cases pr emx true (g mx ex) Nx) as [H|[(? & ? & H)|H]];
      destruct (pack_cases pr emx false (g my ey) Ny) as [H'|[(? & ? & H')|H']];
      rewrite H, H'; reflexivity.
  - apply SFleb_pos in Hle. apply (pack_mono pr emx); auto.
Qed.

End Ops.

(** Scaling both values by [c / D * 2^t], with mantissas shifted by [k1] and
    [k2] bits, keeps their order. *)
Lemma val_le_scaled (m1 e1 m2 e2 c D k1 k2 t N1 E1 N2 E2 : Z) :
  0 <= m1 -> 0 <= m2 -> 0 <= c -> 0 < D -> 0 <= k1 -> 0 <= k2 ->
  N1 = m1 * c * 2 ^ k1 -> E1 = e1 - k1 + t ->
  N2 = m2 * c * 2 ^ k2 -> E2 = e2 - k2 + t ->
  m1 * 2 ^ (e1 - Z.min e1 e2) <= m2 * 2 ^ (e2 - Z.min e1 e2) ->
  val_le N1 D E1 N2 D E2.
Proof.
  intros Hm1 Hm2 Hc HD Hk1 Hk2 -> -> -> -> H. unfold val_le.
  set (e0 := Z.min e1 e2) in *.
  set (f0 := Z.min (e1 - k1 + t) (e2 - k2 + t)).
  assert (Hf : f0 <= e0 + t) by (unfold f0, e0; lia).
  assert (S1 : 2 ^ k1 * 2 ^ (e1 - k1 + t - f0) = 2 ^ (e1 - e0) * 2 ^ (e0 + t - f0)).
  { rewrite <- !pow2_split by (unfold f0, e0; lia). f_equal. lia. }
  assert (S2 : 2 ^ k2 * 2 ^ (e2 - k2 + t - f0) = 2 ^ (e2 - e0) * 2 ^ (e0 + t - f0)).
  { rewrite <- !pow2_split by (unfold f0, e0; lia). f_equal. lia. }
  assert (P := pow2_pos (e0 + t - f0) ltac:(lia)).
  replace (m1 * c * 2 ^ k1 * D * 2 ^ (e1 - k1 + t - f0))
    with (m1 * 2 ^ (e1 - e0) * (c * D * 2 ^ (e0 + t - f0)))
    by (rewrite <- (Z.mul_assoc _ (2 ^ k1) D), (Z.mul_comm (2 ^ k1) D);
        rewrite <- !Z.mul_assoc, S1; ring).
  replace (m2 * c * 2 ^ k2 * D * 2 ^ (e2 - k2 + t - f0))
    with (m2 * 2 ^ (e2 - e0) * (c * D * 2 ^ (e0 + t - f0)))
    by (rewrite <- (Z.mul_assoc _ (2 ^ k2) D), (Z.mul_comm (2 ^ k2) D);
        rewrite <- !Z.mul_assoc, S2; ring).
  apply Z.mul_le_mono_nonneg_r; [nia|exact H].
Qed.

Lemma loc_of_exact (N : Z) : loc_of N 1 = loc_Exact.
Proof. unfold loc_of. rewrite Z.mod_1_r. reflexivity. Qed.

Lemma binary_round_aux_exact (prec emax : Z) (sx : bool) (N e : Z) :
  0 < prec -> 0 <= N -> e <= round_exp prec emax N 1 e ->
  binary_round_aux prec emax sx N e loc_Exact = pack prec emax sx (rounded prec emax N 1 e).
Proof.
  intros Hp HN He.
  rewrite <- (binary_round_aux_spec prec emax Hp sx N 1 e HN ltac:(lia) He).
  rewrite Z.div_1_r, loc_of_exact. reflexivity.
Qed.

Lemma Zdigits2_shift (m k : Z) : 0 < m -> 0 <= k -> Zdigits2 (m * 2 ^ k) = Zdigits2 m + k.
Proof.
  intros Hm Hk.
  assert (L := Zdigits2_lower m Hm). assert (U := Zdigits2_upper m ltac:(lia)).
  assert (P := Zdigits2_pos m Hm). assert (Pk := pow2_pos k Hk).
  apply Zdigits2_eq; [lia|].
  replace (Zdigits2 m + k - 1) with (Zdigits2 m - 1 + k) by lia.
  rewrite !pow2_split by lia. nia.
Qed.

Lemma new_location_spec (D r : Z) : 0 < D -> 0 <= r < D ->
  new_location D r = if r =? 0 then loc_Exact else loc_Inexact (2 * r ?= D).
Proof.
  intros HD Hr. unfold new_location, new_location_even, new_location_odd.
  destruct (Z.even D) eqn:Ev; [reflexivity|].
  assert (Ho : Z.odd D = true) by (rewrite <- Z.negb_even, Ev; reflexivity).
  apply Z.odd_spec in Ho as [k Hk].
  destruct (Z.eqb_spec r 0); [reflexivity|]. f_equal.
  destruct (Z.compare_spec (2 * r + 1) D), (Z.compare_spec (2 * r) D); try reflexivity; lia.
Qed.

(** *** Multiplying and dividing by a positive constant, and narrowing *)

Section Scaling.
Variables prec emax : Z.
Hypothesis Hprec : 0 < prec.
Variables (mc : positive) (ec : Z).

(** Multiplying by the positive normal number [mc * 2^ec] preserves the
    order. *)
Lemma SFmul_const_mono :
  Z.pos (digits2_pos mc) = prec ->
  forall x y, SpecFloat.valid_binary prec emax x = true ->
    SpecFloat.valid_binary prec emax y = true ->
    SFleb x y = true ->
    SFleb (SFmul prec emax x (S754_finite false mc ec))
          (SFmul prec emax y (S754_finite false mc ec)) = true.
Proof.
  intros Hc.
  assert (Bc := digits2_pos_bounds mc). rewrite Hc in Bc.
  assert (Hpre : forall m e, e + ec <= round_exp prec emax (Z.pos (m * mc)) 1 (e + ec)).
  { intros m e. unfold round_exp. rewrite Z.div_1_r, fexp_spec.
    assert (prec - 1 + 1 <= Zdigits2 (Z.pos (m * mc))).
    { apply Zdigits2_ge_of_pow_le; [lia|]. rewrite Pos2Z.inj_mul. nia. }
    lia. }
  apply (sign_magnitude_mono prec emax prec emax
           (fun x => SFmul prec emax x (S754_finite false mc ec))
           (fun m e => rounded prec emax (Z.pos (m * mc)) 1 (e + ec))).
  - intros []; reflexivity.
  - intros []; reflexivity.
  - intros s m e _. split.
    + unfold SFmul. replace (xorb s false) with s by (destruct s; reflexivity).
      apply binary_round_aux_exact; [exact Hprec|lia|apply Hpre].
    + apply rounded_nonneg; [exact Hprec|lia|lia|apply Hpre].
  - intros m1 e1 m2 e2 C1 C2 L.
    apply rounded_mono; try exact Hprec; try lia; try apply Hpre.
    apply (val_le_scaled (Z.pos m1) e1 (Z.pos m2) e2 (Z.pos mc) 1 0 0 ec);
      try lia; try (rewrite Pos2Z.inj_mul, Z.pow_0_r; ring).
    apply (canonical_val_le prec emax Hprec); assumption.
Qed.

Lemma SFdiv_core_binary_spec (m : positive) (e : Z) :
  let N := Z.pos m * 2 ^ (e - ec - div_exp prec emax mc ec m e) in
  SFdiv_core_binary prec emax (Z.pos m) e (Z.pos mc) ec
  = (N / Z.pos mc, div_exp prec emax mc ec m e, loc_of N (Z.pos mc)).
Proof.
  intros N. unfold SFdiv_core_binary. fold (div_exp prec emax mc ec m e).
  assert (Hs : 0 <= e - ec - div_exp prec emax mc ec m e) by (unfold div_exp; lia).
  assert (Hm' : match e - ec - div_exp prec emax mc ec m e with
                | 0 => Z.pos m
                | Z.pos _ => Z.shiftl (Z.pos m) (e - ec - div_exp prec emax mc ec m e)
                | Z.neg _ => 0
                end = N).
  { unfold N. destruct (e - ec - div_exp prec emax mc ec m e) as [|s|s] eqn:Es; try lia.
    rewrite Z.shiftl_mul_pow2 by lia. reflexivity. }
  rewrite Hm'.
  assert (B := Z.mod_pos_bound N (Z.pos mc) ltac:(lia)).
  unfold Z.modulo in B. unfold loc_of, Z.div, Z.modulo.
  destruct (Z.div_eucl N (Z.pos mc)) as [q r].
  rewrite new_location_spec by lia. reflexivity.
Qed.

(** The exponent chosen for a quotient is not above the exponent of its
    rounding: the quotient has bits to spare. *)
Lemma div_pre (m : positive) (e : Z) :
  div_exp prec emax mc ec m e <=
  round_exp prec emax (Z.pos m * 2 ^ (e - ec - div_exp prec emax mc ec m e)) (Z.pos mc) (div_exp prec emax mc ec m e).
Proof.
  unfold round_exp. rewrite fexp_spec.
  set (s := e - ec - div_exp prec emax mc ec m e).
  assert (Hs : 0 <= s) by (unfold s, div_exp; lia).
  set (q := Z.pos m * 2 ^ s / Z.pos mc).
  assert (Ps := pow2_pos s Hs).
  assert (Hq : 0 <= q) by (apply Z.div_pos; nia).
  assert (Dq := Zdigits2_nonneg q Hq).
  set (d1 := Zdigits2 (Z.pos m)). set (d2 := Zdigits2 (Z.pos mc)).
  assert (He : div_exp prec emax mc ec m e <= Z.max (d1 + e - (d2 + ec) - prec) (SpecFloat.emin prec emax)).
  { unfold div_exp. rewrite fexp_spec. fold d1 d2. lia. }
  assert (Hd : d1 - d2 + s <= Zdigits2 q); [|unfold s in *; lia].
  destruct (Z_le_gt_dec (d1 - d2 + s) 0) as [|Hpos]; [lia|].
  assert (L1 := Zdigits2_lower (Z.pos m) ltac:(lia)).
  assert (U2 := Zdigits2_upper (Z.pos mc) ltac:(lia)).
  assert (P1 := Zdigits2_pos (Z.pos m) ltac:(lia)).
  assert (P2 := Zdigits2_pos (Z.pos mc) ltac:(lia)).
  fold d1 in L1, P1. fold d2 in U2, P2.
  assert (Hk : d1 - d2 + s - 1 + 1 <= Zdigits2 q); [|lia].
  apply Zdigits2_ge_of_pow_le; [lia|].
  apply Z.div_le_lower_bound; [lia|].
  assert (Pk := pow2_pos (d1 - d2 + s - 1) ltac:(lia)).
  assert (X : Z.pos mc * 2 ^ (d1 - d2 + s - 1) <= 2 ^ d2 * 2 ^ (d1 - d2 + s - 1)) by nia.
  rewrite <- pow2_split in X by lia.
  replace (d2 + (d1 - d2 + s - 1)) with (d1 - 1 + s) in X by lia.
  rewrite pow2_split in X by lia.
  nia.
Qed.

(** Dividing by the positive number [mc * 2^ec] preserves the order. *)
Lemma SFdiv_const_mono :
  forall x y, SpecFloat.valid_binary prec emax x = true ->
    SpecFloat.valid_binary prec emax y = true ->
    SFleb x y = true ->
    SFleb (SFdiv prec emax x (S754_finite false mc ec))
          (SFdiv prec emax y (S754_finite false mc ec)) = true.
Proof.
  apply (sign_magnitude_mono prec emax prec emax
           (fun x => SFdiv prec emax x (S754_finite false mc ec))
           (fun m e => rounded prec emax (Z.pos m * 2 ^ (e - ec - div_exp prec emax mc ec m e))
                         (Z.pos mc) (div_exp prec emax mc ec m e))).
  - intros []; reflexivity.
  - intros []; reflexivity.
  - intros s m e _.
    assert (Hs : 0 <= e - ec - div_exp prec emax mc ec m e) by (unfold div_exp; lia).
    assert (Ps := pow2_pos _ Hs).
    split.
    + unfold SFdiv. rewrite SFdiv_core_binary_spec.
      replace (xorb s false) with s by (destruct s; reflexivity).
      apply binary_round_aux_spec; [exact Hprec|nia|lia|apply div_pre].
    + apply rounded_nonneg; [exact Hprec|nia|lia|apply div_pre].
  - intros m1 e1 m2 e2 C1 C2 L.
    assert (Hs1 : 0 <= e1 - ec - div_exp prec emax mc ec m1 e1) by (unfold div_exp; lia).
    assert (Hs2 : 0 <= e2 - ec - div_exp prec emax mc ec m2 e2) by (unfold div_exp; lia).
    assert (Ps1 := pow2_pos _ Hs1). assert (Ps2 := pow2_pos _ Hs2).
    apply rounded_mono; try exact Hprec; try lia; try nia; try apply div_pre.
    apply (val_le_scaled (Z.pos m1) e1 (Z.pos m2) e2 1 (Z.pos mc)
             (e1 - ec - div_exp prec emax mc ec m1 e1) (e2 - ec - div_exp prec emax mc ec m2 e2) (- ec));
      try lia; try ring.
    apply (canonical_val_le prec emax Hprec); assumption.
Qed.

End Scaling.

Section Narrowing.
Variables prec emax pr emx : Z.
Hypothesis Hprec : 0 < prec.
Hypothesis Hpr : 0 < pr.

Lemma align_pre (m : positive) (e : Z) :
  e - align pr emx m e <= round_exp pr emx (Z.pos m * 2 ^ align pr emx m e) 1 (e - align pr emx m e).
Proof.
  unfold round_exp. rewrite Z.div_1_r.
  rewrite Zdigits2_shift by (unfold align; lia).
  replace (Zdigits2 (Z.pos m) + align pr emx m e + (e - align pr emx m e))
    with (Z.pos (digits2_pos m) + e) by (simpl Zdigits2; lia).
  unfold align. lia.
Qed.

(** [binary_round] in the format [(pr, emx)] is a rounding of the value
    [m * 2^e]. *)
Lemma binary_round_spec (s : bool) (m : positive) (e : Z) :
  binary_round pr emx s m e
  = pack pr emx s (rounded pr emx (Z.pos m * 2 ^ align pr emx m e) 1 (e - align pr emx m e)).
Proof.
  assert (Hpre := align_pre m e).
  rewrite <- binary_round_aux_exact; [|exact Hpr|unfold align; nia|exact Hpre].
  unfold binary_round, shl_align, align.
  destruct (SpecFloat.fexp pr emx (Z.pos (digits2_pos m) + e) - e) as [|d|d] eqn:Ed.
  - replace (e - SpecFloat.fexp pr emx (Z.pos (digits2_pos m) + e)) with 0 by lia.
    cbn [Z.max Z.compare]. rewrite Z.pow_0_r, Z.mul_1_r, Z.sub_0_r. reflexivity.
  - replace (Z.max 0 (e - SpecFloat.fexp pr emx (Z.pos (digits2_pos m) + e))) with 0 by lia.
    rewrite Z.pow_0_r, Z.mul_1_r, Z.sub_0_r. reflexivity.
  - replace (Z.max 0 (e - SpecFloat.fexp pr emx (Z.pos (digits2_pos m) + e)))
      with (Z.pos d) by lia.
    fold (shift_pos d m). rewrite shift_pos_correct.
    change (Z.pow_pos 2 d) with (2 ^ Z.pos d).
    rewrite (Z.mul_comm (2 ^ Z.pos d)).
    f_equal. lia.
Qed.

(** Narrowing from the format [(prec, emax)] to [(pr, emx)] preserves the
    order. *)
Lemma narrow_mono :
  forall x y, SpecFloat.valid_binary prec emax x = true ->
    SpecFloat.valid_binary prec emax y = true ->
    SFleb x y = true -> SFleb (narrow pr emx x) (narrow pr emx y) = true.
Proof.
  apply (sign_magnitude_mono prec emax pr emx (narrow pr emx)
           (fun m e => rounded pr emx (Z.pos m * 2 ^ align pr emx m e) 1 (e - align pr emx m e))).
  - reflexivity.
  - reflexivity.
  - intros s m e _. split.
    + apply binary_round_spec.
    + apply rounded_nonneg; [exact Hpr|unfold align; nia|lia|apply align_pre].
  - intros m1 e1 m2 e2 C1 C2 L.
    assert (P1 := pow2_pos (align pr emx m1 e1) ltac:(unfold align; lia)).
    assert (P2 := pow2_pos (align pr emx m2 e2) ltac:(unfold align; lia)).
    apply rounded_mono; try exact Hpr; try lia; try nia; try apply align_pre.
    apply (val_le_scaled (Z.pos m1) e1 (Z.pos m2) e2 1 1 (align pr emx m1 e1) (align pr emx m2 e2) 0);
      try lia; try ring; try (unfold align; lia).
    apply (canonical_val_le prec emax Hprec); assumption.
Qed.

End Narrowing.

(** ** binary64 and binary32 *)

(** The same three facts on the floats of the code. *)
Lemma mul_const_mono (c a b : float) : positive_normal c = true ->
  PrimFloat.leb a b = true -> PrimFloat.leb (a * c) (b * c) = true.
Proof.
  unfold positive_normal. intros Hc.
  rewrite !FloatAxioms.leb_spec, !FloatAxioms.mul_spec.
  destruct (Prim2SF c) as [| | |[] mc ec]; try discriminate Hc.
  apply Z.eqb_eq in Hc.
  apply SFmul_const_mono; try apply Prim2SF_valid; [reflexivity|exact Hc].
Qed.

Lemma div_const_mono (c a b : float) : positive_normal c = true ->
  PrimFloat.leb a b = true -> PrimFloat.leb (a / c) (b / c) = true.
Proof.
  unfold positive_normal. intros Hc.
  rewrite !FloatAxioms.leb_spec, !FloatAxioms.div_spec.
  destruct (Prim2SF c) as [| | |[] mc ec]; try discriminate Hc.
  apply SFdiv_const_mono; try apply Prim2SF_valid. reflexivity.
Qed.

Lemma float32_mono (a b : float) :
  PrimFloat.leb a b = true -> SFleb (float32 a) (float32 b) = true.
Proof.
  rewrite FloatAxioms.leb_spec. unfold float32.
  apply (narrow_mono prec emax 24 128); try apply Prim2SF_valid; reflexivity.
Qed.

(** C9.  The estimate the code returns is, in binary64 arithmetic and
    narrowed to [float32],
    [((dLat*dLat + dLon*dLon) * 111 / 30) * 60]: the sum of the squared
    coordinate differences, in degrees, taken as a distance at 111 units per
    unit, divided by the speed 30 and converted to minutes.  Every step after
    the sum is correctly rounded, so the estimate is monotone: when the sum
    computed for one report and target is at most the sum computed for
    another, so are the estimates. *)
Theorem estimateArrivalMinutes_shape :
  (forall (location : model.OrderLocation) (destination : model.Location),
     let dLat := (model.Latitude destination - model.ol_Latitude location)%float in
     let dLon := (model.Longitude destination - model.ol_Longitude location)%float in
     estimateArrivalMinutes location destination
       = float32 ((((dLat * dLat + dLon * dLon) * 111) / 30) * 60)%float) /\
  (forall (location1 location2 : model.OrderLocation)
          (destination1 destination2 : model.Location),
     PrimFloat.leb (squaredAngle location1 destination1)
                   (squaredAngle location2 destination2) = true ->
     SFleb (estimateArrivalMinutes location1 destination1)
           (estimateArrivalMinutes location2 destination2) = true).
Proof.
  split; [reflexivity|].
  intros location1 location2 destination1 destination2 Hle.
  unfold estimateArrivalMinutes. fold (squaredAngle location1 destination1).
  fold (squaredAngle location2 destination2).
  apply float32_mono, mul_const_mono, div_const_mono, mul_const_mono;
    try reflexivity. exact Hle.
Qed.

(** The estimate as computed: a tenth of a degree away, 2.22 minutes (as a
    [float32]); two tenths away, four times as much. *)
Example estimateArrivalMinutes_samples :
  let here := {| model.ol_ID := ""; model.ol_OrderID := "order-1";
                 model.ol_ProviderID := "p1"; model.ol_Latitude := 0%float;
                 model.ol_Longitude := 0%float; model.ol_Timestamp := 0 |} in
  estimateArrivalMinutes here (demo_location 0.1 0) = float32 2.22%float /\
  estimateArrivalMinutes here (demo_location 0.2 0) = float32 8.88%float /\
  SFleb (estimateArrivalMinutes here (demo_location 0.1 0))
        (estimateArrivalMinutes here (demo_location 0.2 0)) = true.
Proof. vm_compute. repeat split; reflexivity. Qed.

(* ===================================================================== *)
(** ** Conversions between the model and the protocol buffer messages *)
(* ===================================================================== *)

Ltac enum_cases v :=
  repeat match goal with
  | |- context [v =? ?b] =>
      let E := fresh "E" in
      destruct (Z.eqb_spec v b) as [E|E]; [try (rewrite E; clear E); try reflexivity|]
  end.

Ltac name_cases s :=
  repeat match goal with
  | |- context [String.eqb s ?b] =>
      let E := fresh "E" in
      destruct (String.eqb_spec s b) as [E|E]; [try subst s|]
  end.

Lemma convertOrderType_back (ot : pb.OrderType) :
  convertOrderTypeToProto (convertOrderType ot)
  = if (1 <=? ot) && (ot <=? 5) then ot else pb.OrderType_ORDER_TYPE_RIDE.
Proof.
  unfold convertOrderType.
  unfold pb.OrderType_ORDER_TYPE_RIDE, pb.OrderType_ORDER_TYPE_FOOD_DELIVERY,
    pb.OrderType_ORDER_TYPE_PACKAGE_DELIVERY, pb.OrderType_ORDER_TYPE_GROCERY_DELIVERY,
    pb.OrderType_ORDER_TYPE_SERVICE_BOOKING.
  enum_cases ot.
  destruct (Z.leb_spec 1 ot), (Z.leb_spec ot 5); try reflexivity; lia.
Qed.

Lemma convertOrderStatus_back (os : pb.OrderStatus) :
  convertOrderStatusToProto (convertOrderStatusFromProto os)
  = if (1 <=? os) && (os <=? 15) then os else pb.OrderStatus_ORDER_STATUS_CREATED.
Proof.
  unfold convertOrderStatusFromProto.
  unfold pb.OrderStatus_ORDER_STATUS_CREATED, pb.OrderStatus_ORDER_STATUS_PAYMENT_PENDING,
    pb.OrderStatus_ORDER_STATUS_PAYMENT_COMPLETED,
    pb.OrderStatus_ORDER_STATUS_PROVIDER_ASSIGNED,
    pb.OrderStatus_ORDER_STATUS_PROVIDER_ACCEPTED,
    pb.OrderStatus_ORDER_STATUS_PROVIDER_REJECTED,
    pb.OrderStatus_ORDER_STATUS_IN_PROGRESS, pb.OrderStatus_ORDER_STATUS_PICKED_UP,
    pb.OrderStatus_ORDER_STATUS_IN_TRANSIT, pb.OrderStatus_ORDER_STATUS_ARRIVED,
    pb.OrderStatus_ORDER_STATUS_DELIVERED, pb.OrderStatus_ORDER_STATUS_COMPLETED,
    pb.OrderStatus_ORDER_STATUS_CANCELLED, pb.OrderStatus_ORDER_STATUS_REFUNDED,
    pb.OrderStatus_ORDER_STATUS_DISPUTED.
  enum_cases os.
  destruct (Z.leb_spec 1 os), (Z.leb_spec os 15); try reflexivity; lia.
Qed.

Lemma convertPaymentMethod_back (pm : pb.PaymentMethod) :
  convertPaymentMethodToProto (convertPaymentMethod pm)
  = if (1 <=? pm) && (pm <=? 5) then pm
    else pb.PaymentMethod_PAYMENT_METHOD_CREDIT_CARD.
Proof.
  unfold convertPaymentMethod.
  unfold pb.PaymentMethod_PAYMENT_METHOD_CREDIT_CARD,
    pb.PaymentMethod_PAYMENT_METHOD_DEBIT_CARD,
    pb.PaymentMethod_PAYMENT_METHOD_DIGITAL_WALLET,
    pb.PaymentMethod_PAYMENT_METHOD_CASH, pb.PaymentMethod_PAYMENT_METHOD_CRYPTO.
  enum_cases pm.
  destruct (Z.leb_spec 1 pm), (Z.leb_spec pm 5); try reflexivity; lia.
Qed.

(** X1.  An order type sent through [convertOrderType] and back through
    [convertOrderTypeToProto] is unchanged when it is one of the five named
    values and is [RIDE] otherwise; a model order type survives the way to
    the message and back exactly when it is one of the five names, and every
    other string is sent as [UNSPECIFIED]. *)
Theorem order_type_round_trip :
  (forall ot : pb.OrderType,
     convertOrderTypeToProto (convertOrderType ot)
     = if (1 <=? ot) && (ot <=? 5) then ot else pb.OrderType_ORDER_TYPE_RIDE) /\
  (forall s : model.OrderType,
     (convertOrderType (convertOrderTypeToProto s) = s <-> In s known_types) /\
     (convertOrderTypeToProto s = pb.OrderType_ORDER_TYPE_UNSPECIFIED
      <-> ~ In s known_types)).
Proof.
  split.
  - exact convertOrderType_back.
  - intros s. unfold convertOrderTypeToProto, known_types.
    unfold model.TypeRide, model.TypeFoodDelivery, model.TypePackageDelivery,
      model.TypeGroceryDelivery, model.TypeServiceBooking.
    name_cases s.
    all: try (split; [split; [intros _; simpl; auto 10|intros _; reflexivity]
                     |split; [intros H; discriminate H
                             |intros H; exfalso; apply H; simpl; auto 10]]).
    split.
    + split; [intros H; cbv in H; congruence|simpl; intuition congruence].
    + split; [intros _; simpl; intuition congruence|reflexivity].
Qed.

(** X2.  The same for the fifteen order statuses: a status value is kept by
    [convertOrderStatusFromProto] followed by [convertOrderStatusToProto]
    when it is named and becomes [CREATED] otherwise; a stored status string
    that is not one of the fifteen names is sent as [UNSPECIFIED]. *)
Theorem order_status_round_trip :
  (forall os : pb.OrderStatus,
     convertOrderStatusToProto (convertOrderStatusFromProto os)
     = if (1 <=? os) && (os <=? 15) then os else pb.OrderStatus_ORDER_STATUS_CREATED) /\
  (forall s : model.OrderStatus,
     (convertOrderStatusFromProto (convertOrderStatusToProto s) = s
      <-> In s known_statuses) /\
     (convertOrderStatusToProto s = pb.OrderStatus_ORDER_STATUS_UNSPECIFIED
      <-> ~ In s known_statuses)).
Proof.
  split.
  - exact convertOrderStatus_back.
  - intros s. unfold convertOrderStatusToProto, known_statuses.
    unfold model.StatusCreated, model.StatusPaymentPending, model.StatusPaymentComplete,
      model.StatusProviderAssigned, model.StatusProviderAccepted,
      model.StatusProviderRejected, model.StatusInProgress, model.StatusPickedUp,
      model.StatusInTransit, model.StatusArrived, model.StatusDelivered,
      model.StatusCompleted, model.StatusCancelled, model.StatusRefunded,
      model.StatusDisputed.
    name_cases s.
    all: try (split; [split; [intros _; simpl; auto 20|intros _; reflexivity]
                     |split; [intros H; discriminate H
                             |intros H; exfalso; apply H; simpl; auto 20]]).
    split.
    + split; [intros H; cbv in H; congruence|simpl; intuition congruence].
    + split; [intros _; simpl; intuition congruence|reflexivity].
Qed.

(** X3.  The same for the five payment methods, with [CREDIT_CARD] as the
    value an unnamed one becomes. *)
Theorem payment_method_round_trip :
  (forall pm : pb.PaymentMethod,
     convertPaymentMethodToProto (convertPaymentMethod pm)
     = if (1 <=? pm) && (pm <=? 5) then pm
       else pb.PaymentMethod_PAYMENT_METHOD_CREDIT_CARD) /\
  (forall s : model.PaymentMethod,
     (convertPaymentMethod (convertPaymentMethodToProto s) = s <-> In s known_payments) /\
     (convertPaymentMethodToProto s = pb.PaymentMethod_PAYMENT_METHOD_UNSPECIFIED
      <-> ~ In s known_payments)).
Proof.
  split.
  - exact convertPaymentMethod_back.
  - intros s. unfold convertPaymentMethodToProto, known_payments.
    unfold model.PaymentCreditCard, model.PaymentDebitCard, model.PaymentDigitalWallet,
      model.PaymentCash, model.PaymentCrypto.
    name_cases s.
    all: try (split; [split; [intros _; simpl; auto 10|intros _; reflexivity]
                     |split; [intros H; discriminate H
                             |intros H; exfalso; apply H; simpl; auto 10]]).
    split.
    + split; [intros H; cbv in H; congruence|simpl; intuition congruence].
    + split; [intros _; simpl; intuition congruence|reflexivity].
Qed.

Lemma fold_left_snoc_map {A B : Type} (f : A -> B) (l : list A) (acc : list B) :
  fold_left (fun acc x => acc ++ [f x]) l acc = acc ++ map f l.
Proof.
  revert acc. induction l as [|x l IH]; intros acc; simpl.
  - by rewrite app_nil_r.
  - rewrite IH. by rewrite <- app_assoc.
Qed.

Lemma convertOrderItemsToProto_map (items : model.OrderItems) :
  convertOrderItemsToProto items = map proto_item items.
Proof. unfold convertOrderItemsToProto. by rewrite (fold_left_snoc_map proto_item). Qed.

Lemma convertStatusHistoryToProto_map (history : model.StatusHistories) :
  convertStatusHistoryToProto history = map proto_entry history.
Proof.
  unfold convertStatusHistoryToProto. by rewrite (fold_left_snoc_map proto_entry).
Qed.

Lemma int32_id (n : Z) : is_int32 n -> int32 n = n.
Proof.
  unfold is_int32, int32. intros H.
  rewrite Z.mod_small; lia.
Qed.

(** X4.  The response of an accepted [CreateOrder] echoes the request: the
    user, the notes, both locations and the line items (identifier, name,
    quantity and properties, in the order given) come back as they were
    sent, each price narrowed to [float32]; the order type and the payment
    method come back as sent when they are named and as [RIDE] and
    [CREDIT_CARD] otherwise; no provider is set, the status is [CREATED],
    and the history is the single entry written by ["system"] at the time of
    creation. *)
Theorem CreateOrder_response_echoes_request (env : Env) (w : World)
    (req : pb.CreateOrderRequest) (resp : OrderResponse) (w' : World)
    (kids : list (Prog unit)) :
  run env (CreateOrder req) w = (Some (OK resp), w', kids) ->
  Forall (fun item => is_int32 (pb.Quantity item)) (pb.cr_Items req) ->
  let p := convertOrderToProto (resp_Order resp) in
  pb.ord_UserId p = pb.cr_UserId req /\
  pb.ord_Notes p = pb.cr_Notes req /\
  Some (pb.ord_PickupLocation p) = pb.cr_PickupLocation req /\
  Some (pb.ord_DestinationLocation p) = pb.cr_DestinationLocation req /\
  map item_key (pb.ord_Items p) = map item_key (pb.cr_Items req) /\
  map pb.Price (pb.ord_Items p)
    = map (fun item => float64_of_float32 (float32 (pb.Price item))) (pb.cr_Items req) /\
  pb.ord_OrderType p
    = (if (1 <=? pb.cr_OrderType req) && (pb.cr_OrderType req <=? 5)
       then pb.cr_OrderType req else pb.OrderType_ORDER_TYPE_RIDE) /\
  pb.ord_PaymentMethod p
    = (if (1 <=? pb.cr_PaymentMethod req) && (pb.cr_PaymentMethod req <=? 5)
       then pb.cr_PaymentMethod req else pb.PaymentMethod_PAYMENT_METHOD_CREDIT_CARD) /\
  pb.ord_ProviderId p = "" /\
  pb.ord_Status p = pb.OrderStatus_ORDER_STATUS_CREATED /\
  pb.ord_UpdatedAt p = pb.ord_CreatedAt p /\
  pb.ord_StatusHistory p
    = [ {| pb.osh_Status := pb.OrderStatus_ORDER_STATUS_CREATED;
           pb.osh_UpdatedBy := "system"; pb.osh_Notes := "Order created";
           pb.osh_Timestamp := pb.ord_CreatedAt p |} ].
Proof.
  intros Hrun Hq.
  apply CreateOrder_ok in Hrun as (_ & [pick Hp] & [dest Hd] & _ & _ & Hresp & _).
  rewrite Hresp. clear Hresp. cbn zeta.
  unfold convertOrderToProto, newOrder. simpl.
  rewrite Hp, Hd. simpl.
  repeat split.
  - by destruct pick.
  - by destruct dest.
  - rewrite convertOrderItemsToProto_map, convertOrderItems_map, !map_map.
    apply map_ext_Forall. eapply Forall_impl; [exact Hq|].
    intros item Hi. unfold item_key. simpl. by rewrite int32_id.
  - rewrite convertOrderItemsToProto_map, convertOrderItems_map, !map_map.
    reflexivity.
  - apply convertOrderType_back.
  - apply convertPaymentMethod_back.
Qed.

Lemma CreateOrder_response_echoes_request_witness :
  Forall (fun item => is_int32 (pb.Quantity item)) (pb.cr_Items demo_create) /\
  exists resp w' kids,
    run demo_env (CreateOrder demo_create) empty_world = (Some (OK resp), w', kids) /\
    pb.ord_UserId (convertOrderToProto (resp_Order resp)) = "u1" /\
    map item_key (pb.ord_Items (convertOrderToProto (resp_Order resp)))
      = [("sku", "item", 2, ∅); ("sku", "item", 1, ∅)].
Proof.
  assert (Hq : Forall (fun item => is_int32 (pb.Quantity item)) (pb.cr_Items demo_create)).
  { repeat constructor; simpl; lia. }
  split; [exact Hq|].
  destruct (run demo_env (CreateOrder demo_create) empty_world)
    as [[r w'] kids] eqn:Hrun.
  assert (exists resp, r = Some (OK resp)) as [resp ->].
  { vm_compute in Hrun. inversion Hrun. eauto. }
  destruct (CreateOrder_response_echoes_request demo_env empty_world demo_create
              resp w' kids Hrun Hq) as (Hu & _ & _ & _ & Hi & _).
  exists resp, w', kids. split; [reflexivity|]. split; [exact Hu|exact Hi].
Defined.

(* ===================================================================== *)
(** ** The replies of the handlers *)
(* ===================================================================== *)

Lemma named_status_back (os : pb.OrderStatus) :
  named_status (convertOrderStatusToProto (convertOrderStatusFromProto os)).
Proof.
  rewrite convertOrderStatus_back. unfold named_status.
  destruct (Z.leb_spec 1 os), (Z.leb_spec os 15); simpl;
    unfold pb.OrderStatus_ORDER_STATUS_CREATED; lia.
Qed.

(** The order replied by an accepted operation has a non-empty identifier
    and one of the named statuses. *)
Lemma handle_reply env srt w rq resp w' kids :
  wf_store w ->
  run env (handle srt rq) w = (Some (OK resp), w', kids) ->
  model.ID (resp_Order resp) <> "" /\
  named_status (convertOrderStatusToProto (model.Status (resp_Order resp))).
Proof.
  intros Hwf H. destruct rq as [req|req|req|req|req|req]; simpl in H.
  - apply CreateOrder_ok in H as (_ & _ & _ & Hid & _ & -> & _).
    split; [exact Hid|]. simpl. unfold named_status. cbv. intuition discriminate.
  - assert (Hne : pb.us_OrderId req <> "").
    { intros E. unfold UpdateOrderStatus in H. rewrite E in H. discriminate. }
    apply UpdateOrderStatus_ok in H as (o & Ho & -> & _).
    pose proof (Hwf _ _ Ho) as Hid. simpl. rewrite Hid.
    split; [exact Hne|apply named_status_back].
  - assert (Hne : pb.co_OrderId req <> "").
    { intros E. unfold CancelOrder in H. rewrite E in H. discriminate. }
    apply CancelOrder_ok in H as (o & Ho & -> & _).
    pose proof (Hwf _ _ Ho) as Hid. simpl. rewrite Hid.
    split; [exact Hne|]. cbv. intuition discriminate.
  - assert (Hne : pb.ap_OrderId req <> "").
    { intros E. unfold AssignProvider in H. rewrite E in H. discriminate. }
    apply AssignProvider_ok in H as (o & pid & Ho & -> & _); [|done].
    pose proof (Hwf _ _ Ho) as Hid. simpl. rewrite Hid.
    split; [exact Hne|]. cbv. intuition discriminate.
  - assert (Hne : pb.ao_OrderId req <> "").
    { intros E. unfold AcceptOrder in H. rewrite E in H. discriminate. }
    apply AcceptOrder_ok in H as (o & Ho & _ & -> & _); [|done].
    pose proof (Hwf _ _ Ho) as Hid. simpl. rewrite Hid.
    split; [exact Hne|]. cbv. intuition discriminate.
  - assert (Hne : pb.ro_OrderId req <> "").
    { intros E. unfold RejectOrder in H. rewrite E in H. discriminate. }
    apply RejectOrder_ok in H as (o & Ho & _ & -> & _); [|done].
    pose proof (Hwf _ _ Ho) as Hid. simpl. rewrite Hid.
    split; [exact Hne|]. cbv. intuition discriminate.
Qed.

(** X5.  The message returned by an accepted state-changing operation is
    consistent with itself: its status is one of the fifteen named values,
    never [UNSPECIFIED]; its history has as many entries as the stored
    history, in the same order; and the last entry of its history carries
    the status of the message. *)
Theorem response_history_ends_in_status (env : Env) (srt : Sorter) (w : World)
    (rq : Request) (resp : OrderResponse) (w' : World) (kids : list (Prog unit)) :
  wf_store w ->
  run env (handle srt rq) w = (Some (OK resp), w', kids) ->
  let p := convertOrderToProto (resp_Order resp) in
  named_status (pb.ord_Status p) /\
  pb.ord_Id p = model.ID (resp_Order resp) /\
  pb.ord_StatusHistory p = map proto_entry (model.StatusHistory_ (resp_Order resp)) /\
  exists e, last (pb.ord_StatusHistory p) = Some e /\
            pb.osh_Status e = pb.ord_Status p.
Proof.
  intros Hwf H. cbn zeta.
  destruct (handle_reply _ _ _ _ _ _ _ Hwf H) as [_ Hnamed].
  destruct (handle_ok _ _ _ _ _ _ _ Hwf H) as (_ & e & He & Hhist).
  unfold convertOrderToProto. simpl. rewrite convertStatusHistoryToProto_map.
  split; [exact Hnamed|]. split; [reflexivity|]. split; [reflexivity|].
  exists (proto_entry e). split; [|by simpl; rewrite He].
  destruct (is_create rq).
  - destruct Hhist as (_ & ->). reflexivity.
  - destruct Hhist as (o & _ & ->). rewrite map_app. simpl. apply last_snoc.
Qed.

Lemma response_history_ends_in_status_witness :
  wf_store demo_world /\
  exists resp w' kids,
    run demo_env (handle (@insertionSort) (ReqAccept demo_accept)) demo_world
      = (Some (OK resp), w', kids) /\
    pb.ord_Status (convertOrderToProto (resp_Order resp))
      = pb.OrderStatus_ORDER_STATUS_PROVIDER_ACCEPTED /\
    exists e, last (pb.ord_StatusHistory (convertOrderToProto (resp_Order resp))) = Some e /\
              pb.osh_Status e = pb.ord_Status (convertOrderToProto (resp_Order resp)).
Proof.
  split; [exact wf_demo_world|].
  destruct (run demo_env (handle (@insertionSort) (ReqAccept demo_accept)) demo_world)
    as [[r w'] kids] eqn:Hrun.
  assert (exists resp, r = Some (OK resp) /\
            pb.ord_Status (convertOrderToProto (resp_Order resp))
            = pb.OrderStatus_ORDER_STATUS_PROVIDER_ACCEPTED) as (resp & -> & Hst).
  { vm_compute in Hrun. inversion Hrun. eexists. split; reflexivity. }
  destruct (response_history_ends_in_status demo_env (@insertionSort) demo_world
              (ReqAccept demo_accept) resp w' kids wf_demo_world Hrun)
    as (_ & _ & _ & He).
  exists resp, w', kids. auto.
Defined.



Lemma run_UpdateOrderStatus env w req o :
  pb.us_OrderId req <> "" ->
  orders w !! pb.us_OrderId req = Some o ->
  let o' := status_updated_order env (clock_reads w)
              (convertOrderStatusFromProto (pb.us_Status req))
              (pb.us_UpdatedBy req) (pb.us_Notes req) o in
  run env (UpdateOrderStatus req) w =
  (Some (OK {| resp_Order := o'; resp_Message := "Order status updated successfully";
               resp_Success := true |}),
   set_orders (<[pb.us_OrderId req := o']> (orders w))
     (set_clock_reads (S (S (clock_reads w))) w),
   [recordOnLedger o']).
Proof.
  intros Hid Ho. unfold UpdateOrderStatus. rewrite (eqb_empty_false _ Hid).
  unfold getOrder, repository.GetOrderByID. simpl. rewrite Ho. simpl.
  rewrite Ho. simpl. rewrite Ho. simpl.
  rewrite lookup_insert_eq. simpl. reflexivity.
Qed.

(** X7.  [UpdateOrderStatus] refuses no transition.  For every stored order,
    whatever its current status (a completed or cancelled order included),
    and every status value requested, the call succeeds: the stored order
    gets the requested status when it is one of the fifteen named values and
    [CREATED] otherwise, and its history grows by the entry naming the actor
    and the notes of the request. *)
Theorem UpdateOrderStatus_accepts_any_transition (env : Env) (w : World)
    (req : pb.UpdateOrderStatusRequest) (o : model.Order) :
  pb.us_OrderId req <> "" ->
  orders w !! pb.us_OrderId req = Some o ->
  exists resp w' kids t,
    run env (UpdateOrderStatus req) w = (Some (OK resp), w', kids) /\
    orders w' !! pb.us_OrderId req = Some (resp_Order resp) /\
    pb.ord_Status (convertOrderToProto (resp_Order resp))
      = (if (1 <=? pb.us_Status req) && (pb.us_Status req <=? 15)
         then pb.us_Status req else pb.OrderStatus_ORDER_STATUS_CREATED) /\
    model.StatusHistory_ (resp_Order resp)
      = model.StatusHistory_ o ++
          [ {| model.sh_Status := model.Status (resp_Order resp);
               model.sh_UpdatedBy := pb.us_UpdatedBy req;
               model.sh_Notes := pb.us_Notes req;
               model.sh_Timestamp := t |} ].
Proof.
  intros Hid Ho. rewrite (run_UpdateOrderStatus env w req o Hid Ho).
  do 4 eexists. split; [reflexivity|]. simpl.
  split; [by rewrite lookup_insert_eq|].
  split; [apply convertOrderStatus_back|reflexivity].
Qed.

Lemma UpdateOrderStatus_accepts_any_transition_witness :
  pb.us_OrderId demo_update <> "" /\
  orders completed_world !! pb.us_OrderId demo_update
    = Some (model.set_Status model.StatusCompleted demo_order) /\
  exists resp w' kids,
    run demo_env (UpdateOrderStatus demo_update) completed_world
      = (Some (OK resp), w', kids) /\
    pb.ord_Status (convertOrderToProto (resp_Order resp))
      = pb.OrderStatus_ORDER_STATUS_IN_PROGRESS.
Proof.
  assert (Hid : pb.us_OrderId demo_update <> "") by discriminate.
  assert (Ho : orders completed_world !! pb.us_OrderId demo_update
               = Some (model.set_Status model.StatusCompleted demo_order))
    by reflexivity.
  split; [exact Hid|]. split; [exact Ho|].
  destruct (UpdateOrderStatus_accepts_any_transition demo_env completed_world
              demo_update _ Hid Ho) as (resp & w' & kids & t & Hrun & _ & Hst & _).
  exists resp, w', kids. split; [exact Hrun|exact Hst].
Defined.

(** X8.  [CreateOrder] stores one new order or nothing.  It is accepted
    exactly when the request names a user and both locations and the drawn
    identifier is non-empty and not in use; the store then holds the replied
    order under that identifier and every other order as before.  In every
    other case the reply is an error, [InvalidArgument] exactly when the user
    or a location is missing, the orders are as they were (an order already
    stored under the drawn identifier is not overwritten), and nothing is
    sent to the ledger. *)
Theorem CreateOrder_all_or_nothing (env : Env) (w : World) (req : pb.CreateOrderRequest) :
  let id := env_uuid env (uuid_draws w) in
  let complete :=
    pb.cr_UserId req <> "" /\ is_Some (pb.cr_PickupLocation req)
    /\ is_Some (pb.cr_DestinationLocation req) in
  let '(r, w', kids) := run env (CreateOrder req) w in
  match r with
  | Some (OK resp) =>
      complete /\ id <> "" /\ orders w !! id = None /\
      model.ID (resp_Order resp) = id /\
      orders w' = <[id := resp_Order resp]> (orders w) /\
      kids = [recordOnLedger (resp_Order resp)]
  | Some (Error c _) =>
      orders w' = orders w /\ kids = [] /\
      (c = InvalidArgument <-> ~ complete) /\
      (c = Internal <-> complete /\ (id = "" \/ is_Some (orders w !! id))) /\
      (~ complete -> w' = w)
  | None => False
  end.
Proof.
  cbn zeta. unfold CreateOrder.
  destruct (String.eqb_spec (pb.cr_UserId req) "") as [Hu|Hu].
  { simpl. repeat split; try done; tauto. }
  destruct (pb.cr_PickupLocation req) as [pick|] eqn:Hp; simpl.
  2: { assert (Hn : ~ is_Some (@None pb.Location)) by (intros [? ?]; done).
       repeat split; try done; tauto. }
  destruct (pb.cr_DestinationLocation req) as [dest|] eqn:Hd; simpl.
  2: { assert (Hn : ~ is_Some (@None pb.Location)) by (intros [? ?]; done).
       repeat split; try done; tauto. }
  unfold repository.CreateOrder. simpl.
  rewrite (eqb_empty_false _ Hu). rewrite orb_false_r.
  assert (Hc : pb.cr_UserId req <> "" /\ is_Some (Some pick) /\ is_Some (Some dest))
    by (repeat split; eauto).
  destruct (String.eqb_spec (env_uuid env (uuid_draws w)) "") as [Hid|Hid]; simpl.
  { repeat split; try done; tauto. }
  destruct (orders w !! env_uuid env (uuid_draws w)) as [old|] eqn:Hold; simpl.
  - assert (Hs : is_Some (Some old)) by eauto.
    repeat split; try done; tauto.
  - repeat split; eauto.
Qed.

(** X9.  Only the assigned provider may act on an order.  When the order is
    stored with another provider, or with none, [AcceptOrder], [RejectOrder]
    and [UpdateLocation] called in the name of provider [pid] answer
    [PermissionDenied], and the store, the clock and the identifier
    generator are left as they were: nothing is written and nothing is
    started. *)
Theorem only_assigned_provider_may_act (env : Env) (srt : Sorter) (w : World)
    (o : model.Order) (oid pid : string) :
  oid <> "" -> pid <> "" ->
  orders w !! oid = Some o ->
  model.ProviderID o <> pid ->
  let denied {A : Type} : option (Reply A) * World * list (Prog unit) :=
    (Some (Error PermissionDenied "provider is not assigned to this order"), w, []) in
  (forall loc, run env (AcceptOrder {| pb.ao_OrderId := oid; pb.ao_ProviderId := pid;
                                       pb.ao_CurrentLocation := loc |}) w = denied) /\
  (forall reason, run env (RejectOrder srt {| pb.ro_OrderId := oid;
                                              pb.ro_ProviderId := pid;
                                              pb.ro_Reason := reason |}) w = denied) /\
  (forall loc, run env (UpdateLocation {| pb.ul_OrderId := oid; pb.ul_ProviderId := pid;
                                          pb.ul_Location := Some loc |}) w = denied).
Proof.
  intros Ho Hp Hget Hne. cbn zeta.
  assert (E : String.eqb (model.ProviderID o) pid = false) by by apply String.eqb_neq.
  repeat split; intros x.
  - unfold AcceptOrder. simpl.
    rewrite (eqb_empty_false _ Ho), (eqb_empty_false _ Hp). simpl.
    unfold getOrder, repository.GetOrderByID. simpl. rewrite Hget. simpl.
    by rewrite E.
  - unfold RejectOrder. simpl.
    rewrite (eqb_empty_false _ Ho), (eqb_empty_false _ Hp). simpl.
    unfold getOrder, repository.GetOrderByID. simpl. rewrite Hget. simpl.
    by rewrite E.
  - unfold UpdateLocation. simpl.
    rewrite (eqb_empty_false _ Ho), (eqb_empty_false _ Hp). simpl.
    unfold repository.GetOrderByID. simpl. rewrite Hget. simpl.
    by rewrite E.
Qed.

Lemma only_assigned_provider_may_act_witness :
  "order-1" <> "" /\ "p2" <> "" /\
  orders demo_world !! "order-1" = Some demo_order /\
  model.ProviderID demo_order <> "p2" /\
  run demo_env (AcceptOrder demo_accept_other) demo_world
  = (Some (Error PermissionDenied "provider is not assigned to this order"),
     demo_world, []).
Proof.
  assert (H1 : "order-1" <> "") by discriminate.
  assert (H2 : "p2" <> "") by discriminate.
  assert (H3 : orders demo_world !! "order-1" = Some demo_order) by reflexivity.
  assert (H4 : model.ProviderID demo_order <> "p2") by discriminate.
  split; [exact H1|]. split; [exact H2|]. split; [exact H3|]. split; [exact H4|].
  destruct (only_assigned_provider_may_act demo_env (@insertionSort) demo_world
              demo_order "order-1" "p2" H1 H2 H3 H4) as (Ha & _ & _).
  exact (Ha None).
Defined.

(** X10.  An accepted [UpdateLocation] records the report and nothing else.
    For an order assigned to the reporting provider, the call appends one
    row to the location table, carrying the order, the provider and the
    coordinates of the request, a newly drawn identifier and the time of
    insertion; the orders are not touched and nothing is started; and the
    estimate it returns is computed from the reported coordinates to the
    destination when the order is [IN_TRANSIT] or [PICKED_UP], to the
    pickup point in every other status.  Should the drawn identifier already
    be in use, the call fails with [Internal] and the table is unchanged. *)
Theorem UpdateLocation_records_report (env : Env) (w : World)
    (req : pb.UpdateLocationRequest) (loc : pb.Location) (o : model.Order) :
  pb.ul_OrderId req <> "" -> pb.ul_ProviderId req <> "" ->
  pb.ul_Location req = Some loc ->
  orders w !! pb.ul_OrderId req = Some o ->
  model.ProviderID o = pb.ul_ProviderId req ->
  let row := reported_location env (uuid_draws w) (S (clock_reads w))
               (pb.ul_OrderId req) (pb.ul_ProviderId req)
               (pb.Latitude loc) (pb.Longitude loc) in
  let '(r, w', kids) := run env (UpdateLocation req) w in
  orders w' = orders w /\ kids = [] /\
  if existsb (fun l' => String.eqb (model.ol_ID l') (model.ol_ID row)) (order_locations w)
  then r = Some (Error Internal "failed to update location") /\
       order_locations w' = order_locations w
  else order_locations w' = order_locations w ++ [row] /\
       r = Some (OK {| ur_Success := true;
                       ur_Message := "Location updated successfully";
                       ur_EstimatedArrivalMinutes :=
                         estimateArrivalMinutes row (eta_target o) |}).
Proof.
  intros Ho Hp Hloc Hget Hprov. cbn zeta.
  unfold UpdateLocation. rewrite Hloc.
  rewrite (eqb_empty_false _ Ho), (eqb_empty_false _ Hp). simpl.
  unfold repository.GetOrderByID. simpl. rewrite Hget. simpl.
  rewrite Hprov, String.eqb_refl. simpl.
  destruct (existsb _ _); simpl.
  - done.
  - split; [done|]. split; [done|]. split; [done|].
    unfold eta_target. destruct (_ || _); reflexivity.
Qed.

Lemma UpdateLocation_records_report_witness :
  pb.ul_OrderId demo_report <> "" /\ pb.ul_ProviderId demo_report <> "" /\
  pb.ul_Location demo_report = Some demo_pb_location /\
  orders demo_world !! pb.ul_OrderId demo_report = Some demo_order /\
  model.ProviderID demo_order = pb.ul_ProviderId demo_report /\
  let '(r, w', kids) := run demo_env (UpdateLocation demo_report) demo_world in
  orders w' = orders demo_world /\
  map model.ol_ID (order_locations w') = ["order-1"].
Proof.
  assert (H1 : pb.ul_OrderId demo_report <> "") by discriminate.
  assert (H2 : pb.ul_ProviderId demo_report <> "") by discriminate.
  assert (H3 : pb.ul_Location demo_report = Some demo_pb_location) by reflexivity.
  assert (H4 : orders demo_world !! pb.ul_OrderId demo_report = Some demo_order)
    by reflexivity.
  assert (H5 : model.ProviderID demo_order = pb.ul_ProviderId demo_report) by reflexivity.
  split; [exact H1|]. split; [exact H2|]. split; [exact H3|]. split; [exact H4|].
  split; [exact H5|].
  pose proof (UpdateLocation_records_report demo_env demo_world demo_report
                demo_pb_location demo_order H1 H2 H3 H4 H5) as H.
  cbn zeta in H.
  destruct (run demo_env (UpdateLocation demo_report) demo_world) as [[r w'] kids].
  destruct H as (Horders & _ & Hrows). split; [exact Horders|].
  simpl in Hrows. destruct Hrows as [-> _]. reflexivity.
Defined.

(** X11.  The position sent with [AcceptOrder] is stored on a best-effort
    basis.  For an order assigned to the accepting provider the call
    succeeds and stores the accepted order whether or not a position is
    given and whether or not its insertion succeeds: with a position and an
    unused identifier one location row is appended; with an identifier
    already in use the failure is dropped and the reply is the same. *)
Theorem AcceptOrder_location_is_best_effort (env : Env) (w : World)
    (req : pb.AcceptOrderRequest) (o : model.Order) :
  wf_store w ->
  pb.ao_OrderId req <> "" -> pb.ao_ProviderId req <> "" ->
  orders w !! pb.ao_OrderId req = Some o ->
  model.ProviderID o = pb.ao_ProviderId req ->
  let o' := accepted_order env (clock_reads w) (pb.ao_ProviderId req) o in
  exists w',
    run env (AcceptOrder req) w
    = (Some (OK {| resp_Order := o'; resp_Message := "Order accepted successfully";
                   resp_Success := true |}), w', [recordOnLedger o']) /\
    orders w' = <[pb.ao_OrderId req := o']> (orders w) /\
    order_locations w' =
      match pb.ao_CurrentLocation req with
      | None => order_locations w
      | Some loc =>
          let row := reported_location env (uuid_draws w)
                       (S (S (S (S (S (clock_reads w))))))
                       (pb.ao_OrderId req) (pb.ao_ProviderId req)
                       (pb.Latitude loc) (pb.Longitude loc) in
          if existsb (fun l' => String.eqb (model.ol_ID l') (model.ol_ID row))
               (order_locations w)
          then order_locations w
          else order_locations w ++ [row]
      end.
Proof.
  intros Hwf Ho Hp Hget Hprov. cbn zeta.
  pose proof (Hwf _ _ Hget) as Hid.
  unfold AcceptOrder.
  rewrite (eqb_empty_false _ Ho), (eqb_empty_false _ Hp). simpl.
  unfold getOrder, repository.GetOrderByID. simpl. rewrite Hget. simpl.
  rewrite Hprov, String.eqb_refl. simpl.
  unfold repository.UpdateOrder. simpl.
  rewrite Hid, (eqb_empty_false _ Ho). simpl. rewrite Hid, Hget. simpl.
  rewrite updated_row_same by done.
  destruct (pb.ao_CurrentLocation req) as [loc|]; simpl.
  - destruct (existsb _ _); simpl; eexists; (split; [reflexivity|]); simpl;
      (split; [reflexivity|]); unfold reported_location; rewrite ?Hid; reflexivity.
  - eexists; (split; [reflexivity|]); simpl. split; reflexivity.
Qed.

Lemma AcceptOrder_location_is_best_effort_witness :
  wf_store demo_world /\
  pb.ao_OrderId demo_accept_at <> "" /\ pb.ao_ProviderId demo_accept_at <> "" /\
  orders demo_world !! pb.ao_OrderId demo_accept_at = Some demo_order /\
  model.ProviderID demo_order = pb.ao_ProviderId demo_accept_at /\
  exists resp w',
    run demo_env (AcceptOrder demo_accept_at) demo_world
      = (Some (OK resp), w', [recordOnLedger (resp_Order resp)]) /\
    map model.ol_OrderID (order_locations w') = ["order-1"].
Proof.
  assert (H1 : pb.ao_OrderId demo_accept_at <> "") by discriminate.
  assert (H2 : pb.ao_ProviderId demo_accept_at <> "") by discriminate.
  assert (H3 : orders demo_world !! pb.ao_OrderId demo_accept_at = Some demo_order)
    by reflexivity.
  assert (H4 : model.ProviderID demo_order = pb.ao_ProviderId demo_accept_at)
    by reflexivity.
  split; [exact wf_demo_world|].
  split; [exact H1|]. split; [exact H2|]. split; [exact H3|]. split; [exact H4|].
  destruct (AcceptOrder_location_is_best_effort demo_env demo_world demo_accept_at
              demo_order wf_demo_world H1 H2 H3 H4) as (w' & Hrun & _ & Hloc).
  eexists _, w'. split; [exact Hrun|]. rewrite Hloc. reflexivity.
Defined.

(** [FindBestProviders] for a non-negative count returns, touches nothing
    but the log of directory queries, and yields at most [N] providers. *)
Lemma FindBestProviders_result env srt order N w :
  0 <= N ->
  exists r qs,
    run env (FindBestProviders srt order N) w = (Some r, set_dir_queries qs w, []) /\
    (forall l, r = ok l -> Z.of_nat (length l) <= N).
Proof.
  intros HN.
  assert (Hrank : forall ps w0, exists r,
            run env (rankAndLimit srt ps N) w0 = (Some r, w0, []) /\
            (forall l, r = ok l -> Z.of_nat (length l) <= N)).
  { intros ps w0. unfold rankAndLimit.
    destruct (Z.gtb_spec (Z.of_nat (length (sortProvidersByScore srt ps))) N) as [Hgt|Hle].
    - destruct (Z.ltb_spec N 0); [lia|]. simpl. eexists. split; [reflexivity|].
      intros l [= <-]. rewrite length_take. lia.
    - simpl. eexists. split; [reflexivity|]. intros l [= <-]. lia. }
  unfold FindBestProviders. simpl.
  destruct (env_directory env (dir_queries w) _) as [ps|]; simpl.
  - destruct (_ <? _); simpl.
    + destruct (env_directory env _ _) as [ps2|]; simpl.
      * match goal with |- context [run env (rankAndLimit srt ps2 N) ?w0] =>
          destruct (Hrank ps2 w0) as (r & Hr & Hlen) end.
        rewrite Hr. exists r. eexists. split; [reflexivity|exact Hlen].
      * eexists _, _. split; [reflexivity|]. intros l Hl. discriminate Hl.
    + match goal with |- context [run env (rankAndLimit srt ps N) ?w0] =>
        destruct (Hrank ps w0) as (r & Hr & Hlen) end.
      rewrite Hr. exists r. eexists. split; [reflexivity|exact Hlen].
  - eexists _, _. split; [reflexivity|]. intros l Hl. discriminate Hl.
Qed.

Opaque FindBestProviders NotifyProviders.

(** X12.  [AssignProvider] with a provider named in the request never
    consults the directory and refuses no stored order: whatever the status
    of the order and whether or not it has a provider already, the order is
    stored with the named provider and the status [PROVIDER_ASSIGNED], no
    directory query is made and no provider is notified. *)
Theorem AssignProvider_by_name (env : Env) (srt : Sorter) (w : World)
    (req : pb.AssignProviderRequest) (o : model.Order) :
  wf_store w ->
  pb.ap_OrderId req <> "" -> pb.ap_ProviderId req <> "" ->
  orders w !! pb.ap_OrderId req = Some o ->
  let o' := assigned_order env (clock_reads w) (pb.ap_ProviderId req) o in
  exists w',
    run env (AssignProvider srt req) w
      = (Some (assigned_reply o'), w', [recordOnLedger o']) /\
    orders w' = <[pb.ap_OrderId req := o']> (orders w) /\
    dir_queries w' = dir_queries w /\ dir_notified w' = dir_notified w /\
    model.ProviderID o' = pb.ap_ProviderId req /\
    model.Status o' = model.StatusProviderAssigned.
Proof.
  intros Hwf Ho Hp Hget. cbn zeta.
  pose proof (Hwf _ _ Hget) as Hid.
  unfold AssignProvider. rewrite (eqb_empty_false _ Ho).
  unfold getOrder, repository.GetOrderByID. simpl. rewrite Hget. simpl.
  rewrite (eqb_empty_false _ Hp). simpl.
  unfold repository.UpdateOrder. simpl.
  rewrite Hid, (eqb_empty_false _ Ho). simpl. rewrite Hid, Hget. simpl.
  rewrite updated_row_same by done.
  eexists. split; [reflexivity|]. simpl. done.
Qed.

Lemma AssignProvider_by_name_witness :
  wf_store completed_world /\
  pb.ap_OrderId demo_assign_manual <> "" /\ pb.ap_ProviderId demo_assign_manual <> "" /\
  orders completed_world !! pb.ap_OrderId demo_assign_manual
    = Some (model.set_Status model.StatusCompleted demo_order) /\
  exists o' w',
    run demo_env (AssignProvider (@insertionSort) demo_assign_manual) completed_world
      = (Some (assigned_reply o'), w', [recordOnLedger o']) /\
    model.ProviderID o' = "p9" /\ model.Status o' = "PROVIDER_ASSIGNED" /\
    dir_queries w' = [].
Proof.
  assert (Hwf : wf_store completed_world).
  { intros id o Ho. unfold completed_world in Ho. simpl in Ho.
    apply lookup_insert_Some in Ho as [[<- <-]|[_ Ho]]; [reflexivity|discriminate Ho]. }
  assert (H1 : pb.ap_OrderId demo_assign_manual <> "") by discriminate.
  assert (H2 : pb.ap_ProviderId demo_assign_manual <> "") by discriminate.
  assert (H3 : orders completed_world !! pb.ap_OrderId demo_assign_manual
               = Some (model.set_Status model.StatusCompleted demo_order))
    by reflexivity.
  split; [exact Hwf|]. split; [exact H1|]. split; [exact H2|]. split; [exact H3|].
  destruct (AssignProvider_by_name demo_env (@insertionSort) completed_world
              demo_assign_manual _ Hwf H1 H2 H3) as (w' & Hrun & _ & Hq & _ & Hp & Hs).
  eexists _, w'. split; [exact Hrun|]. split; [exact Hp|]. split; [exact Hs|exact Hq].
Defined.

(** X13.  [AssignProvider] without a named provider takes what the matcher
    finds for three candidates: when the matcher fails the reply is
    [Internal] and when it finds nobody the reply is [NotFound], the orders
    being unchanged in both cases; otherwise every candidate found, at most
    three, is notified in the order of the ranking, and the order is stored
    with the first of them as its provider. *)
Theorem AssignProvider_by_matching (env : Env) (srt : Sorter) (w : World)
    (oid : string) (o : model.Order) :
  wf_store w ->
  oid <> "" ->
  orders w !! oid = Some o ->
  let '(found, w1, _) := run env (FindBestProviders srt o 3) w in
  let '(r, w', kids) :=
    run env (AssignProvider srt {| pb.ap_OrderId := oid; pb.ap_ProviderId := "" |}) w in
  dir_queries w' = dir_queries w1 /\
  match found with
  | Some (ok (first :: rest)) =>
      let o' := assigned_order env (clock_reads w) (pv_ID first) o in
      r = Some (assigned_reply o') /\
      orders w' = <[oid := o']> (orders w) /\
      kids = [recordOnLedger o'] /\
      (length (first :: rest) <= 3)%nat /\
      dir_notified w' = dir_notified w ++ map (fun p => (pv_ID p, oid)) (first :: rest)
  | Some (ok []) =>
      r = Some (Error NotFound "no available providers found") /\
      orders w' = orders w /\ dir_notified w' = dir_notified w /\ kids = []
  | Some (fail _) =>
      r = Some (Error Internal "failed to find providers") /\
      orders w' = orders w /\ dir_notified w' = dir_notified w /\ kids = []
  | None => False
  end.
Proof.
  intros Hwf Ho Hget.
  pose proof (Hwf _ _ Hget) as Hid.
  destruct (FindBestProviders_result env srt o 3 w ltac:(lia)) as (found & qs & Hrun & Hlen).
  rewrite Hrun.
  unfold AssignProvider. simpl. rewrite (eqb_empty_false _ Ho).
  unfold getOrder, repository.GetOrderByID. simpl. rewrite Hget. simpl.
  rewrite run_Prog_bind, Hrun.
  destruct found as [[|first rest]|e]; simpl.
  - done.
  - rewrite run_Prog_bind, run_NotifyProviders. simpl.
    unfold repository.UpdateOrder. simpl.
    rewrite Hid, (eqb_empty_false _ Ho). simpl. rewrite Hid, Hget. simpl.
    rewrite updated_row_same by done.
    split; [done|]. split; [done|]. split; [done|]. split; [done|].
    split; [|done].
    specialize (Hlen _ eq_refl). simpl in Hlen. simpl. lia.
  - done.
Qed.

Transparent FindBestProviders NotifyProviders.

Lemma AssignProvider_by_matching_witness :
  wf_store demo_world /\ "order-1" <> "" /\
  orders demo_world !! "order-1" = Some demo_order /\
  let '(r, w', kids) :=
    run demo_env (AssignProvider (@insertionSort) demo_assign_auto) demo_world in
  map fst (dir_notified w') = ["p3"; "p1"; "p2"] /\
  exists o', orders w' !! "order-1" = Some o' /\ model.ProviderID o' = "p3".
Proof.
  assert (H1 : "order-1" <> "") by discriminate.
  assert (H3 : orders demo_world !! "order-1" = Some demo_order) by reflexivity.
  split; [exact wf_demo_world|]. split; [exact H1|]. split; [exact H3|].
  pose proof (AssignProvider_by_matching demo_env (@insertionSort) demo_world
                "order-1" demo_order wf_demo_world H1 H3) as H.
  destruct (run demo_env (FindBestProviders (@insertionSort) demo_order 3) demo_world)
    as [[found w1] kids1] eqn:Hfound.
  vm_compute in Hfound. inversion Hfound; subst found w1 kids1; clear Hfound.
  change (run demo_env (AssignProvider (@insertionSort) demo_assign_auto) demo_world)
    with (run demo_env (AssignProvider (@insertionSort)
                          {| pb.ap_OrderId := "order-1"; pb.ap_ProviderId := "" |})
            demo_world).
  destruct (run demo_env (AssignProvider (@insertionSort)
                            {| pb.ap_OrderId := "order-1"; pb.ap_ProviderId := "" |})
              demo_world) as [[r w'] kids].
  destruct H as (_ & _ & Horders & _ & _ & Hnot).
  split.
  - rewrite Hnot. reflexivity.
  - eexists. rewrite Horders, lookup_insert_eq. split; reflexivity.
Defined.

Lemma run_recordOnLedger env (o : model.Order) w :
  model.ID o <> "" ->
  let w1 := set_ledger_records (ledger_records w ++ [o]) w in
  run env (recordOnLedger o) w =
  match env_ledger env (length (ledger_records w)) o with
  | None => (Some tt, w1, [])
  | Some txHash =>
      let o' := ledger_stamped env (clock_reads w) txHash o in
      match orders w !! model.ID o with
      | Some old =>
          (Some tt,
           set_orders (<[model.ID o := updated_row old o']> (orders w))
             (set_clock_reads (S (clock_reads w)) w1), [])
      | None => (Some tt, set_clock_reads (S (clock_reads w)) w1, [])
      end
  end.
Proof.
  intros Hid. unfold recordOnLedger. simpl.
  destruct (env_ledger env _ o) as [tx|]; [|reflexivity]. simpl.
  unfold repository.UpdateOrder. simpl. rewrite (eqb_empty_false _ Hid). simpl.
  destruct (orders w !! model.ID o); reflexivity.
Qed.

(** X14.  The ledger goroutine hands the order to the ledger exactly once
    and writes back only on success.  When the ledger call fails the orders
    are left as they are and nothing is tried again.  When it succeeds, the
    row of the order is replaced by the snapshot the goroutine was started
    with, carrying the transaction hash: every column other than the
    identifier and the creation time comes from the snapshot, whatever the
    row held by then, and every other row is untouched. *)
Theorem recordOnLedger_writes_snapshot_back (env : Env) (o : model.Order) (w : World) :
  model.ID o <> "" ->
  let '(r, w', kids) := run env (recordOnLedger o) w in
  r = Some tt /\ kids = [] /\
  ledger_records w' = ledger_records w ++ [o] /\
  (forall id, id <> model.ID o -> orders w' !! id = orders w !! id) /\
  match env_ledger env (length (ledger_records w)) o with
  | None => orders w' = orders w
  | Some txHash =>
      match orders w !! model.ID o with
      | None => orders w' = orders w
      | Some old =>
          exists stored,
            orders w' !! model.ID o = Some stored /\
            model.BlockchainTxHash stored = txHash /\
            model.CreatedAt stored = model.CreatedAt old /\
            model.Status stored = model.Status o /\
            model.ProviderID stored = model.ProviderID o /\
            model.StatusHistory_ stored = model.StatusHistory_ o
      end
  end.
Proof.
  intros Hid. rewrite (run_recordOnLedger env o w Hid). cbn zeta.
  destruct (env_ledger env _ o) as [tx|]; [|done].
  destruct (orders w !! model.ID o) as [old|] eqn:Hold; simpl.
  - split; [done|]. split; [done|]. split; [done|].
    split; [intros id Hne; by rewrite lookup_insert_ne|].
    eexists. rewrite lookup_insert_eq. split; [reflexivity|]. done.
  - done.
Qed.

Lemma recordOnLedger_writes_snapshot_back_witness :
  model.ID demo_order <> "" /\
  let '(r, w', kids) := run demo_env (recordOnLedger demo_order) demo_world in
  exists stored,
    orders w' !! "order-1" = Some stored /\ model.BlockchainTxHash stored = "0xabc".
Proof.
  assert (Hid : model.ID demo_order <> "") by discriminate.
  split; [exact Hid|].
  pose proof (recordOnLedger_writes_snapshot_back demo_env demo_order demo_world Hid) as H.
  destruct (run demo_env (recordOnLedger demo_order) demo_world) as [[r w'] kids].
  destruct H as (_ & _ & _ & _ & H). simpl in H.
  destruct H as (stored & Hs & Hh & _). exists stored. split; [exact Hs|exact Hh].
Defined.

(** X15.  [UpdateOrder] leaves the identifier and the creation time of a row
    alone.  For an order with a non-empty identifier it replaces, in the row
    stored under that identifier, every column but these two, stamps the
    time of the write on it, and touches no other row; when no row is stored
    under the identifier it reports [ErrOrderNotFound] and inserts nothing;
    for the empty identifier it reports [ErrInvalidData] without reading the
    clock. *)
Theorem UpdateOrder_keeps_identity (env : Env) (order : model.Order) (w : World) :
  let '(r, w', kids) := run env (repository.UpdateOrder order) w in
  kids = [] /\
  (forall id, id <> model.ID order -> orders w' !! id = orders w !! id) /\
  if String.eqb (model.ID order) "" then
    r = Some (order, Some ErrInvalidData) /\ w' = w
  else
    let stamped := model.set_UpdatedAt (env_clock env (clock_reads w)) order in
    match orders w !! model.ID order with
    | None => r = Some (stamped, Some ErrOrderNotFound) /\ orders w' = orders w
    | Some old =>
        r = Some (stamped, None) /\
        exists stored,
          orders w' !! model.ID order = Some stored /\
          model.ID stored = model.ID old /\
          model.CreatedAt stored = model.CreatedAt old /\
          model.UpdatedAt stored = env_clock env (clock_reads w) /\
          model.UserID stored = model.UserID order /\
          model.ProviderID stored = model.ProviderID order /\
          model.Status stored = model.Status order /\
          model.StatusHistory_ stored = model.StatusHistory_ order /\
          model.Items stored = model.Items order /\
          model.TotalPrice stored = model.TotalPrice order /\
          model.BlockchainTxHash stored = model.BlockchainTxHash order
    end.
Proof.
  unfold repository.UpdateOrder.
  destruct (String.eqb (model.ID order) "") eqn:E; simpl; [done|].
  destruct (orders w !! model.ID order) as [old|] eqn:Hold; simpl.
  - split; [done|]. split; [intros id Hne; by rewrite lookup_insert_ne|].
    split; [done|]. eexists. rewrite lookup_insert_eq. split; [reflexivity|].
    simpl. done.
  - done.
Qed.

(* ===================================================================== *)
(** ** Listings *)
(* ===================================================================== *)

Lemma page_rows_eq env col key page limit status w :
  page_rows env col key page limit status w
  = take (Z.to_nat (if (limit <? 1) || (limit >? 100) then 10 else limit))
      (drop (Z.to_nat (((if page <? 1 then 1 else page) - 1)
                        * (if (limit <? 1) || (limit >? 100) then 10 else limit)))
         (listing env col key status w)).
Proof.
  unfold page_rows. destruct col; reflexivity.
Qed.




Lemma listed_status_unnamed (v : pb.OrderStatus) :
  v <> pb.OrderStatus_ORDER_STATUS_UNSPECIFIED -> ~ named_status v ->
  listed_status v = model.StatusCreated.
Proof.
  unfold listed_status, named_status, pb.OrderStatus_ORDER_STATUS_UNSPECIFIED.
  intros H0 Hn. destruct (Z.eqb_spec v 0); [done|].
  unfold convertOrderStatusFromProto.
  unfold pb.OrderStatus_ORDER_STATUS_CREATED, pb.OrderStatus_ORDER_STATUS_PAYMENT_PENDING,
    pb.OrderStatus_ORDER_STATUS_PAYMENT_COMPLETED,
    pb.OrderStatus_ORDER_STATUS_PROVIDER_ASSIGNED,
    pb.OrderStatus_ORDER_STATUS_PROVIDER_ACCEPTED,
    pb.OrderStatus_ORDER_STATUS_PROVIDER_REJECTED,
    pb.OrderStatus_ORDER_STATUS_IN_PROGRESS, pb.OrderStatus_ORDER_STATUS_PICKED_UP,
    pb.OrderStatus_ORDER_STATUS_IN_TRANSIT, pb.OrderStatus_ORDER_STATUS_ARRIVED,
    pb.OrderStatus_ORDER_STATUS_DELIVERED, pb.OrderStatus_ORDER_STATUS_COMPLETED,
    pb.OrderStatus_ORDER_STATUS_CANCELLED, pb.OrderStatus_ORDER_STATUS_REFUNDED,
    pb.OrderStatus_ORDER_STATUS_DISPUTED.
  repeat match goal with
  | |- context [v =? ?b] => destruct (Z.eqb_spec v b); [lia|]
  end.
  reflexivity.
Qed.

Lemma run_ListUserOrders env w (req : pb.ListUserOrdersRequest) :
  run env (ListUserOrders req) w
  = (Some (if String.eqb (pb.lu_UserId req) ""
           then Error InvalidArgument "user ID is required"
           else listing_reply env by_user_id (pb.lu_UserId req) (pb.lu_Page req)
                  (pb.lu_Limit req) (pb.lu_Status req) w), w, []).
Proof.
  unfold ListUserOrders.
  destruct (String.eqb (pb.lu_UserId req) ""); [reflexivity|].
  replace (if negb (pb.lu_Status req =? pb.OrderStatus_ORDER_STATUS_UNSPECIFIED)
           then convertOrderStatusFromProto (pb.lu_Status req) else "")
    with (listed_status (pb.lu_Status req))
    by (unfold listed_status; by destruct (_ =? _)).
  unfold listing_reply. rewrite page_rows_eq.
  unfold repository.ListUserOrders, repository.listOrders, listing, matching_rows. simpl.
  reflexivity.
Qed.

Lemma run_ListProviderOrders env w (req : pb.ListProviderOrdersRequest) :
  run env (ListProviderOrders req) w
  = (Some (if String.eqb (pb.lp_ProviderId req) ""
           then Error InvalidArgument "provider ID is required"
           else listing_reply env by_provider_id (pb.lp_ProviderId req)
                  (pb.lp_Page req) (pb.lp_Limit req) (pb.lp_Status req) w), w, []).
Proof.
  unfold ListProviderOrders.
  destruct (String.eqb (pb.lp_ProviderId req) ""); [reflexivity|].
  replace (if negb (pb.lp_Status req =? pb.OrderStatus_ORDER_STATUS_UNSPECIFIED)
           then convertOrderStatusFromProto (pb.lp_Status req) else "")
    with (listed_status (pb.lp_Status req))
    by (unfold listed_status; by destruct (_ =? _)).
  unfold listing_reply. rewrite page_rows_eq.
  unfold repository.ListProviderOrders, repository.listOrders, listing, matching_rows. simpl.
  reflexivity.
Qed.

(** X17.  The two listing calls of the service only read, and report the
    request back as it came.  For a non-empty owner the reply carries the
    page of the repository, the number of matching orders, and the page
    number and the limit exactly as requested, also when the repository
    replaced them (a request with limit 0 is answered with limit 0 and up
    to ten orders).  The status [UNSPECIFIED] selects every status; a status
    value that is not named selects the orders in status [CREATED].  An
    empty owner is refused with [InvalidArgument]. *)
Theorem listing_calls_reply (env : Env) (w : World) :
  (forall req,
     run env (ListUserOrders req) w
     = (Some (if String.eqb (pb.lu_UserId req) ""
              then Error InvalidArgument "user ID is required"
              else listing_reply env by_user_id (pb.lu_UserId req) (pb.lu_Page req)
                     (pb.lu_Limit req) (pb.lu_Status req) w), w, [])) /\
  (forall req,
     run env (ListProviderOrders req) w
     = (Some (if String.eqb (pb.lp_ProviderId req) ""
              then Error InvalidArgument "provider ID is required"
              else listing_reply env by_provider_id (pb.lp_ProviderId req)
                     (pb.lp_Page req) (pb.lp_Limit req) (pb.lp_Status req) w), w, [])) /\
  (forall col key page limit v,
     v <> pb.OrderStatus_ORDER_STATUS_UNSPECIFIED -> ~ named_status v ->
     listing_reply env col key page limit v w
     = listing_reply env col key page limit pb.OrderStatus_ORDER_STATUS_CREATED w) /\
  (forall col key page limit v,
     limit < 1 \/ 100 < limit ->
     lr_Orders_of (listing_reply env col key page limit v w)
     = lr_Orders_of (listing_reply env col key page 10 v w)).
Proof.
  split; [|split; [|split]].
  - intros req. apply run_ListUserOrders.
  - intros req. apply run_ListProviderOrders.
  - intros col key page limit v H0 Hn. unfold listing_reply.
    rewrite (listed_status_unnamed v H0 Hn). reflexivity.
  - intros col key page limit v Hl. unfold listing_reply, lr_Orders_of.
    rewrite !page_rows_eq. rewrite !Z.gtb_ltb.
    destruct (Z.ltb_spec limit 1), (Z.ltb_spec 100 limit); simpl; try lia; reflexivity.
Qed.

(* ===================================================================== *)
(** ** The location table *)
(* ===================================================================== *)

Lemma reported_later_strict_weak (l : list model.OrderLocation) :
  strict_weak_on repository.reported_later l.
Proof.
  unfold strict_weak_on, repository.reported_later. repeat split.
  - intros a _. apply Z.ltb_irrefl.
  - intros a b c _ _ _. rewrite !Z.ltb_lt. lia.
  - intros a b c _ _ _. rewrite !Z.ltb_ge. lia.
Qed.

Lemma select_locations_perm env orderID w :
  sorts (env_order_by env) ->
  Permutation (locations_of orderID w) (repository.select_locations env orderID w).
Proof. intros Hs. apply (sort_perm _ Hs). Qed.

Lemma select_locations_sorted env orderID w :
  sorts (env_order_by env) ->
  StronglySorted (fun a b => model.ol_Timestamp b <= model.ol_Timestamp a)
    (repository.select_locations env orderID w).
Proof.
  intros Hs.
  pose proof (sort_ordered _ Hs _ repository.reported_later (locations_of orderID w)
                (reported_later_strict_weak _)) as Ho.
  unfold ordered_by, repository.reported_later in Ho.
  eapply StronglySorted_weaken; [|exact Ho].
  intros a b. simpl. rewrite Z.ltb_ge. done.
Qed.

Lemma locations_of_spec orderID w l :
  In l (locations_of orderID w) <->
  In l (order_locations w) /\ model.ol_OrderID l = orderID.
Proof.
  unfold locations_of. rewrite <- !list_elem_of_In, list_elem_of_filter.
  rewrite String.eqb_eq. tauto.
Qed.

Lemma select_locations_spec env orderID w l :
  sorts (env_order_by env) ->
  In l (repository.select_locations env orderID w) <->
  In l (order_locations w) /\ model.ol_OrderID l = orderID.
Proof.
  intros Hs. rewrite <- locations_of_spec. split.
  - apply Permutation_in, Permutation_sym, select_locations_perm, Hs.
  - apply Permutation_in, select_locations_perm, Hs.
Qed.

(** The head of the ordered rows of an order is a latest row. *)
Lemma GetLatestOrderLocation_head env orderID w :
  sorts (env_order_by env) ->
  match repository.GetLatestOrderLocation env orderID w with
  | None => forall l, In l (order_locations w) -> model.ol_OrderID l <> orderID
  | Some latest =>
      In latest (order_locations w) /\ model.ol_OrderID latest = orderID /\
      (forall l, In l (order_locations w) -> model.ol_OrderID l = orderID ->
         model.ol_Timestamp l <= model.ol_Timestamp latest)
  end.
Proof.
  intros Hs.
  pose proof (select_locations_spec env orderID w) as Hspec.
  pose proof (select_locations_sorted env orderID w Hs) as Hsorted.
  unfold repository.GetLatestOrderLocation.
  destruct (repository.select_locations env orderID w) as [|latest rest]; simpl.
  - intros l Hl Ho. by apply (proj2 (Hspec l Hs) (conj Hl Ho)).
  - destruct (proj1 (Hspec latest Hs) (or_introl eq_refl)) as [Hin Ho].
    split; [exact Hin|]. split; [exact Ho|].
    intros l Hl Hlo.
    destruct (proj2 (Hspec l Hs) (conj Hl Hlo)) as [<-|Hrest]; [lia|].
    apply StronglySorted_inv in Hsorted as [_ Hall].
    rewrite Forall_forall in Hall. apply Hall. by apply list_elem_of_In.
Qed.

(** X18.  [GetLatestOrderLocation] returns a latest report of the order.  It
    finds nothing exactly when the table holds no row of the order;
    otherwise the row returned is a row of the order in the table and no row
    of the order carries a later time.  The function of the same name on the
    order repository returns the same row and reports the absence of one as
    [ErrOrderNotFound]. *)
Theorem GetLatestOrderLocation_is_latest (env : Env) (orderID : string) (w : World) :
  sorts (env_order_by env) ->
  match repository.GetLatestOrderLocation env orderID w with
  | None =>
      (forall l, In l (order_locations w) -> model.ol_OrderID l <> orderID) /\
      repository.OrderRepository_GetLatestOrderLocation env orderID w
      = fail ErrOrderNotFound
  | Some latest =>
      In latest (order_locations w) /\ model.ol_OrderID latest = orderID /\
      (forall l, In l (order_locations w) -> model.ol_OrderID l = orderID ->
         model.ol_Timestamp l <= model.ol_Timestamp latest) /\
      repository.OrderRepository_GetLatestOrderLocation env orderID w = ok latest
  end.
Proof.
  intros Hs.
  pose proof (GetLatestOrderLocation_head env orderID w Hs) as H.
  unfold repository.OrderRepository_GetLatestOrderLocation.
  unfold repository.GetLatestOrderLocation in *.
  destruct (head (repository.select_locations env orderID w)) as [latest|].
  - destruct H as (H1 & H2 & H3). auto.
  - auto.
Qed.

Lemma GetLatestOrderLocation_is_latest_witness :
  sorts (env_order_by demo_env) /\
  exists latest,
    repository.GetLatestOrderLocation demo_env "order-1" tracked_world = Some latest /\
    model.ol_ID latest = "l2" /\
    (forall l, In l (order_locations tracked_world) ->
       model.ol_OrderID l = "order-1" ->
       model.ol_Timestamp l <= model.ol_Timestamp latest).
Proof.
  split; [exact insertionSort_sorts|].
  pose proof (GetLatestOrderLocation_is_latest demo_env "order-1" tracked_world
                insertionSort_sorts) as H.
  destruct (repository.GetLatestOrderLocation demo_env "order-1" tracked_world)
    as [latest|] eqn:E; [|discriminate E].
  destruct H as (_ & _ & Hmax & _).
  exists latest. split; [reflexivity|]. split; [|exact Hmax].
  vm_compute in E. by inversion E.
Defined.

Lemma run_UpdateLocation_latest env w (req : pb.UpdateLocationRequest)
    (loc : pb.Location) (o : model.Order) :
  sorts (env_order_by env) ->
  pb.ul_OrderId req <> "" -> pb.ul_ProviderId req <> "" ->
  pb.ul_Location req = Some loc ->
  orders w !! pb.ul_OrderId req = Some o ->
  model.ProviderID o = pb.ul_ProviderId req ->
  fresh_location_id (env_uuid env (uuid_draws w)) w ->
  (forall l, In l (order_locations w) -> model.ol_OrderID l = pb.ul_OrderId req ->
     model.ol_Timestamp l < env_clock env (S (clock_reads w))) ->
  exists resp w' kids,
    run env (UpdateLocation req) w = (Some (OK resp), w', kids) /\
    orders w' = orders w /\
    repository.GetLatestOrderLocation env (pb.ul_OrderId req) w'
    = Some (reported_location env (uuid_draws w) (S (clock_reads w))
              (pb.ul_OrderId req) (pb.ul_ProviderId req)
              (pb.Latitude loc) (pb.Longitude loc)).
Proof.
  intros Hs Ho Hp Hloc Hget Hprov Hfresh Hlater.
  unfold UpdateLocation. rewrite Hloc.
  rewrite (eqb_empty_false _ Ho), (eqb_empty_false _ Hp). simpl.
  unfold repository.GetOrderByID. simpl. rewrite Hget. simpl.
  rewrite Hprov, String.eqb_refl. simpl.
  unfold fresh_location_id in Hfresh. rewrite Hfresh. simpl.
  do 3 eexists. split; [reflexivity|]. split; [reflexivity|].
  match goal with |- repository.GetLatestOrderLocation env _ ?w1 = Some ?row =>
    set (w' := w1); set (new := row) end.
  pose proof (GetLatestOrderLocation_head env (pb.ul_OrderId req) w' Hs) as H.
  destruct (repository.GetLatestOrderLocation env (pb.ul_OrderId req) w')
    as [latest|].
  - destruct H as (Hin & Hoid & Hmax).
    assert (Hnew : In new (order_locations w')) by (simpl; apply in_or_app; right; by left).
    specialize (Hmax new Hnew eq_refl). simpl in Hmax.
    simpl in Hin. apply in_app_or in Hin as [Hold|[<-|[]]]; [|reflexivity].
    specialize (Hlater latest Hold Hoid). lia.
  - exfalso. apply (H new); [simpl; apply in_or_app; right; by left|reflexivity].
Qed.

(** X19.  A report is what the next read finds.  After an accepted
    [UpdateLocation] whose row is stamped later than every row the order had
    before, [GetLatestOrderLocation] returns exactly the row just
    inserted. *)
Theorem UpdateLocation_then_latest (env : Env) (w : World)
    (req : pb.UpdateLocationRequest) (loc : pb.Location) (o : model.Order) :
  sorts (env_order_by env) ->
  pb.ul_OrderId req <> "" -> pb.ul_ProviderId req <> "" ->
  pb.ul_Location req = Some loc ->
  orders w !! pb.ul_OrderId req = Some o ->
  model.ProviderID o = pb.ul_ProviderId req ->
  fresh_location_id (env_uuid env (uuid_draws w)) w ->
  (forall l, In l (order_locations w) -> model.ol_OrderID l = pb.ul_OrderId req ->
     model.ol_Timestamp l < env_clock env (S (clock_reads w))) ->
  let row := reported_location env (uuid_draws w) (S (clock_reads w))
               (pb.ul_OrderId req) (pb.ul_ProviderId req)
               (pb.Latitude loc) (pb.Longitude loc) in
  let '(r, w', _) := run env (UpdateLocation req) w in
  (exists resp, r = Some (OK resp)) /\
  repository.GetLatestOrderLocation env (pb.ul_OrderId req) w' = Some row.
Proof.
  intros Hs Ho Hp Hloc Hget Hprov Hfresh Hlater. cbn zeta.
  destruct (run_UpdateLocation_latest env w req loc o Hs Ho Hp Hloc Hget Hprov
              Hfresh Hlater) as (resp & w' & kids & -> & _ & Hlatest).
  split; [eauto|exact Hlatest].
Qed.

Lemma UpdateLocation_then_latest_witness :
  sorts (env_order_by demo_env) /\
  fresh_location_id (env_uuid demo_env (uuid_draws tracked_world)) tracked_world /\
  (forall l, In l (order_locations tracked_world) ->
     model.ol_OrderID l = pb.ul_OrderId demo_report ->
     model.ol_Timestamp l < env_clock demo_env (S (clock_reads tracked_world))) /\
  let '(r, w', _) := run demo_env (UpdateLocation demo_report) tracked_world in
  exists row,
    repository.GetLatestOrderLocation demo_env "order-1" w' = Some row /\
    model.ol_Timestamp row = 1001.
Proof.
  assert (H1 : pb.ul_OrderId demo_report <> "") by discriminate.
  assert (H2 : pb.ul_ProviderId demo_report <> "") by discriminate.
  assert (H3 : pb.ul_Location demo_report = Some demo_pb_location) by reflexivity.
  assert (H4 : orders tracked_world !! pb.ul_OrderId demo_report = Some demo_order)
    by reflexivity.
  assert (H5 : model.ProviderID demo_order = pb.ul_ProviderId demo_report) by reflexivity.
  assert (H6 : fresh_location_id (env_uuid demo_env (uuid_draws tracked_world))
                 tracked_world) by reflexivity.
  assert (H7 : forall l, In l (order_locations tracked_world) ->
            model.ol_OrderID l = pb.ul_OrderId demo_report ->
            model.ol_Timestamp l < env_clock demo_env (S (clock_reads tracked_world))).
  { intros l Hl _. simpl in Hl.
    destruct Hl as [<-|[<-|[<-|[<-|[]]]]]; simpl; lia. }
  split; [exact insertionSort_sorts|]. split; [exact H6|]. split; [exact H7|].
  pose proof (UpdateLocation_then_latest demo_env tracked_world demo_report
                demo_pb_location demo_order insertionSort_sorts H1 H2 H3 H4 H5 H6 H7) as H.
  cbn zeta in H.
  destruct (run demo_env (UpdateLocation demo_report) tracked_world) as [[r w'] kids].
  destruct H as [_ H]. eexists. split; [exact H|reflexivity].
Defined.



(** X21.  [DeleteOrderLocations] removes the reports of one order and of no
    other: afterwards [GetLatestOrderLocation] finds nothing for that order
    and the history of that order is empty, while for every other order the
    latest report and the history are what they were; the orders themselves
    are not touched. *)
Theorem DeleteOrderLocations_removes_one_order (env : Env) (orderID : string)
    (w : World) :
  sorts (env_order_by env) ->
  let w' := repository.DeleteOrderLocations orderID w in
  orders w' = orders w /\
  repository.GetLatestOrderLocation env orderID w' = None /\
  (forall limit, repository.GetOrderLocationsHistory env orderID limit w' = []) /\
  (forall other, other <> orderID ->
     locations_of other w' = locations_of other w /\
     repository.GetLatestOrderLocation env other w'
     = repository.GetLatestOrderLocation env other w /\
     forall limit, repository.GetOrderLocationsHistory env other limit w'
                   = repository.GetOrderLocationsHistory env other limit w).
Proof.
  intros Hs. cbn zeta.
  assert (Hgone : locations_of orderID (repository.DeleteOrderLocations orderID w) = []).
  { unfold locations_of, repository.DeleteOrderLocations. simpl.
    induction (order_locations w) as [|l ls IH]; [reflexivity|].
    rewrite filter_cons. destruct (decide _) as [E|E].
    - rewrite filter_cons. destruct (decide _) as [E'|E']; [congruence|exact IH].
    - exact IH. }
  assert (Hkept : forall other, other <> orderID ->
            locations_of other (repository.DeleteOrderLocations orderID w)
            = locations_of other w).
  { intros other Hne. unfold locations_of, repository.DeleteOrderLocations. simpl.
    induction (order_locations w) as [|l ls IH]; [reflexivity|].
    rewrite !filter_cons.
    destruct (decide (String.eqb (model.ol_OrderID l) orderID = false)) as [E|E].
    - rewrite filter_cons. destruct (decide _); by rewrite IH.
    - destruct (decide (String.eqb (model.ol_OrderID l) other = true)) as [E'|E'];
        [|exact IH].
      apply String.eqb_eq in E'. apply not_false_is_true, String.eqb_eq in E.
      congruence. }
  assert (Hsel : repository.select_locations env orderID
                   (repository.DeleteOrderLocations orderID w) = []).
  { apply Permutation_nil_r.
    rewrite <- Hgone. apply Permutation_sym, select_locations_perm, Hs. }
  split; [reflexivity|].
  unfold repository.GetLatestOrderLocation, repository.GetOrderLocationsHistory.
  rewrite Hsel. split; [reflexivity|]. split; [intros limit; apply take_nil|].
  intros other Hne. specialize (Hkept other Hne).
  assert (Hsel' : repository.select_locations env other
                    (repository.DeleteOrderLocations orderID w)
                  = repository.select_locations env other w).
  { unfold repository.select_locations. fold (locations_of other w).
    fold (locations_of other (repository.DeleteOrderLocations orderID w)).
    by rewrite Hkept. }
  split; [exact Hkept|]. by rewrite Hsel'.
Qed.

Lemma DeleteOrderLocations_removes_one_order_witness :
  sorts (env_order_by demo_env) /\
  repository.GetLatestOrderLocation demo_env "order-1"
    (repository.DeleteOrderLocations "order-1" tracked_world) = None /\
  repository.GetLatestOrderLocation demo_env "order-2"
    (repository.DeleteOrderLocations "order-1" tracked_world)
  = Some (demo_row "l4" "order-2" 12).
Proof.
  split; [exact insertionSort_sorts|].
  destruct (DeleteOrderLocations_removes_one_order demo_env "order-1" tracked_world
              insertionSort_sorts) as (_ & Hnone & _ & Hother).
  split; [exact Hnone|].
  destruct (Hother "order-2") as (_ & -> & _); [discriminate|reflexivity].
Defined.

(* ------------------------------------------------------------------- *)
(** *** The tracking stream *)
(* ------------------------------------------------------------------- *)

Lemma read_GetOrderByID env orderId w :
  (run env (repository.GetOrderByID orderId) w).1.1
  = Some (match orders w !! orderId with
          | Some o => ok o
          | None => fail ErrOrderNotFound
          end).
Proof.
  unfold repository.GetOrderByID. simpl. by destruct (orders w !! orderId).
Qed.

Lemma update_from_store_cons orderId e events u :
  update_from_store orderId events u -> update_from_store orderId (e :: events) u.
Proof.
  intros (wl & wo & b & l & o & Hin & H). exists wl, wo, b, l, o.
  split; [by right|exact H].
Qed.

Lemma trackLoop_sound env orderId events :
  sorts (env_order_by env) ->
  forall lastLocationID,
    let '(sent, returned) := trackLoop env orderId lastLocationID events in
    (length sent <= length events)%nat /\
    Forall (update_from_store orderId events) sent /\
    (returned = None -> ~ In ctx_Done events) /\
    (returned = Some (OK tt) -> In ctx_Done events) /\
    (forall c m, returned = Some (Error c m) ->
       c = Internal /\ m = "failed to send update" /\ some_send_failed events).
Proof.
  intros Hs. induction events as [|e events IH]; intros last.
  { simpl. split; [lia|]. split; [constructor|]. split; [intros _ []|].
    split; [done|done]. }
  assert (Hskip : forall last',
            let '(sent, returned) := trackLoop env orderId last' events in
            (length sent <= length (e :: events))%nat /\
            Forall (update_from_store orderId (e :: events)) sent /\
            (returned = None -> e <> ctx_Done -> ~ In ctx_Done (e :: events)) /\
            (returned = Some (OK tt) -> In ctx_Done (e :: events)) /\
            (forall c m, returned = Some (Error c m) ->
               c = Internal /\ m = "failed to send update" /\
               some_send_failed (e :: events))).
  { intros last'. specialize (IH last').
    destruct (trackLoop env orderId last' events) as [sent returned].
    destruct IH as (Hlen & Hall & Hnone & Hok & Herr).
    split; [simpl; lia|]. split.
    { eapply Forall_impl; [exact Hall|]. intros u. apply update_from_store_cons. }
    split; [intros E Hne [->|Hin]; [done|by apply Hnone]|].
    split; [intros E; right; by apply Hok|].
    intros c m E. destruct (Herr c m E) as (-> & -> & wl & wo & Hin).
    repeat split. exists wl, wo. by right. }
  destruct e as [wl wo b|].
  2:{ simpl. split; [lia|]. split; [constructor|]. split; [done|].
      split; [intros _; by left|done]. }
  assert (Hsame : forall last',
            let '(sent, returned) := trackLoop env orderId last' events in
            (length sent <= length (tick wl wo b :: events))%nat /\
            Forall (update_from_store orderId (tick wl wo b :: events)) sent /\
            (returned = None -> ~ In ctx_Done (tick wl wo b :: events)) /\
            (returned = Some (OK tt) -> In ctx_Done (tick wl wo b :: events)) /\
            (forall c m, returned = Some (Error c m) ->
               c = Internal /\ m = "failed to send update" /\
               some_send_failed (tick wl wo b :: events))).
  { intros last'. specialize (Hskip last').
    destruct (trackLoop env orderId last' events) as [sent returned].
    destruct Hskip as (H1 & H2 & H3 & H4 & H5).
    split; [exact H1|]. split; [exact H2|]. split; [|split; [exact H4|exact H5]].
    intros E. by apply H3. }
  cbn [trackLoop].
  destruct (repository.GetLatestOrderLocation env orderId wl) as [l|] eqn:El;
    [|apply Hsame].
  destruct (String.eqb (model.ol_ID l) last); [apply Hsame|].
  rewrite read_GetOrderByID. destruct (orders wo !! orderId) as [o|] eqn:Eo;
    [|apply Hsame].
  destruct b.
  - specialize (Hsame (model.ol_ID l)). specialize (IH (model.ol_ID l)).
    destruct (trackLoop env orderId (model.ol_ID l) events) as [sent returned].
    destruct Hsame as (_ & Hall & Hrest). destruct IH as (Hlen & _).
    split; [simpl; lia|]. split; [|exact Hrest].
    constructor; [|exact Hall].
    pose proof (GetLatestOrderLocation_head env orderId wl Hs) as H.
    rewrite El in H. destruct H as (Hin & Hoid & _).
    exists wl, wo, true, l, o. repeat split; try done. by left.
  - split; [simpl; lia|]. split; [constructor|].
    split; [done|]. split; [done|].
    intros c m [= <- <-]. repeat split. exists wl, wo. by left.
Qed.

Lemma trackLoop_quiet_none env orderId last w n rest :
  repository.GetLatestOrderLocation env orderId w = None ->
  trackLoop env orderId last (quiet_ticks w n ++ rest)
  = trackLoop env orderId last rest.
Proof.
  intros Hnone. induction n as [|n IH]; [reflexivity|].
  simpl. by rewrite Hnone.
Qed.

Lemma trackLoop_quiet env orderId w l o n rest :
  repository.GetLatestOrderLocation env orderId w = Some l ->
  orders w !! orderId = Some o ->
  forall last,
    trackLoop env orderId last (quiet_ticks w n ++ rest)
    = if Nat.eqb n 0 || String.eqb (model.ol_ID l) last
      then trackLoop env orderId last rest
      else let '(sent, returned) := trackLoop env orderId (model.ol_ID l) rest in
           (locationUpdate orderId l o :: sent, returned).
Proof.
  intros Hl Ho. induction n as [|n IH]; intros last; [reflexivity|].
  cbn [quiet_ticks repeat app trackLoop]. rewrite Hl. destruct (String.eqb (model.ol_ID l) last) eqn:E.
  - fold (quiet_ticks w n). rewrite IH, E, orb_true_r. reflexivity.
  - rewrite read_GetOrderByID, Ho. fold (quiet_ticks w n).
    rewrite IH, String.eqb_refl, orb_true_r. reflexivity.
Qed.

(** X22.  [TrackOrder] refuses a request without an order ID and a request
    for an order the store does not hold before it sends anything: the
    stream ends with [InvalidArgument] or [NotFound], whatever happens
    next. *)
Theorem TrackOrder_needs_known_order (env : Env) (orderId : string) (w : World)
    (events : list StreamEvent) :
  orderId = "" \/ orders w !! orderId = None ->
  TrackOrder env orderId w events
  = ([], Some (if String.eqb orderId ""
               then Error InvalidArgument "order ID is required"
               else Error NotFound "order not found")).
Proof.
  intros H. unfold TrackOrder. destruct (String.eqb orderId "") eqn:E; [reflexivity|].
  destruct H as [->|H]; [done|]. by rewrite read_GetOrderByID, H.
Qed.

Lemma TrackOrder_needs_known_order_witness :
  TrackOrder demo_env "order-9" tracked_world (quiet_ticks tracked_world 3)
  = ([], Some (Error NotFound "order not found")).
Proof.
  apply (TrackOrder_needs_known_order demo_env "order-9" tracked_world
           (quiet_ticks tracked_world 3)).
  right. reflexivity.
Defined.

(** X23.  What a tracking stream sends and how it ends.  For a known order,
    at most one update is sent per event; every update carries the order ID
    of the request and was built from a report of that order and from the
    order as the store held them at a tick.  The stream is still open only
    if the context has not ended; it ends without an error only when the
    context ended; and the only error it ends with is [Internal], after a
    send failed. *)
Theorem TrackOrder_stream (env : Env) (orderId : string) (w : World)
    (o : model.Order) (events : list StreamEvent) :
  sorts (env_order_by env) ->
  orderId <> "" -> orders w !! orderId = Some o ->
  let '(sent, returned) := TrackOrder env orderId w events in
  (length sent <= length events)%nat /\
  Forall (fun u => pb.olu_OrderId u = orderId /\
                   update_from_store orderId events u) sent /\
  (returned = None -> ~ In ctx_Done events) /\
  (returned = Some (OK tt) -> In ctx_Done events) /\
  (forall c m, returned = Some (Error c m) ->
     c = Internal /\ m = "failed to send update" /\ some_send_failed events).
Proof.
  intros Hs Hne Ho. unfold TrackOrder.
  rewrite (eqb_empty_false _ Hne), read_GetOrderByID, Ho.
  pose proof (trackLoop_sound env orderId events Hs "") as H.
  destruct (trackLoop env orderId "" events) as [sent returned].
  destruct H as (Hlen & Hall & Hrest). split; [exact Hlen|]. split; [|exact Hrest].
  eapply Forall_impl; [exact Hall|]. intros u Hu. split; [|exact Hu].
  destruct Hu as (? & ? & ? & ? & ? & _ & _ & _ & _ & ->). reflexivity.
Qed.

Lemma TrackOrder_stream_witness :
  sorts (env_order_by demo_env) /\
  let '(sent, returned) :=
    TrackOrder demo_env "order-1" tracked_world
      [tick tracked_world tracked_world true; tick demo_world demo_world true;
       tick tracked_world tracked_world false; ctx_Done] in
  length sent = 1%nat /\
  Forall (fun u => pb.olu_OrderId u = "order-1") sent /\
  returned = Some (OK tt).
Proof.
  split; [exact insertionSort_sorts|].
  assert (Hne : "order-1" <> "") by discriminate.
  assert (Ho : orders tracked_world !! "order-1" = Some demo_order) by reflexivity.
  pose proof (TrackOrder_stream demo_env "order-1" tracked_world demo_order
                [tick tracked_world tracked_world true; tick demo_world demo_world true;
                 tick tracked_world tracked_world false; ctx_Done]
                insertionSort_sorts Hne Ho) as H.
  destruct (TrackOrder demo_env "order-1" tracked_world _) as [sent returned] eqn:E.
  destruct H as (_ & Hall & _).
  vm_compute in E. injection E as <- <-.
  split; [reflexivity|]. split; [|reflexivity].
  eapply Forall_impl; [exact Hall|]. by intros u [Hu _].
Defined.

(** X24.  A report is sent once.  While the store does not change, a tracker
    sends the latest report of the order at its first tick and nothing at
    the ticks after it, however many there are; a report whose ID is the
    empty string is never sent, and neither is anything while the order has
    no report. *)
Theorem TrackOrder_sends_a_report_once (env : Env) (orderId : string)
    (w0 w : World) (o0 o : model.Order) (n : nat) :
  orderId <> "" -> orders w0 !! orderId = Some o0 ->
  orders w !! orderId = Some o ->
  TrackOrder env orderId w0 (quiet_ticks w (S n) ++ [ctx_Done])
  = (match repository.GetLatestOrderLocation env orderId w with
     | Some location =>
         if String.eqb (model.ol_ID location) "" then []
         else [locationUpdate orderId location o]
     | None => []
     end, Some (OK tt)).
Proof.
  intros Hne Ho0 Ho. unfold TrackOrder.
  rewrite (eqb_empty_false _ Hne), read_GetOrderByID, Ho0.
  destruct (repository.GetLatestOrderLocation env orderId w) as [l|] eqn:El.
  - rewrite (trackLoop_quiet env orderId w l o (S n) [ctx_Done] El Ho "").
    simpl. by destruct (String.eqb (model.ol_ID l) "").
  - by rewrite trackLoop_quiet_none.
Qed.

Lemma TrackOrder_sends_a_report_once_witness :
  map pb.olu_Timestamp
    (TrackOrder demo_env "order-1" demo_world
       (quiet_ticks tracked_world 5 ++ [ctx_Done])).1 = [9].
Proof.
  assert (Hne : "order-1" <> "") by discriminate.
  assert (Ho0 : orders demo_world !! "order-1" = Some demo_order) by reflexivity.
  assert (Ho : orders tracked_world !! "order-1" = Some demo_order) by reflexivity.
  rewrite (TrackOrder_sends_a_report_once demo_env "order-1" demo_world tracked_world
             demo_order demo_order 4 Hne Ho0 Ho).
  reflexivity.
Defined.

(** X25.  A report reaches the tracker at its next tick.  A tracker that has
    polled a store any number of times sends, at its first tick after an
    accepted [UpdateLocation] on that store, one more update, built from
    the row just inserted; it sends it once. *)
Theorem TrackOrder_sends_new_report (env : Env) (w : World)
    (req : pb.UpdateLocationRequest) (loc : pb.Location) (o : model.Order)
    (m n : nat) :
  sorts (env_order_by env) ->
  pb.ul_OrderId req <> "" -> pb.ul_ProviderId req <> "" ->
  pb.ul_Location req = Some loc ->
  orders w !! pb.ul_OrderId req = Some o ->
  model.ProviderID o = pb.ul_ProviderId req ->
  fresh_location_id (env_uuid env (uuid_draws w)) w ->
  env_uuid env (uuid_draws w) <> "" ->
  (forall l, In l (order_locations w) -> model.ol_OrderID l = pb.ul_OrderId req ->
     model.ol_Timestamp l < env_clock env (S (clock_reads w))) ->
  let row := reported_location env (uuid_draws w) (S (clock_reads w))
               (pb.ul_OrderId req) (pb.ul_ProviderId req)
               (pb.Latitude loc) (pb.Longitude loc) in
  let w' := (run env (UpdateLocation req) w).1.2 in
  TrackOrder env (pb.ul_OrderId req) w
    (quiet_ticks w m ++ quiet_ticks w' (S n) ++ [ctx_Done])
  = ((TrackOrder env (pb.ul_OrderId req) w (quiet_ticks w m)).1
       ++ [locationUpdate (pb.ul_OrderId req) row o],
     Some (OK tt)).
Proof.
  intros Hs Hne Hp Hloc Ho Hprov Hfresh Huuid Hlater. cbn zeta.
  destruct (run_UpdateLocation_latest env w req loc o Hs Hne Hp Hloc Ho Hprov
              Hfresh Hlater) as (resp & w' & kids & -> & Horders & Hlatest).
  simpl. set (orderId := pb.ul_OrderId req) in *.
  set (row := reported_location _ _ _ _ _ _ _) in *.
  assert (Ho' : orders w' !! orderId = Some o) by (by rewrite Horders).
  assert (Hrow : model.ol_ID row = env_uuid env (uuid_draws w)) by reflexivity.
  assert (Hnew : forall last, last <> env_uuid env (uuid_draws w) ->
            trackLoop env orderId last (quiet_ticks w' (S n) ++ [ctx_Done])
            = ([locationUpdate orderId row o], Some (OK tt))).
  { intros last Hlast.
    rewrite (trackLoop_quiet env orderId w' row o (S n) [ctx_Done] Hlatest Ho' last).
    rewrite Hrow. simpl.
    destruct (String.eqb_spec (env_uuid env (uuid_draws w)) last); [congruence|].
    reflexivity. }
  unfold TrackOrder. rewrite (eqb_empty_false _ Hne), read_GetOrderByID, Ho.
  destruct (repository.GetLatestOrderLocation env orderId w) as [l|] eqn:El.
  - rewrite (trackLoop_quiet env orderId w l o m _ El Ho "").
    pose proof (trackLoop_quiet env orderId w l o m [] El Ho "") as Hm.
    rewrite app_nil_r in Hm. rewrite Hm. clear Hm.
    destruct (Nat.eqb m 0 || String.eqb (model.ol_ID l) "") eqn:E.
    + simpl. apply Hnew. congruence.
    + rewrite Hnew; [reflexivity|].
      pose proof (GetLatestOrderLocation_head env orderId w Hs) as H.
      rewrite El in H. destruct H as (Hin & _ & _).
      unfold fresh_location_id in Hfresh. intros Heq.
      assert (Hex : existsb (fun x => String.eqb (model.ol_ID x)
                       (env_uuid env (uuid_draws w))) (order_locations w) = true).
      { apply existsb_exists. exists l. split; [exact Hin|by apply String.eqb_eq]. }
      congruence.
  - rewrite trackLoop_quiet_none by exact El.
    pose proof (trackLoop_quiet_none env orderId "" w m [] El) as Hm.
    rewrite app_nil_r in Hm. rewrite Hm. simpl. apply Hnew. congruence.
Qed.

Lemma TrackOrder_sends_new_report_witness :
  sorts (env_order_by demo_env) /\
  fresh_location_id (env_uuid demo_env (uuid_draws tracked_world)) tracked_world /\
  (forall l, In l (order_locations tracked_world) ->
     model.ol_OrderID l = pb.ul_OrderId demo_report ->
     model.ol_Timestamp l < env_clock demo_env (S (clock_reads tracked_world))) /\
  map pb.olu_Timestamp
    (TrackOrder demo_env "order-1" tracked_world
       (quiet_ticks tracked_world 2
        ++ quiet_ticks (run demo_env (UpdateLocation demo_report) tracked_world).1.2 3
        ++ [ctx_Done])).1
  = [9; 1001].
Proof.
  assert (H1 : pb.ul_OrderId demo_report <> "") by discriminate.
  assert (H2 : pb.ul_ProviderId demo_report <> "") by discriminate.
  assert (H3 : pb.ul_Location demo_report = Some demo_pb_location) by reflexivity.
  assert (H4 : orders tracked_world !! pb.ul_OrderId demo_report = Some demo_order)
    by reflexivity.
  assert (H5 : model.ProviderID demo_order = pb.ul_ProviderId demo_report) by reflexivity.
  assert (H6 : fresh_location_id (env_uuid demo_env (uuid_draws tracked_world))
                 tracked_world) by reflexivity.
  assert (H7 : env_uuid demo_env (uuid_draws tracked_world) <> "") by discriminate.
  assert (H8 : forall l, In l (order_locations tracked_world) ->
            model.ol_OrderID l = pb.ul_OrderId demo_report ->
            model.ol_Timestamp l < env_clock demo_env (S (clock_reads tracked_world))).
  { intros l Hl _. simpl in Hl.
    destruct Hl as [<-|[<-|[<-|[<-|[]]]]]; simpl; lia. }
  split; [exact insertionSort_sorts|]. split; [exact H6|]. split; [exact H8|].
  pose proof (TrackOrder_sends_new_report demo_env tracked_world demo_report
                demo_pb_location demo_order 2 2 insertionSort_sorts
                H1 H2 H3 H4 H5 H6 H7 H8) as H.
  cbn zeta in H. change (pb.ul_OrderId demo_report) with "order-1" in H.
  rewrite H. reflexivity.
Defined.

(* ------------------------------------------------------------------- *)
(** *** Fees *)
(* ------------------------------------------------------------------- *)

(** X26.  Fees grow with the total.  [CalculateFees] leaves the total price
    as it is, and of two orders the one with the larger total price never
    has the smaller platform fee or the smaller provider fee: the products
    by 0.1 and 0.8 are correctly rounded.  The same holds for the three
    amounts once [convertOrderToProto] has narrowed them to [float32]. *)
Theorem fees_grow_with_total (o1 o2 : model.Order) :
  PrimFloat.leb (model.TotalPrice o1) (model.TotalPrice o2) = true ->
  let f1 := model.CalculateFees o1 in
  let f2 := model.CalculateFees o2 in
  model.TotalPrice f1 = model.TotalPrice o1 /\
  PrimFloat.leb (model.PlatformFee f1) (model.PlatformFee f2) = true /\
  PrimFloat.leb (model.ProviderFee f1) (model.ProviderFee f2) = true /\
  SFleb (pb.ord_TotalPrice (convertOrderToProto f1))
        (pb.ord_TotalPrice (convertOrderToProto f2)) = true /\
  SFleb (pb.ord_PlatformFee (convertOrderToProto f1))
        (pb.ord_PlatformFee (convertOrderToProto f2)) = true /\
  SFleb (pb.ord_ProviderFee (convertOrderToProto f1))
        (pb.ord_ProviderFee (convertOrderToProto f2)) = true.
Proof.
  intros Hle. cbn zeta.
  assert (Hp : PrimFloat.leb (model.TotalPrice o1 * 0.1) (model.TotalPrice o2 * 0.1) = true)
    by (apply mul_const_mono; [reflexivity|exact Hle]).
  assert (Hv : PrimFloat.leb (model.TotalPrice o1 * 0.8) (model.TotalPrice o2 * 0.8) = true)
    by (apply mul_const_mono; [reflexivity|exact Hle]).
  split; [reflexivity|]. split; [exact Hp|]. split; [exact Hv|].
  split; [|split]; apply float32_mono; assumption.
Qed.

Lemma fees_grow_with_total_witness :
  PrimFloat.leb (model.TotalPrice (model.set_TotalPrice 12.5 demo_order))
                (model.TotalPrice (model.set_TotalPrice 20 demo_order)) = true /\
  SFleb (pb.ord_ProviderFee (convertOrderToProto (priced 12.5 demo_order)))
        (pb.ord_ProviderFee (convertOrderToProto (priced 20 demo_order))) = true.
Proof.
  assert (H : PrimFloat.leb (model.TotalPrice (model.set_TotalPrice 12.5 demo_order))
                (model.TotalPrice (model.set_TotalPrice 20 demo_order)) = true)
    by reflexivity.
  split; [exact H|].
  exact (proj2 (proj2 (proj2 (proj2 (proj2
    (fees_grow_with_total (model.set_TotalPrice 12.5 demo_order)
       (model.set_TotalPrice 20 demo_order) H)))))).
Defined.

Lemma rounded_of_canonical (m : positive) (e : Z) :
  canonical prec emax m e ->
  rounded prec emax (Z.pos m) 1 e = (Z.pos m, e).
Proof.
  intros C. unfold canonical in C.
  assert (He : round_exp prec emax (Z.pos m) 1 e = e).
  { unfold round_exp. rewrite Z.div_1_r. exact C. }
  assert (Hm : round_man prec emax (Z.pos m) 1 e = Z.pos m).
  { unfold round_man. rewrite He, Z.sub_diag. apply RNE_exact. }
  unfold rounded. rewrite Hm, He.
  assert (B := digits2_pos_bounds m).
  rewrite (fexp_spec prec emax) in C.
  assert (Hd : Z.pos (digits2_pos m) <= prec) by lia.
  assert (Z.pos m < 2 ^ prec).
  { eapply Z.lt_le_trans; [apply B|]. apply Z.pow_le_mono_r; lia. }
  destruct (Z.eqb_spec (Z.pos m) (2 ^ prec)); [lia|reflexivity].
Qed.

Lemma scaled_pre (mc : positive) (ec : Z) (m : positive) (e : Z) :
  Z.pos (digits2_pos mc) = prec ->
  e + ec <= round_exp prec emax (Z.pos (m * mc)) 1 (e + ec).
Proof.
  intros Hc. assert (Bc := digits2_pos_bounds mc). rewrite Hc in Bc.
  unfold round_exp. rewrite Z.div_1_r, (fexp_spec prec emax).
  assert (prec - 1 + 1 <= Zdigits2 (Z.pos (m * mc))).
  { apply Zdigits2_ge_of_pow_le; [lia|]. rewrite Pos2Z.inj_mul. nia. }
  lia.
Qed.

Lemma SFmul_shares (x : spec_float) :
  SpecFloat.valid_binary prec emax x = true ->
  SFleb (S754_zero false) x = true ->
  SFleb (S754_zero false) (SFmul prec emax x (Prim2SF 0.1)) = true /\
  SFleb (SFmul prec emax x (Prim2SF 0.1)) (SFmul prec emax x (Prim2SF 0.8)) = true /\
  SFleb (SFmul prec emax x (Prim2SF 0.8)) x = true.
Proof.
  intros Hv Hx.
  change (Prim2SF 0.1) with (S754_finite false 7205759403792794 (-56)).
  change (Prim2SF 0.8) with (S754_finite false 7205759403792794 (-53)).
  destruct x as [[]|[]| |[] m e]; try discriminate Hx;
    try (repeat split; reflexivity).
  assert (Hprec : 0 < prec) by reflexivity.
  assert (C := valid_canonical prec emax false m e Hv).
  assert (Hc : Z.pos (digits2_pos 7205759403792794) = prec) by reflexivity.
  assert (P1 := scaled_pre 7205759403792794 (-56) m e Hc).
  assert (P2 := scaled_pre 7205759403792794 (-53) m e Hc).
  assert (P3 : e <= round_exp prec emax (Z.pos m) 1 e).
  { unfold round_exp. rewrite Z.div_1_r. unfold canonical in C.
    change (Zdigits2 (Z.pos m)) with (Z.pos (digits2_pos m)). rewrite C. lia. }
  assert (E1 : SFmul prec emax (S754_finite false m e)
                 (S754_finite false 7205759403792794 (-56))
               = pack prec emax false
                   (rounded prec emax (Z.pos (m * 7205759403792794)) 1 (e + -56))).
  { unfold SFmul. apply binary_round_aux_exact; [exact Hprec|lia|exact P1]. }
  assert (E2 : SFmul prec emax (S754_finite false m e)
                 (S754_finite false 7205759403792794 (-53))
               = pack prec emax false
                   (rounded prec emax (Z.pos (m * 7205759403792794)) 1 (e + -53))).
  { unfold SFmul. apply binary_round_aux_exact; [exact Hprec|lia|exact P2]. }
  assert (E3 : S754_finite false m e
               = pack prec emax false (rounded prec emax (Z.pos m) 1 e)).
  { rewrite (rounded_of_canonical m e C). unfold pack. cbn [fst snd].
    unfold SpecFloat.valid_binary, bounded in Hv.
    apply andb_prop in Hv as [_ Hb]. by rewrite Hb. }
  rewrite E1, E2. rewrite E3 at 1.
  assert (N1 := rounded_nonneg prec emax Hprec (Z.pos (m * 7205759403792794)) 1 (e + -56)
                  ltac:(lia) ltac:(lia) P1).
  assert (N2 := rounded_nonneg prec emax Hprec (Z.pos (m * 7205759403792794)) 1 (e + -53)
                  ltac:(lia) ltac:(lia) P2).
  assert (N3 := rounded_nonneg prec emax Hprec (Z.pos m) 1 e ltac:(lia) ltac:(lia) P3).
  split; [|split].
  - destruct (pack_cases prec emax false _ N1) as [->|[(m' & e' & ->)| ->]]; reflexivity.
  - apply (pack_mono prec emax); [exact N1|exact N2|].
    apply (rounded_mono prec emax Hprec); try lia; try assumption.
    unfold val_le. replace (Z.min (e + -56) (e + -53)) with (e + -56) by lia.
    replace (e + -56 - (e + -56)) with 0 by lia.
    replace (e + -53 - (e + -56)) with 3 by lia.
    change (2 ^ 0) with 1. change (2 ^ 3) with 8. lia.
  - apply (pack_mono prec emax); [exact N2|exact N3|].
    apply (rounded_mono prec emax Hprec); try lia; try assumption.
    unfold val_le. replace (Z.min (e + -53) e) with (e + -53) by lia.
    replace (e + -53 - (e + -53)) with 0 by lia.
    replace (e - (e + -53)) with 53 by lia.
    change (2 ^ 0) with 1. rewrite Pos2Z.inj_mul.
    assert (7205759403792794 < 2 ^ 53) by reflexivity. nia.
Qed.

(** X27.  Fees stay within the total.  For an order whose total price is not
    negative, the platform fee is not negative, it is at most the provider
    fee, and the provider fee is at most the total price; the three amounts
    are in the same order in the message [convertOrderToProto] builds. *)
Theorem fees_within_total (o : model.Order) :
  PrimFloat.leb 0 (model.TotalPrice o) = true ->
  let f := model.CalculateFees o in
  PrimFloat.leb 0 (model.PlatformFee f) = true /\
  PrimFloat.leb (model.PlatformFee f) (model.ProviderFee f) = true /\
  PrimFloat.leb (model.ProviderFee f) (model.TotalPrice f) = true /\
  SFleb (pb.ord_PlatformFee (convertOrderToProto f))
        (pb.ord_ProviderFee (convertOrderToProto f)) = true /\
  SFleb (pb.ord_ProviderFee (convertOrderToProto f))
        (pb.ord_TotalPrice (convertOrderToProto f)) = true.
Proof.
  intros Hpos. cbn zeta.
  change (model.PlatformFee (model.CalculateFees o)) with (model.TotalPrice o * 0.1)%float.
  change (model.ProviderFee (model.CalculateFees o)) with (model.TotalPrice o * 0.8)%float.
  change (model.TotalPrice (model.CalculateFees o)) with (model.TotalPrice o).
  set (x := model.TotalPrice o) in *.
  assert (H : PrimFloat.leb 0 (x * 0.1) = true /\
              PrimFloat.leb (x * 0.1) (x * 0.8) = true /\
              PrimFloat.leb (x * 0.8) x = true).
  { rewrite !FloatAxioms.leb_spec, !FloatAxioms.mul_spec.
    rewrite FloatAxioms.leb_spec in Hpos.
    apply SFmul_shares; [apply Prim2SF_valid|exact Hpos]. }
  destruct H as (H1 & H2 & H3).
  split; [exact H1|]. split; [exact H2|]. split; [exact H3|].
  split; apply float32_mono; assumption.
Qed.

Lemma fees_within_total_witness :
  PrimFloat.leb 0 (model.TotalPrice (model.set_TotalPrice 12.5 demo_order)) = true /\
  SFleb (pb.ord_ProviderFee (convertOrderToProto (priced 12.5 demo_order)))
        (pb.ord_TotalPrice (convertOrderToProto (priced 12.5 demo_order))) = true.
Proof.
  assert (H : PrimFloat.leb 0 (model.TotalPrice (model.set_TotalPrice 12.5 demo_order))
              = true) by reflexivity.
  split; [exact H|].
  exact (proj2 (proj2 (proj2 (proj2
    (fees_within_total (model.set_TotalPrice 12.5 demo_order) H))))).
Defined.

(* ===================================================================== *)
(** ** Through the gateway *)
(* ===================================================================== *)

Lemma run_delivered env {A : Type} (p : Prog (Reply A)) w r w' kids :
  run env p w = (Some r, w', kids) ->
  run env (delivered p) w
  = (Some (match r with
           | OK resp => gateway.returned resp
           | Error c msg => gateway.status_error (Some c) msg
           end), w', kids).
Proof.
  intros H. unfold delivered. rewrite run_Prog_bind, H. simpl.
  by rewrite app_nil_r.
Qed.

Lemma status_name_stored (s : string) :
  convertOrderStatusFromProto (gateway.convertOrderStatusFromString s)
  = if is_status_name s then s else model.StatusCreated.
Proof.
  unfold gateway.convertOrderStatusFromString, is_status_name, known_statuses.
  cbn [existsb].
  unfold model.StatusCreated, model.StatusPaymentPending, model.StatusPaymentComplete,
    model.StatusProviderAssigned, model.StatusProviderAccepted,
    model.StatusProviderRejected, model.StatusInProgress, model.StatusPickedUp,
    model.StatusInTransit, model.StatusArrived, model.StatusDelivered,
    model.StatusCompleted, model.StatusCancelled, model.StatusRefunded,
    model.StatusDisputed.
  repeat match goal with
  | |- context [String.eqb s ?b] =>
      destruct (String.eqb_spec s b) as [->|?]; [reflexivity|]
  end.
  reflexivity.
Qed.

Lemma status_name_listed (s : string) :
  listed_status (gateway.convertOrderStatusFromString s)
  = if is_status_name s then s else "".
Proof.
  unfold listed_status. rewrite status_name_stored.
  unfold gateway.convertOrderStatusFromString, is_status_name, known_statuses.
  cbn [existsb].
  unfold model.StatusCreated, model.StatusPaymentPending, model.StatusPaymentComplete,
    model.StatusProviderAssigned, model.StatusProviderAccepted,
    model.StatusProviderRejected, model.StatusInProgress, model.StatusPickedUp,
    model.StatusInTransit, model.StatusArrived, model.StatusDelivered,
    model.StatusCompleted, model.StatusCancelled, model.StatusRefunded,
    model.StatusDisputed.
  repeat match goal with
  | |- context [String.eqb s ?b] =>
      destruct (String.eqb_spec s b) as [->|?]; [reflexivity|]
  end.
  reflexivity.
Qed.

Lemma run_getOrder_missing env orderID (k : model.Order -> Prog (Reply OrderResponse)) w :
  orders w !! orderID = None ->
  run env (getOrder orderID k) w = (Some (Error NotFound "order not found"), w, []).
Proof.
  intros H. unfold getOrder, repository.GetOrderByID. simpl. by rewrite H.
Qed.

(** X28.  A status update through the gateway.  For a request that names an
    order and whose body was bound, the gateway answers 404 when the order
    is not stored and leaves the orders as they are.  Otherwise it answers
    200 with the stored order, whatever the status of the order was and
    whatever the status string is: the order gets the status of that name
    when the string is one of the fifteen names, and the status [CREATED]
    for every other string; its history grows by one entry with that status,
    the actor and the notes of the body. *)
Theorem gateway_status_update (env : Env) (w : World) (orderID : string)
    (request : gateway.UpdateOrderStatusBody) :
  orderID <> "" ->
  let '(r, w', _) :=
    run env (gateway.UpdateOrderStatus connected orderID (inr request)) w in
  match orders w !! orderID with
  | None =>
      r = Some (gateway.JSON 404 (gateway.error_body "Order not found")) /\
      orders w' = orders w
  | Some o =>
      exists o' t,
        r = Some (gateway.JSON 200 (gateway.order_body (convertOrderToProto o'))) /\
        orders w' = <[orderID := o']> (orders w) /\
        model.Status o'
        = (if is_status_name (gateway.usb_Status request)
           then gateway.usb_Status request else model.StatusCreated) /\
        model.StatusHistory_ o'
        = model.StatusHistory_ o ++
            [ {| model.sh_Status := model.Status o';
                 model.sh_UpdatedBy := gateway.usb_UpdatedBy request;
                 model.sh_Notes := gateway.usb_Notes request;
                 model.sh_Timestamp := t |} ]
  end.
Proof.
  intros Hid. unfold gateway.UpdateOrderStatus.
  rewrite (eqb_empty_false _ Hid). rewrite run_Prog_bind.
  cbn [connected gateway.client_UpdateOrderStatus].
  set (req := {| pb.us_OrderId := orderID;
                 pb.us_Status := gateway.convertOrderStatusFromString
                                   (gateway.usb_Status request);
                 pb.us_UpdatedBy := gateway.usb_UpdatedBy request;
                 pb.us_Notes := gateway.usb_Notes request |}).
  destruct (orders w !! orderID) as [o|] eqn:Ho.
  - rewrite (run_delivered env _ w _ _ _ (run_UpdateOrderStatus env w req o Hid Ho)).
    simpl. do 2 eexists. split; [reflexivity|]. split; [reflexivity|].
    split; [apply status_name_stored|reflexivity].
  - assert (H : run env (UpdateOrderStatus req) w
                = (Some (Error NotFound "order not found"), w, [])).
    { unfold UpdateOrderStatus. cbn [pb.us_OrderId req].
      rewrite (eqb_empty_false _ Hid). by apply run_getOrder_missing. }
    rewrite (run_delivered env _ w _ _ _ H). simpl. split; reflexivity.
Qed.

Lemma gateway_status_update_witness :
  let '(r, w', _) :=
    run demo_env (gateway.UpdateOrderStatus connected "order-1" (inr demo_status_body))
      completed_world in
  exists o', orders w' !! "order-1" = Some o' /\ model.Status o' = "CREATED".
Proof.
  assert (Hid : "order-1" <> "") by discriminate.
  pose proof (gateway_status_update demo_env completed_world "order-1" demo_status_body
                Hid) as H.
  destruct (run demo_env (gateway.UpdateOrderStatus connected "order-1"
                            (inr demo_status_body)) completed_world) as [[r w'] kids].
  change (orders completed_world !! "order-1") with (Some (model.set_Status model.StatusCompleted demo_order)) in H.
  destruct H as (o' & t & _ & Hw & Hs & _).
  exists o'. split; [rewrite Hw; apply lookup_insert_eq|exact Hs].
Defined.

(** X29.  A cancellation through the gateway.  For a request that names an
    order and whose body was bound, the gateway answers 404 when the order
    is not stored; 400, with the message of the service, when the order is
    [COMPLETED], [CANCELLED] or [REFUNDED]; and in both cases nothing is
    changed.  In every other status it answers 200 with the order, now
    stored as [CANCELLED]. *)
Theorem gateway_cancel (env : Env) (w : World) (orderID : string)
    (request : gateway.CancelOrderBody) :
  orderID <> "" ->
  let '(r, w', _) := run env (gateway.CancelOrder connected orderID (inr request)) w in
  match orders w !! orderID with
  | None =>
      r = Some (gateway.JSON 404 (gateway.error_body "Order not found")) /\ w' = w
  | Some o =>
      (terminal (model.Status o) ->
       r = Some (gateway.JSON 400
                   (gateway.error_body "order cannot be cancelled in its current state"))
       /\ w' = w) /\
      (~ terminal (model.Status o) ->
       exists o',
         r = Some (gateway.JSON 200 (gateway.order_body (convertOrderToProto o'))) /\
         orders w' = <[orderID := o']> (orders w) /\
         model.Status o' = model.StatusCancelled)
  end.
Proof.
  intros Hid. unfold gateway.CancelOrder.
  rewrite (eqb_empty_false _ Hid). rewrite run_Prog_bind.
  cbn [connected gateway.client_CancelOrder].
  set (req := {| pb.co_OrderId := orderID;
                 pb.co_CancelledBy := gateway.cob_CancelledBy request;
                 pb.co_Reason := gateway.cob_Reason request |}).
  destruct (orders w !! orderID) as [o|] eqn:Ho.
  - pose proof (run_CancelOrder env w req o Hid Ho) as H.
    pose proof (terminal_test (model.Status o)) as Ht.
    destruct (String.eqb (model.Status o) model.StatusCompleted
              || String.eqb (model.Status o) model.StatusCancelled
              || String.eqb (model.Status o) model.StatusRefunded)%bool.
    + rewrite (run_delivered env _ w _ _ _ H). simpl.
      split; [intros _; by split|]. intros Hn. exfalso. apply Hn. by apply Ht.
    + cbn zeta in H. rewrite (run_delivered env _ w _ _ _ H). simpl.
      split; [intros Hterm; apply Ht in Hterm; discriminate|].
      intros _. eexists. split; [reflexivity|]. split; reflexivity.
  - assert (H : run env (CancelOrder req) w
                = (Some (Error NotFound "order not found"), w, [])).
    { unfold CancelOrder. cbn [pb.co_OrderId req].
      rewrite (eqb_empty_false _ Hid). by apply run_getOrder_missing. }
    rewrite (run_delivered env _ w _ _ _ H). simpl. split; reflexivity.
Qed.

Lemma gateway_cancel_witness :
  run demo_env (gateway.CancelOrder connected "order-1" (inr demo_cancel_body))
    completed_world
  = (Some (gateway.JSON 400
             (gateway.error_body "order cannot be cancelled in its current state")),
     completed_world, []).
Proof.
  assert (Hid : "order-1" <> "") by discriminate.
  pose proof (gateway_cancel demo_env completed_world "order-1" demo_cancel_body Hid) as H.
  destruct (run demo_env (gateway.CancelOrder connected "order-1"
                            (inr demo_cancel_body)) completed_world) as [[r w'] kids] eqn:E.
  change (orders completed_world !! "order-1") with (Some (model.set_Status model.StatusCompleted demo_order)) in H.
  destruct H as [H _]. destruct H as [-> ->]; [left; reflexivity|].
  vm_compute in E. injection E as <-. reflexivity.
Defined.

(** X30.  A listing through the gateway.  For a non-empty owner the gateway
    answers 200 and changes nothing.  The page and the limit are sent to
    the service as 32-bit integers and come back as sent.  The status
    string filters the listing when it is one of the fifteen names; every
    other string, the empty one included, lists the orders of the owner in
    every status. *)
Theorem gateway_listing (env : Env) (w : World) (key : string) (page limit : Z)
    (status : string) :
  key <> "" ->
  let filter := if is_status_name status then status else "" in
  run env (gateway.ListUserOrders connected key page limit status) w
  = (Some (listing_page env by_user_id key page limit filter w), w, []) /\
  run env (gateway.ListProviderOrders connected key page limit status) w
  = (Some (listing_page env by_provider_id key page limit filter w), w, []).
Proof.
  intros Hkey. cbn zeta. split.
  - unfold gateway.ListUserOrders. rewrite (eqb_empty_false _ Hkey), run_Prog_bind.
    cbn [connected gateway.client_ListUserOrders].
    rewrite (run_delivered env _ w _ _ _ (run_ListUserOrders env w _)).
    cbn [pb.lu_UserId pb.lu_Page pb.lu_Limit pb.lu_Status].
    rewrite (eqb_empty_false _ Hkey). unfold listing_reply.
    rewrite status_name_listed. reflexivity.
  - unfold gateway.ListProviderOrders. rewrite (eqb_empty_false _ Hkey), run_Prog_bind.
    cbn [connected gateway.client_ListProviderOrders].
    rewrite (run_delivered env _ w _ _ _ (run_ListProviderOrders env w _)).
    cbn [pb.lp_ProviderId pb.lp_Page pb.lp_Limit pb.lp_Status].
    rewrite (eqb_empty_false _ Hkey). unfold listing_reply.
    rewrite status_name_listed. reflexivity.
Qed.

Lemma gateway_listing_witness :
  run demo_env (gateway.ListUserOrders connected "u1" 1 10 "shipped") demo_world
  = (Some (listing_page demo_env by_user_id "u1" 1 10 "" demo_world), demo_world, []).
Proof.
  assert (Hkey : "u1" <> "") by discriminate.
  exact (proj1 (gateway_listing demo_env demo_world "u1" 1 10 "shipped" Hkey)).
Defined.
